(** * PFSExtractor: a shallow embedding of [pfsextractor.cpp]

    The development follows the C++ source function by function:
    [write_file], the chunk type [PFS_CHUNK], and [pfs_extract] with its
    validation prologue, its walk over the sections and its reassembly
    of chunks; then [guid_to_string], and [main] with the calls it makes
    to the platform.

    Conventions.
    - Unsigned machine integers are values of [N].  [size_t] and pointers
      are taken to be 64 bits wide, so that the only arithmetic that can
      wrap is the comparison of the buffer size with the declared size
      (written out modulo 2^64) and the [uint8_t] section counter
      (written out modulo 256).
    - The input file is one allocation, [mem : list byte]; a pointer into
      it is an offset of type [N].  [pfs_extract] is only ever called
      with a pointer into that allocation, never with a null pointer.
    - Every [printf] and every call of [write_file] is recorded, in
      order, as an [event].  The two GUIDs of a section header are kept
      as bytes; [guid_to_string] is modelled on its own, on these bytes.
    - The file system is a parameter: a state [W] and a function [sink]
      that says, for a name and the bytes to write, whether the file
      could be created and written.
    - A read outside the allocation, and a pointer moved beyond its end,
      are undefined behaviour in C; the model stops there with the
      outcome [Undefined].  A block handed to [write_file] has to lie in
      the allocation for the same reason: the pointer is moved past the
      block right after the call.
    - [std::sort] is a parameter as well; of it only the contract of the
      C++ standard is used.  Where a claim about chunks of equal order
      number is refuted, the parameter is the [std::sort] of GNU
      libstdc++, written out in [Libstdcxx].
    - The strings of [guid_to_string] come from [malloc] and are released
      with [delete]; this is taken to do what [free] does, and is no
      outcome of the model. *)

From Stdlib Require Import PeanoNat NArith List String Ascii Strings.Byte Bool Lia.
From Stdlib Require Import Permutation Sorted.
Import ListNotations.

Local Open Scope string_scope.
Local Open Scope N_scope.
Local Open Scope list_scope.

(** ** Little-endian decoding and [printf] conversions *)

Definition le_decode (bs : list byte) : N :=
  fold_right (fun b acc => Byte.to_N b + 256 * acc) 0 bs.

Definition bytes_of_string (s : string) : list byte :=
  list_byte_of_string s.

(** [*(uint64_t* )"PFS.HDR."] and [*(uint64_t* )"PFS.FTR."]. *)
Definition PFS_HEADER_SIGNATURE : N := le_decode (bytes_of_string "PFS.HDR.").
Definition PFS_FOOTER_SIGNATURE : N := le_decode (bytes_of_string "PFS.FTR.").

Definition digit_char (d : N) : ascii :=
  if d <? 10 then ascii_of_N (48 + d) else ascii_of_N (55 + d).

Fixpoint to_digits (fuel : nat) (base n : N) (acc : string) : string :=
  match fuel with
  | O => acc
  | S fuel' =>
      let acc' := String (digit_char (n mod base)) acc in
      if n / base =? 0 then acc' else to_digits fuel' base (n / base) acc'
  end.

(** [%X] and [%d] applied to an unsigned value that fits an [int]. *)
Definition fmt_X (n : N) : string := to_digits (S (N.to_nat (N.size n))) 16 n "".
Definition fmt_d (n : N) : string := to_digits (S (N.to_nat (N.size n))) 10 n "".

(** ** Structures *)

Definition sizeof_PFS_FILE_HEADER : N := 16.
Definition sizeof_PFS_FILE_FOOTER : N := 16.
Definition sizeof_PFS_SECTION_HEADER : N := 72.

Record PFS_SECTION_HEADER := mkSectionHeader {
  Guid1 : list byte;
  HeaderVersion : N;
  VersionType : list N;
  Version : list N;
  Reserved : N;
  DataSize : N;
  DataSignatureSize : N;
  MetadataSize : N;
  MetadataSignatureSize : N;
  Guid2 : list byte
}.

Record PFS_CHUNK := mkChunk {
  data : list byte;
  orderNum : N
}.

(** [operator<] of [PFS_CHUNK]. *)
Definition chunk_lt (lhs rhs : PFS_CHUNK) : bool := orderNum lhs <? orderNum rhs.

(** ** Events *)

Inductive message :=
| MsgInputTooSmall
| MsgFileHeader (isSubsection : bool) (signature version dataSize : N)
| MsgInvalidHeaderSignature
| MsgUnknownHeaderVersion (version : N)
| MsgFileTooSmall
| MsgFileFooter (isSubsection : bool) (signature checksum dataSize : N)
| MsgInvalidFooterSignature
| MsgDataSizeMismatch (headerSize footerSize : N)
| MsgSectionHeader (isSubsection : bool) (sectionNum : N) (hdr : PFS_SECTION_HEADER)
| MsgUnknownVersionType (type value : N)
| MsgVersion (version : string)
| MsgCantCreate (filename : string)
| MsgCantWrite (filename : string).

Inductive io_result := IoOk | IoCantCreate | IoCantWrite.

Inductive event :=
| EvPrint (m : message)
| EvWrite (filename : string) (contents : list byte) (r : io_result).

Inductive outcome (A : Type) :=
| Ret (a : A)
| Undefined
| OutOfFuel.
Arguments Ret {A} a.
Arguments Undefined {A}.
Arguments OutOfFuel {A}.

(** The writes attempted in a trace, whatever their result. *)
Fixpoint writes_of (tr : list event) : list (string * list byte) :=
  match tr with
  | [] => []
  | EvPrint _ :: tr' => writes_of tr'
  | EvWrite f c _ :: tr' => (f, c) :: writes_of tr'
  end.

(** The diagnostics of a trace. *)
Fixpoint messages_of (tr : list event) : list message :=
  match tr with
  | [] => []
  | EvPrint m :: tr' => m :: messages_of tr'
  | EvWrite _ _ _ :: tr' => messages_of tr'
  end.

(** ** The effect monad

    A computation takes the state of the file system and yields the
    events it produced, the new file-system state and its outcome. *)

Module Eff.

Definition M (W A : Type) : Type := W -> list event * W * outcome A.

Definition ret {W A} (a : A) : M W A := fun w => ([], w, Ret a).

Definition bind {W A B} (m : M W A) (k : A -> M W B) : M W B :=
  fun w =>
    match m w with
    | (ev, w', Ret a) =>
        match k a w' with
        | (ev', w'', o) => (ev ++ ev', w'', o)
        end
    | (ev, w', Undefined) => (ev, w', Undefined)
    | (ev, w', OutOfFuel) => (ev, w', OutOfFuel)
    end.

Definition print {W} (m : message) : M W unit :=
  fun w => ([EvPrint m], w, Ret tt).

Definition undefined {W A} : M W A := fun w => ([], w, Undefined).
Definition out_of_fuel {W A} : M W A := fun w => ([], w, OutOfFuel).

Definition lift_option {W A} (o : option A) : M W A :=
  match o with
  | Some a => ret a
  | None => undefined
  end.

Definition when {W} (b : bool) (m : M W unit) : M W unit :=
  if b then m else ret tt.

End Eff.

Import Eff.

Declare Scope eff_scope.
Delimit Scope eff_scope with eff.
Notation "x <- m ;; k" := (bind m (fun x => k))
  (at level 61, m at next level, right associativity) : eff_scope.
Notation "m ;; k" := (bind m (fun _ => k))
  (at level 61, right associativity) : eff_scope.
Notation "' pat <- m ;; k" := (bind m (fun x => match x with pat => k end))
  (at level 61, pat pattern, m at next level, right associativity) : eff_scope.
Local Open Scope eff_scope.

(** ** Reading the input buffer *)

Section Memory.

Variable mem : list byte.

(** The bytes [[off, off + n)] of the buffer; [None] when the span leaves
    the allocation. *)
Definition span (off n : N) : option (list byte) :=
  if off + n <=? N.of_nat (List.length mem)
  then Some (firstn (N.to_nat n) (skipn (N.to_nat off) mem))
  else None.

Definition load (off width : N) : option N :=
  option_map le_decode (span off width).

Definition read_section_header (off : N) : option PFS_SECTION_HEADER :=
  match span off sizeof_PFS_SECTION_HEADER with
  | None => None
  | Some bs =>
      let field o n := firstn n (skipn o bs) in
      Some {| Guid1 := field 0%nat 16%nat;
              HeaderVersion := le_decode (field 16%nat 4%nat);
              VersionType := map Byte.to_N (field 20%nat 4%nat);
              Version := [ le_decode (field 24%nat 2%nat);
                           le_decode (field 26%nat 2%nat);
                           le_decode (field 28%nat 2%nat);
                           le_decode (field 30%nat 2%nat) ];
              Reserved := le_decode (field 32%nat 8%nat);
              DataSize := le_decode (field 40%nat 4%nat);
              DataSignatureSize := le_decode (field 44%nat 4%nat);
              MetadataSize := le_decode (field 48%nat 4%nat);
              MetadataSignatureSize := le_decode (field 52%nat 4%nat);
              Guid2 := field 56%nat 16%nat |}
  end.

End Memory.

(** ** The program *)

Definition char (c : ascii) : N := N_of_ascii c.
Arguments char : simpl never.

(** [sprintf(filename, "section_%d_%s<suffix>", sectionNum, version)]. *)
Definition section_filename (sectionNum : N) (version suffix : string) : string :=
  ("section_" ++ fmt_d sectionNum ++ "_" ++ version ++ suffix)%string.

(** [sectionNum++] on a [uint8_t]. *)
Definition next_sectionNum (sectionNum : N) : N := (sectionNum + 1) mod 256.

Section Extract.

(** The file system behind [fopen]/[fwrite]: its state and what one
    creation-and-write of a named file does to it. *)
Variable W : Type.
Variable sink : W -> string -> list byte -> W * io_result.

(** [std::sort] on a vector of chunks, ordered by [operator<]. *)
Variable std_sort : list PFS_CHUNK -> list PFS_CHUNK.

(** The loaded input file. *)
Variable mem : list byte.

(** [write_file]: the bytes are those of the span the caller hands in. *)
Definition write_file (filename : string) (buffer : list byte) : M W N :=
  fun w =>
    match sink w filename buffer with
    | (w', IoOk) =>
        ([EvWrite filename buffer IoOk], w', Ret 0)
    | (w', IoCantCreate) =>
        ([EvWrite filename buffer IoCantCreate; EvPrint (MsgCantCreate filename)],
         w', Ret 1)
    | (w', IoCantWrite) =>
        ([EvWrite filename buffer IoCantWrite; EvPrint (MsgCantWrite filename)],
         w', Ret 2)
    end.

(** The [for (uint8_t i = 0; i < 4; i++)] loop over the version
    components, [idx] being the indices still to visit. *)
Fixpoint version_loop (idx : list nat) (hdr : PFS_SECTION_HEADER)
    (version : string) : M W string :=
  match idx with
  | [] => ret version
  | i :: idx' =>
      let t := nth i (VersionType hdr) 0 in
      let v := nth i (Version hdr) 0 in
      if t =? char "A" then
        version_loop idx' hdr (version ++ (fmt_X v ++ "."))%string
      else if t =? char "N" then
        version_loop idx' hdr (version ++ (fmt_d v ++ "."))%string
      else if (t =? char " ") || (t =? 0) then
        ret version
      else
        print (MsgUnknownVersionType t v) ;;
        version_loop idx' hdr version
  end.

Definition show_version (hdr : PFS_SECTION_HEADER) : M W string :=
  version <- version_loop [0; 1; 2; 3]%nat hdr "" ;;
  match version with
  | EmptyString => ret "."%string
  | _ => print (MsgVersion version) ;; ret version
  end.

(** [ptr += size]: the new pointer has to stay inside the allocation (or
    one past its end). *)
Definition advance (ptr size : N) : M W N :=
  if ptr + size <=? N.of_nat (List.length mem) then ret (ptr + size) else undefined.

(** [std::vector<char>(first, last)]. *)
Definition vector_range (first last : N) : M W (list byte) :=
  if first <=? last then lift_option (span mem first (last - first)) else undefined.

(** The three blocks after the data block: written out in a normal pass,
    skipped in a subsection pass. *)
Definition emit_block (isSubsection : bool) (filename : string) (ptr size : N)
  : M W unit :=
  if size =? 0 then ret tt
  else if isSubsection then ret tt
  else
    bs <- lift_option (span mem ptr size) ;;
    write_file filename bs ;;
    ret tt.

Section Walk.

(** The recursive call [pfs_extract(ptr, size, filename)]. *)
Variable rec : N -> N -> option string -> M W N.
Variable isSubsection : bool.
Variable dataEnd : N.

(** The data block of one section. *)
Definition data_block (hdr : PFS_SECTION_HEADER) (ptr sectionNum : N)
    (version : string) (chunks : list PFS_CHUNK) : M W (list PFS_CHUNK) :=
  if DataSize hdr =? 0 then ret chunks
  else if isSubsection then
    num <- lift_option (load mem (ptr + 0x3E) 2) ;;
    bytes <- vector_range (ptr + 0x248) (ptr + DataSize hdr) ;;
    ret (chunks ++ [ {| data := bytes; orderNum := num |} ])
  else
    bs <- lift_option (span mem ptr (DataSize hdr)) ;;
    write_file (section_filename sectionNum version "data") bs ;;
    sig <- lift_option (load mem ptr 8) ;;
    if sig =? PFS_HEADER_SIGNATURE then
      rec ptr (DataSize hdr) (Some (section_filename sectionNum version "payload")) ;;
      ret chunks
    else ret chunks.

(** One iteration of the [while] loop: the section header at [off], its
    four blocks, and the pointer after them. *)
Definition section_step (off sectionNum : N) (chunks : list PFS_CHUNK)
  : M W (N * list PFS_CHUNK) :=
  hdr <- lift_option (read_section_header mem off) ;;
  print (MsgSectionHeader isSubsection sectionNum hdr) ;;
  version <- show_version hdr ;;
  ptr <- advance off sizeof_PFS_SECTION_HEADER ;;
  chunks' <- data_block hdr ptr sectionNum version chunks ;;
  ptr <- advance ptr (DataSize hdr) ;;
  emit_block isSubsection (section_filename sectionNum version "sign")
    ptr (DataSignatureSize hdr) ;;
  ptr <- advance ptr (DataSignatureSize hdr) ;;
  emit_block isSubsection (section_filename sectionNum version "meta")
    ptr (MetadataSize hdr) ;;
  ptr <- advance ptr (MetadataSize hdr) ;;
  emit_block isSubsection (section_filename sectionNum version "mtsg")
    ptr (MetadataSignatureSize hdr) ;;
  ptr <- advance ptr (MetadataSignatureSize hdr) ;;
  ret (ptr, chunks').

(** [while ((uint8_t* )sectionHeader < dataEnd)]. *)
Fixpoint walk (fuel : nat) (off sectionNum : N) (chunks : list PFS_CHUNK)
  : M W (list PFS_CHUNK) :=
  if off <? dataEnd then
    match fuel with
    | O => out_of_fuel
    | S fuel' =>
        '(ptr, chunks') <- section_step off sectionNum chunks ;;
        walk fuel' ptr (next_sectionNum sectionNum) chunks'
    end
  else ret chunks.

End Walk.

(** The code after the loop: sort, append, write. *)
Definition reassemble (filename : option string) (chunks : list PFS_CHUNK)
  : M W unit :=
  match filename with
  | Some name =>
      let sorted := std_sort chunks in
      let out := List.concat (map data sorted) in
      write_file name out ;;
      ret tt
  | None => ret tt
  end.

Definition is_subsection (filename : option string) : bool :=
  match filename with
  | Some _ => true
  | None => false
  end.

(** The loop over the sections of the data region and what follows it. *)
Definition sections_pass (rec : N -> N -> option string -> M W N)
    (buffer dataSize : N) (filename : option string) : M W N :=
  let dataEnd := buffer + sizeof_PFS_FILE_HEADER + dataSize in
  chunks <- walk rec (is_subsection filename) dataEnd (S (List.length mem))
              (buffer + sizeof_PFS_FILE_HEADER) 0 [] ;;
  reassemble filename chunks ;;
  ret 0.

Definition pfs_extract_body (rec : N -> N -> option string -> M W N)
    (buffer bufferSize : N) (filename : option string) : M W N :=
  if bufferSize <? sizeof_PFS_FILE_HEADER + sizeof_PFS_FILE_FOOTER then
    print MsgInputTooSmall ;; ret 1
  else
    let isSubsection := is_subsection filename in
    signature <- lift_option (load mem buffer 8) ;;
    version <- lift_option (load mem (buffer + 8) 4) ;;
    dataSize <- lift_option (load mem (buffer + 12) 4) ;;
    print (MsgFileHeader isSubsection signature version dataSize) ;;
    if negb (signature =? PFS_HEADER_SIGNATURE) then
      print MsgInvalidHeaderSignature ;; ret 1
    else if negb (version =? 1) then
      print (MsgUnknownHeaderVersion version) ;; ret 1
    else if bufferSize <?
              (sizeof_PFS_FILE_HEADER + dataSize + sizeof_PFS_FILE_FOOTER) mod 2 ^ 64 then
      print MsgFileTooSmall ;; ret 1
    else
      let footer := buffer + sizeof_PFS_FILE_HEADER + dataSize in
      fDataSize <- lift_option (load mem footer 4) ;;
      fChecksum <- lift_option (load mem (footer + 4) 4) ;;
      fSignature <- lift_option (load mem (footer + 8) 8) ;;
      print (MsgFileFooter isSubsection fSignature fChecksum fDataSize) ;;
      when (negb (fSignature =? PFS_FOOTER_SIGNATURE)) (print MsgInvalidFooterSignature) ;;
      when (negb (fDataSize =? dataSize)) (print (MsgDataSizeMismatch dataSize fDataSize)) ;;
      sections_pass rec buffer dataSize filename.

(** [pfs_extract], [depth] bounding the nesting of recursive calls. *)
Fixpoint pfs_extract (depth : nat) (buffer bufferSize : N)
    (filename : option string) : M W N :=
  match depth with
  | O => out_of_fuel
  | S depth' => pfs_extract_body (pfs_extract depth') buffer bufferSize filename
  end.

(** The call in [main]: the whole file, no target name. *)
Definition main_extract : M W N :=
  pfs_extract (S (List.length mem)) 0 (N.of_nat (List.length mem)) None.

End Extract.

Arguments write_file {W} sink filename buffer.
Arguments version_loop {W} idx hdr version.
Arguments show_version {W} hdr.
Arguments advance {W} mem ptr size.
Arguments vector_range {W} mem first last.
Arguments emit_block {W} sink mem isSubsection filename ptr size.
Arguments data_block {W} sink mem rec isSubsection hdr ptr sectionNum version chunks.
Arguments section_step {W} sink mem rec isSubsection off sectionNum chunks.
Arguments walk {W} sink mem rec isSubsection dataEnd fuel off sectionNum chunks.
Arguments reassemble {W} sink std_sort filename chunks.
Arguments sections_pass {W} sink std_sort mem rec buffer dataSize filename.
Arguments pfs_extract_body {W} sink std_sort mem rec buffer bufferSize filename.
Arguments pfs_extract {W} sink std_sort mem depth buffer bufferSize filename.
Arguments main_extract {W} sink std_sort mem.

(** ** Building concrete files

    Encoders for the on-disk layout, used to write down the inputs of the
    examples below. *)

Module Build.

Fixpoint le_encode (width : nat) (n : N) : list byte :=
  match width with
  | O => []
  | S width' =>
      match Byte.of_N (n mod 256) with
      | Some b => b :: le_encode width' (n / 256)
      | None => []
      end
  end.

Definition zeros (n : nat) : list byte := repeat x00 n.

Definition byte_of_char (c : ascii) : byte := byte_of_ascii c.

Definition size_of (bs : list byte) : N := N.of_nat (List.length bs).

(** A section: header fields (version components padded to four), then
    the four blocks. *)
Definition section (types : list ascii) (versions : list N)
    (d ds m ms : list byte) : list byte :=
  zeros 16 ++ le_encode 4 1
  ++ firstn 4 (map byte_of_char types ++ zeros 4)
  ++ List.concat (map (le_encode 2) (firstn 4 (versions ++ [0; 0; 0; 0])))
  ++ zeros 8
  ++ le_encode 4 (size_of d) ++ le_encode 4 (size_of ds)
  ++ le_encode 4 (size_of m) ++ le_encode 4 (size_of ms)
  ++ zeros 16 ++ d ++ ds ++ m ++ ms.

(** A section header that declares [dsize] bytes of data whatever follows. *)
Definition section_header (dsize : N) : list byte :=
  zeros 16 ++ le_encode 4 1 ++ zeros 4 ++ zeros 8 ++ zeros 8
  ++ le_encode 4 dsize ++ zeros 12 ++ zeros 16.

(** A container around [body], with the given header data size and footer
    fields. *)
Definition container_with (dataSize : N) (body : list byte)
    (fDataSize : N) (fMagic : string) : list byte :=
  bytes_of_string "PFS.HDR." ++ le_encode 4 1 ++ le_encode 4 dataSize
  ++ body
  ++ le_encode 4 fDataSize ++ le_encode 4 0 ++ bytes_of_string fMagic.

Definition container (body : list byte) : list byte :=
  container_with (size_of body) body (size_of body) "PFS.FTR.".

(** A chunk payload: 0x248 opaque bytes carrying the order number at
    offset 0x3E, then the chunk's bytes. *)
Definition chunk_block (order : N) (payload : list byte) : list byte :=
  zeros 62 ++ le_encode 2 order ++ zeros 520 ++ payload.

(** A file system on which every write succeeds, and one on which none does. *)
Definition ok_sink (w : unit) (_ : string) (_ : list byte) : unit * io_result :=
  (w, IoOk).
Definition failing_sink (w : unit) (_ : string) (_ : list byte) : unit * io_result :=
  (w, IoCantCreate).

End Build.

(** ** Sorting chunks *)

(** Insertion in front of the first element that is not smaller: folded
    from the right, it keeps equal keys in their original order. *)
Fixpoint insert_before (c : PFS_CHUNK) (l : list PFS_CHUNK) : list PFS_CHUNK :=
  match l with
  | [] => [c]
  | x :: l' => if chunk_lt x c then x :: insert_before c l' else c :: l
  end.

Definition stable_sort (l : list PFS_CHUNK) : list PFS_CHUNK :=
  fold_right insert_before [] l.

(** What the C++ standard promises of [std::sort]: the result is a
    permutation of the input in which no element is less than one before
    it.  The relative order of equivalent elements is left open. *)
Definition chunk_le (a b : PFS_CHUNK) : Prop := orderNum a <= orderNum b.

Definition std_sort_contract (sort : list PFS_CHUNK -> list PFS_CHUNK) : Prop :=
  forall l, Permutation l (sort l) /\ Sorted chunk_le (sort l).

(** ** [std::sort], as the library implements it

    The source calls [std::sort] (line 306) and leaves the algorithm to
    the C++ library.  What follows is the algorithm of GNU libstdc++
    ([bits/stl_algo.h] and [bits/stl_heap.h] of GCC 12), instantiated at
    [PFS_CHUNK] and its [operator<]: an introsort that partitions around
    a median of three while a range has more than 16 elements, falls back
    to a heap sort when the depth limit is used up, and finishes with an
    insertion sort.  The vector is a list, an iterator an index into it. *)

Module Libstdcxx.

(** What a read outside the vector gives; the algorithm never makes one. *)
Definition no_chunk : PFS_CHUNK := {| data := []; orderNum := 0 |}.

(** [*(first + i)] and the assignment to it. *)
Definition at_ (a : list PFS_CHUNK) (i : nat) : PFS_CHUNK := nth i a no_chunk.

Fixpoint put (a : list PFS_CHUNK) (i : nat) (v : PFS_CHUNK) : list PFS_CHUNK :=
  match a, i with
  | [], _ => []
  | _ :: a', O => v :: a'
  | x :: a', S i' => x :: put a' i' v
  end.

Definition iter_swap (a : list PFS_CHUNK) (i j : nat) : list PFS_CHUNK :=
  put (put a i (at_ a j)) j (at_ a i).

Definition S_threshold : nat := 16.

(** [__move_median_to_first(result, a, b, c)]. *)
Definition move_median_to_first (v : list PFS_CHUNK) (result a b c : nat)
  : list PFS_CHUNK :=
  if chunk_lt (at_ v a) (at_ v b) then
    if chunk_lt (at_ v b) (at_ v c) then iter_swap v result b
    else if chunk_lt (at_ v a) (at_ v c) then iter_swap v result c
    else iter_swap v result a
  else if chunk_lt (at_ v a) (at_ v c) then iter_swap v result a
  else if chunk_lt (at_ v b) (at_ v c) then iter_swap v result c
  else iter_swap v result b.

(** [while (comp(first, pivot)) ++first]. *)
Fixpoint scan_up (fuel : nat) (v : list PFS_CHUNK) (first pivot : nat) : nat :=
  match fuel with
  | O => first
  | S fuel' =>
      if chunk_lt (at_ v first) (at_ v pivot) then scan_up fuel' v (S first) pivot
      else first
  end.

(** [while (comp(pivot, last)) --last]. *)
Fixpoint scan_down (fuel : nat) (v : list PFS_CHUNK) (last pivot : nat) : nat :=
  match fuel with
  | O => last
  | S fuel' =>
      if chunk_lt (at_ v pivot) (at_ v last) then scan_down fuel' v (Nat.pred last) pivot
      else last
  end.

(** [__unguarded_partition(first, last, pivot)]: the vector and the cut. *)
Fixpoint unguarded_partition (fuel : nat) (v : list PFS_CHUNK) (first last pivot : nat)
  : list PFS_CHUNK * nat :=
  match fuel with
  | O => (v, first)
  | S fuel' =>
      let first := scan_up (List.length v) v first pivot in
      let last := Nat.pred last in
      let last := scan_down (List.length v) v last pivot in
      if negb (first <? last)%nat then (v, first)
      else unguarded_partition fuel' (iter_swap v first last) (S first) last pivot
  end.

(** [__unguarded_partition_pivot(first, last)]. *)
Definition unguarded_partition_pivot (v : list PFS_CHUNK) (first last : nat)
  : list PFS_CHUNK * nat :=
  let mid := (first + (last - first) / 2)%nat in
  let v := move_median_to_first v first (first + 1) mid (last - 1) in
  unguarded_partition (List.length v) v (first + 1) last first.

(** [__unguarded_linear_insert(last)], [val] being the element taken out. *)
Fixpoint unguarded_linear_insert_loop (fuel : nat) (v : list PFS_CHUNK) (val : PFS_CHUNK)
    (last : nat) : list PFS_CHUNK :=
  match fuel, last with
  | S fuel', S next =>
      if chunk_lt val (at_ v next)
      then unguarded_linear_insert_loop fuel' (put v last (at_ v next)) val next
      else put v last val
  | _, _ => put v last val
  end.

Definition unguarded_linear_insert (v : list PFS_CHUNK) (last : nat) : list PFS_CHUNK :=
  unguarded_linear_insert_loop (List.length v) v (at_ v last) last.

(** [std::move_backward(first, first + n, first + n + 1)]. *)
Fixpoint move_backward (n : nat) (v : list PFS_CHUNK) (first : nat) : list PFS_CHUNK :=
  match n with
  | O => v
  | S n' => move_backward n' (put v (first + S n') (at_ v (first + n'))) first
  end.

(** The [for] loop of [__insertion_sort], [n] iterations from [i] on. *)
Fixpoint insertion_sort_loop (n : nat) (v : list PFS_CHUNK) (first i : nat)
  : list PFS_CHUNK :=
  match n with
  | O => v
  | S n' =>
      let v' :=
        if chunk_lt (at_ v i) (at_ v first)
        then put (move_backward (i - first) v first) first (at_ v i)
        else unguarded_linear_insert v i in
      insertion_sort_loop n' v' first (S i)
  end.

Definition insertion_sort (v : list PFS_CHUNK) (first last : nat) : list PFS_CHUNK :=
  if (first =? last)%nat then v
  else insertion_sort_loop (last - (first + 1)) v first (first + 1).

(** [__unguarded_insertion_sort(first, last)], [n] iterations from [i] on. *)
Fixpoint unguarded_insertion_sort (n : nat) (v : list PFS_CHUNK) (i : nat)
  : list PFS_CHUNK :=
  match n with
  | O => v
  | S n' => unguarded_insertion_sort n' (unguarded_linear_insert v i) (S i)
  end.

Definition final_insertion_sort (v : list PFS_CHUNK) (first last : nat)
  : list PFS_CHUNK :=
  if (S_threshold <? last - first)%nat then
    let v := insertion_sort v first (first + S_threshold) in
    unguarded_insertion_sort (last - (first + S_threshold)) v (first + S_threshold)
  else insertion_sort v first last.

(** [__push_heap(first, holeIndex, topIndex, value)].  The indices are
    signed in the library: [(0 - 1) / 2] is 0 there as it is here. *)
Fixpoint push_heap (fuel : nat) (v : list PFS_CHUNK) (first holeIndex topIndex : nat)
    (value : PFS_CHUNK) : list PFS_CHUNK :=
  match fuel with
  | O => put v (first + holeIndex) value
  | S fuel' =>
      let parent := ((holeIndex - 1) / 2)%nat in
      if (topIndex <? holeIndex)%nat && chunk_lt (at_ v (first + parent)) value
      then push_heap fuel' (put v (first + holeIndex) (at_ v (first + parent)))
             first parent topIndex value
      else put v (first + holeIndex) value
  end.

(** The [while] loop of [__adjust_heap]: the vector, the hole and the
    second child it ends with. *)
Fixpoint adjust_heap_loop (fuel : nat) (v : list PFS_CHUNK)
    (first holeIndex secondChild len : nat) : list PFS_CHUNK * nat * nat :=
  match fuel with
  | O => (v, holeIndex, secondChild)
  | S fuel' =>
      if (secondChild <? (len - 1) / 2)%nat then
        let secondChild := (2 * (secondChild + 1))%nat in
        let secondChild :=
          if chunk_lt (at_ v (first + secondChild)) (at_ v (first + (secondChild - 1)))
          then (secondChild - 1)%nat else secondChild in
        adjust_heap_loop fuel' (put v (first + holeIndex) (at_ v (first + secondChild)))
          first secondChild secondChild len
      else (v, holeIndex, secondChild)
  end.

(** [__adjust_heap(first, holeIndex, len, value)]; [len] is at least 1
    wherever the library calls it, and [(len - 2) / 2] is taken only for
    an even [len]. *)
Definition adjust_heap (v : list PFS_CHUNK) (first holeIndex len : nat)
    (value : PFS_CHUNK) : list PFS_CHUNK :=
  let topIndex := holeIndex in
  let '(v, holeIndex, secondChild) :=
    adjust_heap_loop len v first holeIndex holeIndex len in
  let '(v, holeIndex) :=
    if Nat.even len && (2 <=? len)%nat && (secondChild =? (len - 2) / 2)%nat then
      let secondChild := (2 * (secondChild + 1))%nat in
      (put v (first + holeIndex) (at_ v (first + (secondChild - 1))),
       (secondChild - 1)%nat)
    else (v, holeIndex) in
  push_heap len v first holeIndex topIndex value.

(** [__pop_heap(first, last, result)]. *)
Definition pop_heap (v : list PFS_CHUNK) (first last result : nat) : list PFS_CHUNK :=
  let value := at_ v result in
  let v := put v result (at_ v first) in
  adjust_heap v first 0 (last - first) value.

(** The loop of [__make_heap], from [parent] down to 0. *)
Fixpoint make_heap_loop (v : list PFS_CHUNK) (first len parent : nat) : list PFS_CHUNK :=
  let v := adjust_heap v first parent len (at_ v (first + parent)) in
  match parent with
  | O => v
  | S parent' => make_heap_loop v first len parent'
  end.

Definition make_heap (v : list PFS_CHUNK) (first last : nat) : list PFS_CHUNK :=
  if (last - first <? 2)%nat then v
  else make_heap_loop v first (last - first) ((last - first - 2) / 2).

(** [__sort_heap(first, last)]. *)
Fixpoint sort_heap (fuel : nat) (v : list PFS_CHUNK) (first last : nat) : list PFS_CHUNK :=
  match fuel with
  | O => v
  | S fuel' =>
      if (1 <? last - first)%nat then
        let last := Nat.pred last in
        sort_heap fuel' (pop_heap v first last last) first last
      else v
  end.

(** The [for] loop of [__heap_select], [n] iterations from [i] on. *)
Fixpoint heap_select_loop (n : nat) (v : list PFS_CHUNK) (first middle i : nat)
  : list PFS_CHUNK :=
  match n with
  | O => v
  | S n' =>
      let v := if chunk_lt (at_ v i) (at_ v first) then pop_heap v first middle i else v in
      heap_select_loop n' v first middle (S i)
  end.

Definition heap_select (v : list PFS_CHUNK) (first middle last : nat) : list PFS_CHUNK :=
  heap_select_loop (last - middle) (make_heap v first middle) first middle middle.

Definition partial_sort (v : list PFS_CHUNK) (first middle last : nat) : list PFS_CHUNK :=
  let v := heap_select v first middle last in
  sort_heap (List.length v) v first middle.

(** [__introsort_loop(first, last, depth_limit)]: every turn of its loop
    uses up one unit of the depth limit or ends the call. *)
Fixpoint introsort_loop (depth_limit : nat) (v : list PFS_CHUNK) (first last : nat)
  : list PFS_CHUNK :=
  if (S_threshold <? last - first)%nat then
    match depth_limit with
    | O => partial_sort v first last last
    | S depth_limit' =>
        let '(v, cut) := unguarded_partition_pivot v first last in
        let v := introsort_loop depth_limit' v cut last in
        introsort_loop depth_limit' v first cut
    end
  else v.

(** [std::sort(chunks.begin(), chunks.end())]. *)
Definition sort (v : list PFS_CHUNK) : list PFS_CHUNK :=
  match v with
  | [] => v
  | _ =>
      let v := introsort_loop (Nat.log2 (List.length v) * 2) v 0 (List.length v) in
      final_insertion_sort v 0 (List.length v)
  end.

End Libstdcxx.

(** ** The version decoder, in the specification's words *)

Inductive warning :=
| UnknownVersionTag (tag value : N).

Definition message_of_warning (wn : warning) : message :=
  match wn with
  | UnknownVersionTag t v => MsgUnknownVersionType t v
  end.

(** Components are handled left to right; the result is the string built
    and the warnings recorded. *)
Fixpoint decode_components (cs : list (N * N)) : string * list warning :=
  match cs with
  | [] => (EmptyString, [])
  | (t, v) :: cs' =>
      if t =? char "A" then
        let '(s, ws) := decode_components cs' in ((fmt_X v ++ ".") ++ s, ws)%string
      else if t =? char "N" then
        let '(s, ws) := decode_components cs' in ((fmt_d v ++ ".") ++ s, ws)%string
      else if (t =? char " ") || (t =? 0) then
        (EmptyString, [])
      else
        let '(s, ws) := decode_components cs' in (s, UnknownVersionTag t v :: ws)
  end.

Definition placeholder (s : string) : string :=
  match s with
  | EmptyString => "."%string
  | _ => s
  end.

Definition decode_version (cs : list (N * N)) : string * list warning :=
  let '(s, ws) := decode_components cs in (placeholder s, ws).

(** The (tag, value) pairs of a section header at the given indices. *)
Definition components_at (idx : list nat) (hdr : PFS_SECTION_HEADER) : list (N * N) :=
  map (fun i => (nth i (VersionType hdr) 0, nth i (Version hdr) 0)) idx.

Definition components (hdr : PFS_SECTION_HEADER) : list (N * N) :=
  components_at [0; 1; 2; 3]%nat hdr.

(** A section header with the given version components and nothing else. *)
Definition header_with_version (cs : list (ascii * N)) : PFS_SECTION_HEADER :=
  {| Guid1 := []; HeaderVersion := 1;
     VersionType := map (fun c => char (fst c)) cs;
     Version := map snd cs;
     Reserved := 0; DataSize := 0; DataSignatureSize := 0;
     MetadataSize := 0; MetadataSignatureSize := 0; Guid2 := [] |}.

(** ** Reading a run *)

Definition events_of {W A} (r : list event * W * outcome A) : list event :=
  fst (fst r).
Definition state_of {W A} (r : list event * W * outcome A) : W :=
  snd (fst r).
Definition outcome_of {W A} (r : list event * W * outcome A) : outcome A :=
  snd r.

(** The fatal diagnostics, named as the specification names them. *)
Inductive FormatError := TooSmall | BadHeaderMagic | UnsupportedVersion.

Definition error_of (m : message) : option FormatError :=
  match m with
  | MsgInputTooSmall | MsgFileTooSmall => Some TooSmall
  | MsgInvalidHeaderSignature => Some BadHeaderMagic
  | MsgUnknownHeaderVersion _ => Some UnsupportedVersion
  | _ => None
  end.

Fixpoint format_errors (ms : list message) : list FormatError :=
  match ms with
  | [] => []
  | m :: ms' =>
      match error_of m with
      | Some e => e :: format_errors ms'
      | None => format_errors ms'
      end
  end.

(** The check of the validation prologue that fails first, for a buffer
    that fails one of them. *)
Definition first_failure (mem : list byte) (buffer bufferSize : N) : FormatError :=
  if bufferSize <? sizeof_PFS_FILE_HEADER + sizeof_PFS_FILE_FOOTER then TooSmall
  else
    match load mem buffer 8, load mem (buffer + 8) 4 with
    | Some signature, Some version =>
        if negb (signature =? PFS_HEADER_SIGNATURE) then BadHeaderMagic
        else if negb (version =? 1) then UnsupportedVersion
        else TooSmall
    | _, _ => TooSmall
    end.

(** The non-fatal diagnostics about the footer. *)
Definition footer_warnings (dataSize fDataSize fSignature : N) : list message :=
  (if negb (fSignature =? PFS_FOOTER_SIGNATURE) then [MsgInvalidFooterSignature] else [])
  ++ (if negb (fDataSize =? dataSize) then [MsgDataSizeMismatch dataSize fDataSize] else []).



(** The section numbers printed by the passes of one kind. *)
Fixpoint section_numbers (isSubsection : bool) (tr : list event) : list N :=
  match tr with
  | [] => []
  | EvPrint (MsgSectionHeader b n _) :: tr' =>
      if Bool.eqb b isSubsection then n :: section_numbers isSubsection tr'
      else section_numbers isSubsection tr'
  | _ :: tr' => section_numbers isSubsection tr'
  end.

(** ** Specifications of computations *)

(** Every value returned satisfies [P]. *)
Definition returns {W A} (m : M W A) (P : A -> Prop) : Prop :=
  forall w ev w' a, m w = (ev, w', Ret a) -> P a.

(** The computation never runs out of fuel. *)
Definition terminates {W A} (m : M W A) : Prop :=
  forall w, outcome_of (m w) <> OutOfFuel.

(** The computation writes no file and leaves the file system alone. *)
Definition silent {W A} (m : M W A) : Prop :=
  forall w, writes_of (events_of (m w)) = [] /\ state_of (m w) = w.


(** Two computations that agree on every file-system state. *)
Definition equiv {W A} (m1 m2 : M W A) : Prop := forall w, m1 w = m2 w.


(** Every event of the computation passes the test [P]. *)
Definition all_events {W A} (P : event -> bool) (m : M W A) : Prop :=
  forall w, forallb P (events_of (m w)) = true.

(** Anything but the section header line of a normal pass. *)
Definition not_normal_header (e : event) : bool :=
  match e with
  | EvPrint (MsgSectionHeader false _ _) => false
  | _ => true
  end.

(** The numbers of [k] consecutive sections, the first being [first]. *)
Definition numbering (first : N) (k : nat) : list N :=
  map (fun i => (first + N.of_nat i) mod 256) (seq 0 k).

(** Every write the computation attempts satisfies [P]. *)
Definition writes_satisfy {W A} (P : string * list byte -> Prop) (m : M W A) : Prop :=
  forall w, Forall P (writes_of (events_of (m w))).

(** A file named after a section number and version. *)
Definition named_after (sectionNum : N) (version : string) (p : string * list byte) : Prop :=
  exists suffix, fst p = section_filename sectionNum version suffix.

(** Reading a string of digits back, most significant digit first; the
    letters count in upper case only. *)
Definition digit_value (c : ascii) : option N :=
  let n := N_of_ascii c in
  if (48 <=? n) && (n <=? 57) then Some (n - 48)
  else if (65 <=? n) && (n <=? 70) then Some (n - 55)
  else None.

Fixpoint value_of_digits (base : N) (s : string) (acc : N) : option N :=
  match s with
  | EmptyString => Some acc
  | String c s' =>
      match digit_value c with
      | Some d => if d <? base then value_of_digits base s' (base * acc + d) else None
      | None => None
      end
  end.

Definition reads_back (base : N) (s : string) (n : N) : bool :=
  match s with
  | EmptyString => false
  | _ =>
      match value_of_digits base s 0 with
      | Some v => v =? n
      | None => false
      end
  end.

(** The section headers of the normal pass are numbered consecutively from
    [first], modulo 256. *)
Definition numbered {W A} (first : N) (m : M W A) : Prop :=
  forall w, exists k, section_numbers false (events_of (m w)) = numbering first k.

(** The computation writes the file [name] once when it returns 0, and
    no file at all otherwise. *)
Definition emits_only {W} (name : string) (m : M W N) : Prop :=
  forall w,
    (outcome_of (m w) = Ret 0 ->
     exists out, writes_of (events_of (m w)) = [(name, out)])
    /\ (outcome_of (m w) <> Ret 0 -> writes_of (events_of (m w)) = []).

(** Two candidates for the recursive call are interchangeable when the
    pass never recurses, or when they agree on calls with a target name. *)
Definition interchangeable {W} (isSubsection : bool)
    (rec1 rec2 : N -> N -> option string -> M W N) : Prop :=
  isSubsection = true \/ forall p s name, equiv (rec1 p s (Some name)) (rec2 p s (Some name)).

(** ** Sample files *)

Module Samples.
Import Build.

Definition text (s : string) : list byte := bytes_of_string s.

(** The header of the first section of a file, and a block of a file. *)
Definition first_header (mem : list byte) : PFS_SECTION_HEADER :=
  match read_section_header mem 16 with
  | Some hdr => hdr
  | None => header_with_version []
  end.

Definition block (mem : list byte) (off n : N) : list byte :=
  firstn (N.to_nat n) (skipn (N.to_nat off) mem).

Definition chunk (order : N) (payload : string) : PFS_CHUNK :=
  {| data := text payload; orderNum := order |}.

(** One section with all four blocks. *)
Definition four_blocks : list byte :=
  section ["A"; " "; "N"; "A"]%char [2; 0; 10; 5]
    (text "data") (text "sg") (text "meta!") (text "m").

Definition plain_file : list byte := container four_blocks.

(** The same file with a foreign footer magic, and with a footer data size
    that differs from the header's. *)
Definition bad_footer_magic_file : list byte :=
  container_with (size_of four_blocks) four_blocks (size_of four_blocks) "PFS.XXX.".
Definition bad_footer_size_file : list byte :=
  container_with (size_of four_blocks) four_blocks 7 "PFS.FTR.".

(** A data region of 76 bytes holding one section header that declares 8
    bytes of data: the block ends 4 bytes into the footer. *)
Definition overrun_file : list byte :=
  container_with 76 (section_header 8 ++ text "abcd") 76 "PFS.FTR.".

(** A data region of a single byte: no room for a section header. *)
Definition stub_file : list byte :=
  container_with 1 [x00] 1 "PFS.FTR.".

(** 32 bytes with a foreign header magic and a declared data size of 100. *)
Definition bad_magic_short_file : list byte :=
  text "XXXXXXXX" ++ le_encode 4 1 ++ le_encode 4 100 ++ zeros 16.

(** 32 bytes with the right magic, version 2 and a declared data size of 100. *)
Definition bad_version_short_file : list byte :=
  text "PFS.HDR." ++ le_encode 4 2 ++ le_encode 4 100 ++ zeros 16.

(** A well-formed header that declares more data than the file holds. *)
Definition short_file : list byte :=
  text "PFS.HDR." ++ le_encode 4 1 ++ le_encode 4 100 ++ zeros 16.

(** A nested container of three chunks, handed in as (2,"BB"), (0,"AA"),
    (1,"CC"), inside a section of a top-level file. *)
Definition chunked : list byte :=
  container (section [] [] (chunk_block 2 (text "BB")) [] [] []
             ++ section [] [] (chunk_block 0 (text "AA")) [] [] []
             ++ section [] [] (chunk_block 1 (text "CC")) [] [] []).
Definition chunked_file : list byte :=
  container (section [] [] chunked [] [] []).

(** Two chunks with the same order number. *)
Definition tied : list byte :=
  container (section [] [] (chunk_block 1 (text "A")) [] [] []
             ++ section [] [] (chunk_block 1 (text "B")) [] [] []).
Definition tied_file : list byte :=
  container (section [] [] tied [] [] []).

(** A nested container whose first section has a data signature. *)
Definition nested_signed : list byte :=
  container (section ["N"]%char [7] (chunk_block 1 (text "BB")) (text "sg") [] []
             ++ section [] [] (chunk_block 0 (text "AA")) [] [] []).
Definition nested_signed_file : list byte :=
  container (section ["A"; "N"; "X"; "A"]%char [255; 10; 0; 1]
               nested_signed (text "SG") [] []).

(** A section whose data is the header magic and nothing more. *)
Definition magic_only_file : list byte :=
  container (section [] [] (text "PFS.HDR.") [] [] []).

(** Containers nested [k] deep around a block of 0x300 zero bytes. *)
Fixpoint nest (k : nat) : list byte :=
  match k with
  | O => container (section [] [] (zeros 768) [] [] [])
  | S k' => container (section [] [] (nest k') [] [] [])
  end.

(** [n] sections of one data byte each, the byte being the section's
    position modulo 256 plus the position divided by 256. *)
Definition numbered_sections (n : nat) : list byte :=
  List.concat
    (map (fun i : nat =>
            section [] [] (le_encode 1 (N.of_nat (Nat.modulo i 256 + Nat.div i 256))) [] [] [])
       (seq 0 n)).
Definition long_file : list byte := container (numbered_sections 257).

End Samples.

(** Seventeen chunks, all with the order number 1, that carry the
    letters A to Q in this order; the nested container that holds them
    and a file around it. *)
Definition letters17 : list string :=
  ["A"; "B"; "C"; "D"; "E"; "F"; "G"; "H"; "I"; "J"; "K"; "L"; "M"; "N"; "O"; "P"; "Q"]%string.

Definition tied17_chunks : list PFS_CHUNK := map (Samples.chunk 1) letters17.

Definition tied17 : list byte :=
  Build.container
    (List.concat
       (map (fun s => Build.section [] [] (Build.chunk_block 1 (Samples.text s)) [] [] [])
          letters17)).

Definition tied17_file : list byte :=
  Build.container (Build.section [] [] tied17 [] [] []).

(** The data of the one section of [Samples.nest k]. *)
Definition nest_data (k : nat) : list byte :=
  match k with
  | O => Build.zeros 768
  | S k' => Samples.nest k'
  end.

(** ** What the callers and helpers of the claims' code are measured by *)

(** The four checks of the validation prologue, all passed. *)
Definition valid_container (mem : list byte) (buffer bufferSize : N) : bool :=
  negb (bufferSize <? sizeof_PFS_FILE_HEADER + sizeof_PFS_FILE_FOOTER)
  && match load mem buffer 8, load mem (buffer + 8) 4, load mem (buffer + 12) 4 with
     | Some signature, Some version, Some dataSize =>
         (signature =? PFS_HEADER_SIGNATURE) && (version =? 1)
         && negb (bufferSize <? sizeof_PFS_FILE_HEADER + dataSize + sizeof_PFS_FILE_FOOTER)
     | _, _, _ => false
     end.

(** The five endings of the file names of a section. *)
Definition section_suffixes : list string :=
  ["data"; "payload"; "sign"; "meta"; "mtsg"]%string.

(** The characters of a plain file name: digits, letters, underscore and
    dot, so neither a path separator nor a drive colon. *)
Definition name_char (c : ascii) : bool :=
  let n := N_of_ascii c in
  ((48 <=? n) && (n <=? 57)) || ((65 <=? n) && (n <=? 90))
  || ((97 <=? n) && (n <=? 122)) || (n =? 95) || (n =? 46).

Definition plain_name (s : string) : bool :=
  forallb name_char (list_ascii_of_string s).

(** A file of a section: [section_<number>_<version><suffix>], with an
    8-bit number, a version of at most 24 plain characters that ends in a
    dot, and one of the five endings. *)
Definition section_file (p : string * list byte) : Prop :=
  exists sectionNum version suffix,
    sectionNum < 256
    /\ (String.length version <= 24)%nat
    /\ (exists s, version = (s ++ ".")%string)
    /\ plain_name version = true
    /\ In suffix section_suffixes
    /\ fst p = section_filename sectionNum version suffix.

(** Sizes of the local buffers of [pfs_extract], terminator included. *)
Definition sizeof_version_buffer : nat := 30.
Definition sizeof_filename_buffer : nat := 240.
Definition sizeof_hex_component : nat := 6.
Definition sizeof_decimal_component : nat := 7.

(** Further sample files: a container without sections, and a nested
    container whose only section has 16 bytes of data, fewer than the
    0x248 bytes that a chunk carries in front of its payload. *)
Definition empty_file : list byte := Build.container [].

Definition short_chunk_file : list byte :=
  Build.container
    (Build.section [] []
       (Build.container (Build.section [] [] (Build.zeros 16) [] [] [])) [] [] []).

(** The header of the section of the nested container of that file. *)
Definition short_chunk_header : PFS_SECTION_HEADER :=
  match read_section_header short_chunk_file 104 with
  | Some hdr => hdr
  | None => header_with_version []
  end.


(** ** [guid_to_string] *)

Record EFI_GUID := mkGuid {
  Data1 : N;
  Data2 : N;
  Data3 : N;
  Data4 : list N
}.

(** The structure laid over the 16 bytes of a GUID field. *)
Definition guid_of_bytes (bs : list byte) : EFI_GUID :=
  {| Data1 := le_decode (firstn 4 bs);
     Data2 := le_decode (firstn 2 (skipn 4 bs));
     Data3 := le_decode (firstn 2 (skipn 6 bs));
     Data4 := map Byte.to_N (firstn 8 (skipn 8 bs)) |}.

Fixpoint zeros_string (n : nat) : string :=
  match n with
  | O => EmptyString
  | S n' => String "0" (zeros_string n')
  end.

(** [%0<width>X]. *)
Definition fmt_0X (width : nat) (n : N) : string :=
  (zeros_string (width - String.length (fmt_X n)) ++ fmt_X n)%string.

(** [guid_to_string]; [None] is the null pointer. *)
Definition guid_to_string (guid : option EFI_GUID) : string :=
  match guid with
  | None => EmptyString
  | Some g =>
      let b i := fmt_0X 2 (nth i (Data4 g) 0) in
      (fmt_0X 8 (Data1 g) ++ "-" ++ fmt_0X 4 (Data2 g) ++ "-" ++ fmt_0X 4 (Data3 g) ++ "-"
       ++ b 0%nat ++ b 1%nat ++ "-"
       ++ b 2%nat ++ b 3%nat ++ b 4%nat ++ b 5%nat ++ b 6%nat ++ b 7%nat)%string
  end.

(** The size of the buffer that [guid_to_string] allocates. *)
Definition sizeof_guid_string : nat := 37.

(** The value of the hexadecimal digits of a string from [n], [m] of them. *)
Definition hex_at (n m : nat) (s : string) : option N :=
  value_of_digits 16 (substring n m s) 0.


(** ** [main]

    What [main] asks of the platform: the command line, opening and
    reading the input file, allocating the buffer, and the two directory
    calls [makeDirectory] and [changeDirectory], which act on the file
    system and tell whether they succeeded. *)

Inductive main_message :=
| MsgUsage
| MsgCantOpenInput
| MsgCantAllocate
| MsgCantReadInput
| MsgCantCreateDirectory
| MsgCantChangeDirectory.

Inductive main_event :=
| EvMainPrint (m : main_message)
| EvMakeDirectory (dir : string) (ok : bool)
| EvChangeDirectory (dir : string) (ok : bool)
| EvExtract (e : event).

Record platform (W : Type) := {
  (* [fopen(path, "rb")]: the contents of the file, if it can be opened *)
  fopen_rb : W -> string -> option (list byte);
  (* [malloc(size)] returns a buffer *)
  malloc : N -> bool;
  (* [fread]: the number of bytes read out of those of the file *)
  fread : list byte -> N;
  makeDirectory : W -> string -> W * bool;
  changeDirectory : W -> string -> W * bool
}.
Arguments fopen_rb {W} p w path.
Arguments malloc {W} p size.
Arguments fread {W} p contents.
Arguments makeDirectory {W} p w dir.
Arguments changeDirectory {W} p w dir.

(** [char directory[240]]. *)
Definition sizeof_directory : nat := 240.

(** The events of the extraction, as events of [main]. *)
Definition extraction_events (evs : list main_event) : list event :=
  flat_map (fun e => match e with EvExtract e' => [e'] | _ => [] end) evs.

Section Main.

Context {W : Type}.
Variable pf : platform W.
Variable sink : W -> string -> list byte -> W * io_result.
Variable std_sort : list PFS_CHUNK -> list PFS_CHUNK.

(** [main]; [argv] holds [argc] strings.  The two [strcat] into
    [directory] write past its end when the name with its terminator
    takes more than 240 bytes. *)
Definition main (argv : list string) (w : W) : list main_event * W * outcome N :=
  match argv with
  | [_; path] =>
      match fopen_rb pf w path with
      | None => ([EvMainPrint MsgCantOpenInput], w, Ret 2)
      | Some contents =>
          let filesize := N.of_nat (List.length contents) in
          if negb (malloc pf filesize) then
            ([EvMainPrint MsgCantAllocate], w, Ret 3)
          else if negb (fread pf contents =? filesize) then
            ([EvMainPrint MsgCantReadInput], w, Ret 4)
          else
            let directory := (path ++ ".extracted")%string in
            if (sizeof_directory <=? String.length directory)%nat then
              ([], w, Undefined)
            else
              let '(w1, made) := makeDirectory pf w directory in
              if negb made then
                ([EvMakeDirectory directory false; EvMainPrint MsgCantCreateDirectory],
                 w1, Ret 5)
              else
                let '(w2, changed) := changeDirectory pf w1 directory in
                if negb changed then
                  ([EvMakeDirectory directory true; EvChangeDirectory directory false;
                    EvMainPrint MsgCantChangeDirectory], w2, Ret 6)
                else
                  let '(evs, w3, r) :=
                    pfs_extract sink std_sort contents (S (List.length contents))
                      0 filesize None w2 in
                  ([EvMakeDirectory directory true; EvChangeDirectory directory true]
                   ++ map EvExtract evs, w3, r)
      end
  | _ => ([EvMainPrint MsgUsage], w, Ret 1)
  end.

End Main.

Arguments main {W} pf sink std_sort argv w.

(** The parts of a run of [main]. *)
Definition main_events {W} (r : list main_event * W * outcome N) : list main_event :=
  fst (fst r).
Definition main_state {W} (r : list main_event * W * outcome N) : W := snd (fst r).
Definition exit_status {W} (r : list main_event * W * outcome N) : outcome N := snd r.


(** ** A container, written out

    The layout of the packed structures of the source, from the values to
    the bytes, and what a well-formed file is expected to give. *)

(** The buffer holds [bs] from offset [off] on. *)
Definition stored (mem : list byte) (off : N) (bs : list byte) : Prop :=
  exists pre post, mem = pre ++ bs ++ post /\ off = N.of_nat (List.length pre).

Definition byte_of_N (n : N) : byte :=
  match Byte.of_N n with
  | Some b => b
  | None => x00
  end.

(** [PFS_SECTION_HEADER], packed. *)
Definition encode_section_header (hdr : PFS_SECTION_HEADER) : list byte :=
  Guid1 hdr
  ++ Build.le_encode 4 (HeaderVersion hdr)
  ++ map byte_of_N (VersionType hdr)
  ++ List.concat (map (Build.le_encode 2) (Version hdr))
  ++ Build.le_encode 8 (Reserved hdr)
  ++ Build.le_encode 4 (DataSize hdr)
  ++ Build.le_encode 4 (DataSignatureSize hdr)
  ++ Build.le_encode 4 (MetadataSize hdr)
  ++ Build.le_encode 4 (MetadataSignatureSize hdr)
  ++ Guid2 hdr.

(** The values of a header fit the types of its fields. *)
Definition header_fits (hdr : PFS_SECTION_HEADER) : bool :=
  (List.length (Guid1 hdr) =? 16)%nat
  && (HeaderVersion hdr <? 2 ^ 32)
  && (List.length (VersionType hdr) =? 4)%nat
  && forallb (fun t => t <? 2 ^ 8) (VersionType hdr)
  && (List.length (Version hdr) =? 4)%nat
  && forallb (fun v => v <? 2 ^ 16) (Version hdr)
  && (Reserved hdr <? 2 ^ 64)
  && (DataSize hdr <? 2 ^ 32)
  && (DataSignatureSize hdr <? 2 ^ 32)
  && (MetadataSize hdr <? 2 ^ 32)
  && (MetadataSignatureSize hdr <? 2 ^ 32)
  && (List.length (Guid2 hdr) =? 16)%nat.

(** A section: its header and its four blocks. *)
Record PFS_SECTION := mkSection {
  Header : PFS_SECTION_HEADER;
  Data : list byte;
  DataSignature : list byte;
  Metadata : list byte;
  MetadataSignature : list byte
}.

(** The header fits its fields and declares the sizes of the blocks. *)
Definition section_fits (s : PFS_SECTION) : bool :=
  header_fits (Header s)
  && (DataSize (Header s) =? Build.size_of (Data s))
  && (DataSignatureSize (Header s) =? Build.size_of (DataSignature s))
  && (MetadataSize (Header s) =? Build.size_of (Metadata s))
  && (MetadataSignatureSize (Header s) =? Build.size_of (MetadataSignature s)).

Definition encode_section (s : PFS_SECTION) : list byte :=
  encode_section_header (Header s)
  ++ Data s ++ DataSignature s ++ Metadata s ++ MetadataSignature s.

Definition encode_sections (secs : list PFS_SECTION) : list byte :=
  flat_map encode_section secs.

Fixpoint bytes_eqb (a b : list byte) : bool :=
  match a, b with
  | [], [] => true
  | x :: a', y :: b' => Byte.eqb x y && bytes_eqb a' b'
  | _, _ => false
  end.

(** The data begins as a container does: with the header magic, or with
    as much of it as the data has bytes. *)
Definition begins_container (d : list byte) : bool :=
  bytes_eqb (firstn 8 d) (firstn (List.length d) (bytes_of_string "PFS.HDR.")).

(** The chunk that a subsection pass takes from the data of a section. *)
Definition chunk_of (d : list byte) : PFS_CHUNK :=
  {| data := skipn 0x248 d; orderNum := le_decode (firstn 2 (skipn 0x3E d)) |}.

Definition chunks_of (secs : list PFS_SECTION) : list PFS_CHUNK :=
  flat_map (fun s => match Data s with
                     | [] => []
                     | d => [chunk_of d]
                     end) secs.

(** A section of a nested container: its data, if any, has the 0x248
    bytes that come in front of the payload of a chunk. *)
Definition chunk_fits (s : PFS_SECTION) : bool :=
  section_fits s
  && match Data s with
     | [] => true
     | d => 0x248 <=? Build.size_of d
     end.

(** A section of a file together with what its data is: opaque bytes
    ([Chunks] is [None]), or a nested container of the given sections. *)
Record PFS_ENTRY := mkEntry {
  Raw : PFS_SECTION;
  Chunks : option (list PFS_SECTION)
}.

Definition entry_fits (e : PFS_ENTRY) : bool :=
  section_fits (Raw e)
  && match Chunks e with
     | None => negb (begins_container (Data (Raw e)))
               || match Data (Raw e) with [] => true | _ => false end
     | Some cs =>
         bytes_eqb (Data (Raw e)) (Build.container (encode_sections cs))
         && forallb chunk_fits cs
     end.

(** The version string of a section, as it enters the file names. *)
Definition version_of (hdr : PFS_SECTION_HEADER) : string :=
  fst (decode_version (components hdr)).

(** The file of a block, if the block has bytes. *)
Definition block_file (sectionNum : N) (version suffix : string) (bs : list byte)
  : list (string * list byte) :=
  match bs with
  | [] => []
  | _ => [(section_filename sectionNum version suffix, bs)]
  end.

Section Expected.

Variable std_sort : list PFS_CHUNK -> list PFS_CHUNK.

(** The files of one section, in the order they are written. *)
Definition files_of_entry (sectionNum : N) (e : PFS_ENTRY) : list (string * list byte) :=
  let v := version_of (Header (Raw e)) in
  block_file sectionNum v "data" (Data (Raw e))
  ++ match Chunks e with
     | Some cs =>
         [(section_filename sectionNum v "payload",
           List.concat (map data (std_sort (chunks_of cs))))]
     | None => []
     end
  ++ block_file sectionNum v "sign" (DataSignature (Raw e))
  ++ block_file sectionNum v "meta" (Metadata (Raw e))
  ++ block_file sectionNum v "mtsg" (MetadataSignature (Raw e)).

Fixpoint expected_files (sectionNum : N) (es : list PFS_ENTRY) : list (string * list byte) :=
  match es with
  | [] => []
  | e :: es' => files_of_entry sectionNum e ++ expected_files (next_sectionNum sectionNum) es'
  end.

End Expected.

(** The computation returns [a] and writes the files [files], in this
    order, whatever the file system answers. *)
Definition performs {W A} (m : M W A) (files : list (string * list byte)) (a : A) : Prop :=
  forall w, outcome_of (m w) = Ret a /\ writes_of (events_of (m w)) = files.

(** A section with zero GUIDs and the sizes of its blocks, to write
    sample files with. *)
Definition section_of (types versions : list N) (d ds m ms : list byte) : PFS_SECTION :=
  {| Header := {| Guid1 := Build.zeros 16;
                  HeaderVersion := 1;
                  VersionType := types;
                  Version := versions;
                  Reserved := 0;
                  DataSize := Build.size_of d;
                  DataSignatureSize := Build.size_of ds;
                  MetadataSize := Build.size_of m;
                  MetadataSignatureSize := Build.size_of ms;
                  Guid2 := Build.zeros 16 |};
     Data := d;
     DataSignature := ds;
     Metadata := m;
     MetadataSignature := ms |}.

(** Two chunks, handed in as (2,"BB"), (1,"AA"), and a file of two
    sections: one with a version and opaque data, one that holds the
    nested container of the two chunks. *)
Definition sample_chunks : list PFS_SECTION :=
  [ section_of [0; 0; 0; 0] [0; 0; 0; 0]
      (Build.chunk_block 2 (Samples.text "BB")) [] [] [];
    section_of [0; 0; 0; 0] [0; 0; 0; 0]
      (Build.chunk_block 1 (Samples.text "AA")) [] [] [] ].

Definition sample_entries : list PFS_ENTRY :=
  [ {| Raw := section_of [char "A"; char "N"; 0; 0] [255; 10; 0; 0]
                (Samples.text "hello") (Samples.text "sg") [] (Samples.text "ms");
       Chunks := None |};
    {| Raw := section_of [0; 0; 0; 0] [0; 0; 0; 0]
                (Build.container (encode_sections sample_chunks)) []
                (Samples.text "meta") [];
       Chunks := Some sample_chunks |} ].

(** * Properties *)

(** ** Running computations *)

Lemma bind_ret_l {W A B} (a : A) (k : A -> M W B) (w : W) :
  bind (ret a) k w = k a w.
Proof.
  unfold bind, ret. destruct (k a w) as [[ev w'] o]. reflexivity.
Qed.

Lemma bind_print {W B} (m : message) (k : unit -> M W B) (w : W) :
  bind (print m) k w =
  (EvPrint m :: events_of (k tt w), state_of (k tt w), outcome_of (k tt w)).
Proof.
  unfold bind, print. destruct (k tt w) as [[ev w'] o]. reflexivity.
Qed.

Lemma bind_undefined {W A B} (k : A -> M W B) (w : W) :
  bind undefined k w = ([], w, Undefined).
Proof. reflexivity. Qed.

Lemma bind_run {W A B} (m : M W A) (k : A -> M W B) (w : W) ev w' a :
  m w = (ev, w', Ret a) ->
  bind m k w = (ev ++ events_of (k a w'), state_of (k a w'), outcome_of (k a w')).
Proof.
  intros H. unfold bind. rewrite H. destruct (k a w') as [[ev' w''] o]. reflexivity.
Qed.

Lemma bind_stop {W A B} (m : M W A) (k : A -> M W B) (w : W) ev w' :
  m w = (ev, w', Undefined) -> bind m k w = (ev, w', Undefined).
Proof. intros H. unfold bind. rewrite H. reflexivity. Qed.

Lemma run_eta {W A} (r : list event * W * outcome A) :
  r = (events_of r, state_of r, outcome_of r).
Proof. destruct r as [[ev w] o]. reflexivity. Qed.

(** ** Version decoding *)

Lemma append_assoc (a b c : string) :
  ((a ++ b) ++ c = a ++ (b ++ c))%string.
Proof. induction a as [|x a IH]; simpl; [reflexivity | now rewrite IH]. Qed.

Lemma append_nil_r (a : string) : (a ++ "")%string = a.
Proof. induction a as [|x a IH]; simpl; [reflexivity | now rewrite IH]. Qed.

Lemma version_loop_decode {W} (idx : list nat) (hdr : PFS_SECTION_HEADER)
    (acc : string) (w : W) :
  version_loop idx hdr acc w =
  (map (fun wn => EvPrint (message_of_warning wn))
     (snd (decode_components (components_at idx hdr))),
   w,
   Ret (acc ++ fst (decode_components (components_at idx hdr)))%string).
Proof.
  revert acc. induction idx as [|i idx IH]; intros acc; simpl.
  - now rewrite append_nil_r.
  - destruct (nth i (VersionType hdr) 0 =? char "A").
    { rewrite IH. destruct (decode_components (components_at idx hdr)) as [s ws].
      simpl. now rewrite !append_assoc. }
    destruct (nth i (VersionType hdr) 0 =? char "N").
    { rewrite IH. destruct (decode_components (components_at idx hdr)) as [s ws].
      simpl. now rewrite !append_assoc. }
    destruct ((nth i (VersionType hdr) 0 =? char " ") || (nth i (VersionType hdr) 0 =? 0)).
    { simpl. now rewrite append_nil_r. }
    rewrite bind_print, IH.
    destruct (decode_components (components_at idx hdr)) as [s ws]. reflexivity.
Qed.

Lemma writes_of_app (a b : list event) :
  writes_of (a ++ b) = writes_of a ++ writes_of b.
Proof.
  induction a as [|e a IH]; simpl; [reflexivity|].
  destruct e; simpl; now rewrite IH.
Qed.

Lemma messages_of_app (a b : list event) :
  messages_of (a ++ b) = messages_of a ++ messages_of b.
Proof.
  induction a as [|e a IH]; simpl; [reflexivity|].
  destruct e; simpl; now rewrite IH.
Qed.

Lemma writes_of_warnings (ws : list warning) :
  writes_of (map (fun wn => EvPrint (message_of_warning wn)) ws) = [].
Proof. induction ws; simpl; auto. Qed.

Lemma messages_of_warnings (ws : list warning) :
  messages_of (map (fun wn => EvPrint (message_of_warning wn)) ws)
  = map message_of_warning ws.
Proof. induction ws; simpl; congruence. Qed.

Lemma filter_warnings (ws : list warning) :
  filter (fun m => match m with MsgUnknownVersionType _ _ => true | _ => false end)
    (map message_of_warning ws) = map message_of_warning ws.
Proof.
  induction ws as [|[t v] ws IH]; simpl; [reflexivity | now rewrite IH].
Qed.

Lemma show_version_run {W} (hdr : PFS_SECTION_HEADER) (w : W) :
  show_version hdr w =
  (map (fun wn => EvPrint (message_of_warning wn))
     (snd (decode_components (components hdr)))
   ++ match fst (decode_components (components hdr)) with
      | EmptyString => []
      | s => [EvPrint (MsgVersion s)]
      end,
   w,
   Ret (placeholder (fst (decode_components (components hdr))))).
Proof.
  unfold show_version.
  rewrite (bind_run _ _ _ _ _ _ (version_loop_decode _ hdr "" w)).
  fold (components hdr). simpl append.
  destruct (fst (decode_components (components hdr))); reflexivity.
Qed.

(** The two conversions give digits that read back as the value: upper-case
    hexadecimal for [%X], decimal for [%d]. *)
Lemma digit_value_digit_char (d : N) :
  d < 16 -> digit_value (digit_char d) = Some d.
Proof.
  intros H. destruct d as [|p]; [reflexivity|].
  do 4 (destruct p as [p|p|]; try reflexivity; try (exfalso; lia)).
Qed.

Lemma value_of_to_digits (base : N) (fuel : nat) :
  2 <= base -> base <= 16 ->
  forall n acc,
    n < 2 ^ N.of_nat fuel ->
    value_of_digits base (to_digits fuel base n acc) 0 = value_of_digits base acc n.
Proof.
  intros Hlo Hhi. induction fuel as [|fuel IH]; intros n acc Hn.
  - cbn in Hn. assert (n = 0) by lia. now subst.
  - assert (Hmod : n mod base < base) by (apply N.mod_lt; lia).
    assert (Hdiv : n = base * (n / base) + n mod base) by (apply N.div_mod; lia).
    cbn [to_digits]. destruct (N.eqb_spec (n / base) 0) as [Hz|Hnz].
    + cbn [value_of_digits]. rewrite digit_value_digit_char by lia.
      replace (n mod base <? base) with true by (symmetry; now apply N.ltb_lt).
      f_equal. rewrite Hz in Hdiv. lia.
    + rewrite IH.
      * cbn [value_of_digits]. rewrite digit_value_digit_char by lia.
        replace (n mod base <? base) with true by (symmetry; now apply N.ltb_lt).
        f_equal. lia.
      * rewrite Nat2N.inj_succ, N.pow_succ_r' in Hn.
        apply N.Div0.div_lt_upper_bound. nia.
Qed.

Lemma to_digits_cons (base : N) (fuel : nat) :
  forall n c s, exists c' s', to_digits fuel base n (String c s) = String c' s'.
Proof.
  induction fuel as [|fuel IH]; intros n c s; cbn [to_digits]; [eauto|].
  destruct (n / base =? 0); [eauto | apply IH].
Qed.

Lemma to_digits_reads_back (base : N) (n : N) :
  2 <= base -> base <= 16 ->
  reads_back base (to_digits (S (N.to_nat (N.size n))) base n "") n = true.
Proof.
  intros Hlo Hhi.
  assert (Hv : value_of_digits base (to_digits (S (N.to_nat (N.size n))) base n "") 0
               = Some n).
  { rewrite value_of_to_digits; [reflexivity | assumption..|].
    rewrite Nat2N.inj_succ, N2Nat.id, N.pow_succ_r'.
    pose proof (N.size_gt n). lia. }
  unfold reads_back. rewrite Hv, N.eqb_refl.
  cbn [to_digits] in *. destruct (n / base =? 0); [reflexivity|].
  destruct (to_digits_cons base (N.to_nat (N.size n)) (n / base)
              (digit_char (n mod base)) "") as (c' & s' & ->).
  reflexivity.
Qed.

Lemma fmt_reads_back (n : N) :
  reads_back 16 (fmt_X n) n = true /\ reads_back 10 (fmt_d n) n = true.
Proof. split; apply to_digits_reads_back; lia. Qed.

(** C3. The decoder of the source agrees with the decoder described in
    words: the four (tag, value) components are handled left to right,
    'A' appends the uppercase hexadecimal of the value and a dot, 'N' the
    decimal and a dot, a space or zero tag stops the loop without any
    diagnostic, any other tag is reported and skipped, and an empty result
    is replaced by the placeholder ".".  The two sample version arrays
    decode to "2." and "2.10.". *)
Theorem version_decoder_correct :
  (forall (W : Type) (hdr : PFS_SECTION_HEADER) (w : W),
      outcome_of (show_version hdr w) = Ret (fst (decode_version (components hdr)))
      /\ state_of (show_version hdr w) = w
      /\ writes_of (events_of (show_version hdr w)) = []
      /\ filter (fun m => match m with MsgUnknownVersionType _ _ => true | _ => false end)
           (messages_of (events_of (show_version hdr w)))
         = map message_of_warning (snd (decode_version (components hdr))))
  /\ (forall v cs, decode_components ((char "A", v) :: cs)
                   = ((fmt_X v ++ ".") ++ fst (decode_components cs),
                      snd (decode_components cs))%string)
  /\ (forall v cs, decode_components ((char "N", v) :: cs)
                   = ((fmt_d v ++ ".") ++ fst (decode_components cs),
                      snd (decode_components cs))%string)
  /\ (forall v cs, decode_components ((char " ", v) :: cs) = (EmptyString, [])
                   /\ decode_components ((0, v) :: cs) = (EmptyString, []))
  /\ (forall t v cs,
         t <> char "A" -> t <> char "N" -> t <> char " " -> t <> 0 ->
         decode_components ((t, v) :: cs)
         = (fst (decode_components cs), UnknownVersionTag t v :: snd (decode_components cs)))
  /\ (forall v, reads_back 16 (fmt_X v) v = true /\ reads_back 10 (fmt_d v) v = true)
  /\ fmt_X 0xBEEF = "BEEF"%string /\ fmt_d 0xBEEF = "48879"%string
  /\ decode_version [] = ("."%string, [])
  /\ (forall (w : unit),
         show_version (header_with_version
                         [("A", 2); (" ", 0); ("N", 10); ("A", 5)]%char) w
         = ([EvPrint (MsgVersion "2.")], w, Ret "2."%string))
  /\ (forall (w : unit),
         show_version (header_with_version
                         [("A", 0x2); ("N", 10); (zero, 0); ("A", 1)]%char) w
         = ([EvPrint (MsgVersion "2.10.")], w, Ret "2.10."%string)).
Proof.
  split.
  { intros W hdr w. rewrite show_version_run. unfold decode_version, components.
    destruct (decode_components (components_at [0; 1; 2; 3]%nat hdr)) as [s ws].
    cbn [fst snd events_of state_of outcome_of].
    repeat split.
    - rewrite writes_of_app, writes_of_warnings. now destruct s.
    - rewrite messages_of_app, messages_of_warnings, filter_app.
      rewrite filter_warnings. destruct s; simpl; now rewrite app_nil_r. }
  split.
  { intros v cs. cbn [decode_components]. rewrite N.eqb_refl.
    now destruct (decode_components cs). }
  split.
  { intros v cs. cbn [decode_components].
    replace (char "N" =? char "A") with false by reflexivity.
    rewrite N.eqb_refl. now destruct (decode_components cs). }
  split.
  { intros v cs. split; reflexivity. }
  split.
  { intros t v cs HA HN HS H0. cbn [decode_components].
    apply N.eqb_neq in HA, HN, HS, H0. rewrite HA, HN, HS, H0. simpl.
    now destruct (decode_components cs). }
  split; [apply fmt_reads_back|].
  repeat split; reflexivity.
Qed.

Lemma version_decoder_correct_witness :
  char "X" <> char "A" /\ char "X" <> char "N" /\ char "X" <> char " " /\ char "X" <> 0
  /\ decode_components [(char "X", 7); (char "N", 3)]
     = ("3."%string, [UnknownVersionTag (char "X") 7]).
Proof.
  assert (HA : char "X" <> char "A") by (vm_compute; discriminate).
  assert (HN : char "X" <> char "N") by (vm_compute; discriminate).
  assert (HS : char "X" <> char " ") by (vm_compute; discriminate).
  assert (H0 : char "X" <> 0) by (vm_compute; discriminate).
  repeat (split; [assumption|]).
  destruct version_decoder_correct as (_ & _ & _ & _ & H & _).
  rewrite (H (char "X") 7 [(char "N", 3)] HA HN HS H0). reflexivity.
Defined.

(** ** Reasoning about computations *)

Ltac unfold_run :=
  unfold events_of, state_of, outcome_of in *; cbn [fst snd] in *.

Lemma bind_inv {W A B} (m : M W A) (k : A -> M W B) w ev w' b :
  bind m k w = (ev, w', Ret b) ->
  exists ev1 w1 a ev2,
    m w = (ev1, w1, Ret a) /\ k a w1 = (ev2, w', Ret b) /\ ev = ev1 ++ ev2.
Proof.
  unfold bind. destruct (m w) as [[ev1 w1] [a| |]]; try discriminate.
  destruct (k a w1) as [[ev2 w2] o] eqn:Hk. intros H. inversion H; subst.
  exists ev1, w1, a, ev2. auto.
Qed.

Lemma returns_ret {W A} (a : A) (P : A -> Prop) : P a -> returns (@ret W A a) P.
Proof. intros H w ev w' a' E. inversion E; subst. exact H. Qed.

Lemma returns_bind {W A B} (m : M W A) (k : A -> M W B) (P : A -> Prop) (Q : B -> Prop) :
  returns m P -> (forall a, P a -> returns (k a) Q) -> returns (bind m k) Q.
Proof.
  intros Hm Hk w ev w' b E.
  apply bind_inv in E as (ev1 & w1 & a & ev2 & E1 & E2 & _).
  exact (Hk a (Hm _ _ _ _ E1) _ _ _ _ E2).
Qed.

Lemma returns_any {W A} (m : M W A) : returns m (fun _ => True).
Proof. intros w ev w' a _. exact I. Qed.

Lemma returns_weaken {W A} (m : M W A) (P Q : A -> Prop) :
  returns m P -> (forall a, P a -> Q a) -> returns m Q.
Proof. intros H HPQ w ev w' a E. eauto. Qed.

Lemma returns_lift_option {W A} (o : option A) (P : A -> Prop) :
  (forall a, o = Some a -> P a) -> returns (@lift_option W A o) P.
Proof.
  intros H w ev w' a E. destruct o; [|discriminate].
  inversion E; subst. auto.
Qed.

Lemma terminates_ret {W A} (a : A) : terminates (@ret W A a).
Proof. intros w. discriminate. Qed.

Lemma terminates_print {W} (m : message) : terminates (@print W m).
Proof. intros w. discriminate. Qed.

Lemma terminates_lift_option {W A} (o : option A) : terminates (@lift_option W A o).
Proof. intros w. destruct o; discriminate. Qed.

Lemma terminates_undefined {W A} : terminates (@undefined W A).
Proof. intros w. discriminate. Qed.

Lemma terminates_bind {W A B} (m : M W A) (k : A -> M W B) (P : A -> Prop) :
  terminates m -> returns m P -> (forall a, P a -> terminates (k a)) ->
  terminates (bind m k).
Proof.
  intros Hm HP Hk w. specialize (Hm w). unfold bind.
  destruct (m w) as [[ev1 w1] [a| |]] eqn:E; unfold_run; try congruence.
  specialize (Hk a (HP _ _ _ _ E) w1).
  destruct (k a w1) as [[ev2 w2] o]. exact Hk.
Qed.

Lemma terminates_when {W} (b : bool) (m : M W unit) :
  terminates m -> terminates (when b m).
Proof. destruct b; [auto | intros _; apply terminates_ret]. Qed.

Lemma silent_ret {W A} (a : A) : silent (@ret W A a).
Proof. intros w. split; reflexivity. Qed.

Lemma silent_print {W} (m : message) : silent (@print W m).
Proof. intros w. split; reflexivity. Qed.

Lemma silent_lift_option {W A} (o : option A) : silent (@lift_option W A o).
Proof. intros w. destruct o; split; reflexivity. Qed.

Lemma silent_undefined {W A} : silent (@undefined W A).
Proof. intros w. split; reflexivity. Qed.

Lemma silent_bind {W A B} (m : M W A) (k : A -> M W B) :
  silent m -> (forall a, silent (k a)) -> silent (bind m k).
Proof.
  intros Hm Hk w. destruct (Hm w) as [Hw Hs]. unfold bind.
  destruct (m w) as [[ev1 w1] [a| |]]; unfold_run; auto.
  destruct (Hk a w1) as [Hw' Hs'].
  destruct (k a w1) as [[ev2 w2] o]. unfold_run.
  rewrite writes_of_app, Hw, Hw'. split; [reflexivity | congruence].
Qed.

Lemma silent_when {W} (b : bool) (m : M W unit) : silent m -> silent (when b m).
Proof. destruct b; [auto | intros _; apply silent_ret]. Qed.

Lemma equiv_refl {W A} (m : M W A) : equiv m m.
Proof. intros w. reflexivity. Qed.

Lemma equiv_bind {W A B} (m1 m2 : M W A) (k1 k2 : A -> M W B) :
  equiv m1 m2 -> (forall a, equiv (k1 a) (k2 a)) -> equiv (bind m1 k1) (bind m2 k2).
Proof.
  intros Hm Hk w. unfold bind. rewrite (Hm w).
  destruct (m2 w) as [[ev1 w1] [a| |]]; auto. now rewrite (Hk a w1).
Qed.









(** ** Bounds of loaded values *)

Lemma le_decode_bound (bs : list byte) :
  le_decode bs < 256 ^ N.of_nat (List.length bs).
Proof.
  induction bs as [|b bs IH].
  - simpl. lia.
  - cbn [le_decode fold_right List.length]. fold (le_decode bs).
    rewrite Nat2N.inj_succ, N.pow_succ_r by lia.
    pose proof (Byte.to_N_bounded b). lia.
Qed.

Lemma span_some (mem : list byte) (off n : N) :
  off + n <= N.of_nat (List.length mem) ->
  span mem off n = Some (firstn (N.to_nat n) (skipn (N.to_nat off) mem)).
Proof.
  intros H. unfold span. apply N.leb_le in H. now rewrite H.
Qed.

Lemma span_inv (mem : list byte) (off n : N) (bs : list byte) :
  span mem off n = Some bs ->
  off + n <= N.of_nat (List.length mem) /\ List.length bs = N.to_nat n.
Proof.
  unfold span. destruct (off + n <=? N.of_nat (List.length mem)) eqn:E; [|discriminate].
  apply N.leb_le in E. intros H. inversion H; subst. split; [assumption|].
  rewrite length_firstn, length_skipn. lia.
Qed.

Lemma load_some (mem : list byte) (off n : N) :
  off + n <= N.of_nat (List.length mem) -> exists v, load mem off n = Some v.
Proof.
  intros H. unfold load. rewrite span_some by assumption. simpl. eauto.
Qed.

Lemma load_inv (mem : list byte) (off n v : N) :
  load mem off n = Some v ->
  off + n <= N.of_nat (List.length mem) /\ v < 256 ^ n.
Proof.
  unfold load. destruct (span mem off n) as [bs|] eqn:E; [|discriminate].
  apply span_inv in E as [Hb Hl]. intros H. inversion H; subst. split; [assumption|].
  pose proof (le_decode_bound bs) as Hd. rewrite Hl, N2Nat.id in Hd. exact Hd.
Qed.

Lemma bind_lift_some {W A B} (o : option A) (a : A) (k : A -> M W B) (w : W) :
  o = Some a -> bind (lift_option o) k w = k a w.
Proof. intros ->. apply bind_ret_l. Qed.

Lemma bind_lift_none {W A B} (o : option A) (k : A -> M W B) (w : W) :
  o = None -> bind (lift_option o) k w = ([], w, Undefined).
Proof. intros ->. reflexivity. Qed.

(** ** The validation prologue *)

Section Prologue.

Context {W : Type} (sink : W -> string -> list byte -> W * io_result).
Variable std_sort : list PFS_CHUNK -> list PFS_CHUNK.
Variable mem : list byte.
Variable rec : N -> N -> option string -> M W N.
Variables (buffer bufferSize : N) (filename : option string).

Lemma prologue_input_too_small (w : W) :
  bufferSize < 32 ->
  pfs_extract_body sink std_sort mem rec buffer bufferSize filename w
  = ([EvPrint MsgInputTooSmall], w, Ret 1).
Proof.
  intros H. unfold pfs_extract_body.
  replace (bufferSize <? sizeof_PFS_FILE_HEADER + sizeof_PFS_FILE_FOOTER) with true
    by (symmetry; apply N.ltb_lt; exact H).
  reflexivity.
Qed.

Variables (signature version dataSize : N).
Hypothesis size_ok : 32 <= bufferSize.
Hypothesis load_signature : load mem buffer 8 = Some signature.
Hypothesis load_version : load mem (buffer + 8) 4 = Some version.
Hypothesis load_dataSize : load mem (buffer + 12) 4 = Some dataSize.

Lemma prologue_header (w : W) :
  pfs_extract_body sink std_sort mem rec buffer bufferSize filename w =
  (if negb (signature =? PFS_HEADER_SIGNATURE) then
     ([EvPrint (MsgFileHeader (is_subsection filename) signature version dataSize);
      EvPrint MsgInvalidHeaderSignature], w, Ret 1)
   else if negb (version =? 1) then
     ([EvPrint (MsgFileHeader (is_subsection filename) signature version dataSize);
      EvPrint (MsgUnknownHeaderVersion version)], w, Ret 1)
   else if bufferSize <? 32 + dataSize then
     ([EvPrint (MsgFileHeader (is_subsection filename) signature version dataSize);
      EvPrint MsgFileTooSmall], w, Ret 1)
   else
     bind (print (MsgFileHeader (is_subsection filename) signature version dataSize))
       (fun _ =>
          let footer := buffer + sizeof_PFS_FILE_HEADER + dataSize in
          fDataSize <- lift_option (load mem footer 4) ;;
          fChecksum <- lift_option (load mem (footer + 4) 4) ;;
          fSignature <- lift_option (load mem (footer + 8) 8) ;;
          print (MsgFileFooter (is_subsection filename) fSignature fChecksum fDataSize) ;;
          when (negb (fSignature =? PFS_FOOTER_SIGNATURE)) (print MsgInvalidFooterSignature) ;;
          when (negb (fDataSize =? dataSize)) (print (MsgDataSizeMismatch dataSize fDataSize)) ;;
          sections_pass sink std_sort mem rec buffer dataSize filename) w).
Proof.
  unfold pfs_extract_body.
  replace (bufferSize <? sizeof_PFS_FILE_HEADER + sizeof_PFS_FILE_FOOTER) with false
    by (symmetry; apply N.ltb_ge; exact size_ok).
  rewrite (bind_lift_some _ _ _ _ load_signature).
  rewrite (bind_lift_some _ _ _ _ load_version).
  rewrite (bind_lift_some _ _ _ _ load_dataSize).
  destruct (load_inv _ _ _ _ load_dataSize) as [_ Hd].
  replace ((sizeof_PFS_FILE_HEADER + dataSize + sizeof_PFS_FILE_FOOTER) mod 2 ^ 64)
    with (32 + dataSize).
  2:{ unfold sizeof_PFS_FILE_HEADER, sizeof_PFS_FILE_FOOTER.
      rewrite N.mod_small; [lia|].
      change (256 ^ 4) with 4294967296 in Hd.
      change (2 ^ 64) with 18446744073709551616. lia. }
  destruct (negb (signature =? PFS_HEADER_SIGNATURE)); [reflexivity|].
  destruct (negb (version =? 1)); [reflexivity|].
  destruct (bufferSize <? 32 + dataSize); reflexivity.
Qed.

End Prologue.

Lemma sections_pass_returns_zero {W} (sink : W -> string -> list byte -> W * io_result)
    std_sort mem rec buffer dataSize filename :
  returns (sections_pass sink std_sort mem rec buffer dataSize filename) (fun rc => rc = 0).
Proof.
  unfold sections_pass.
  eapply returns_bind; [apply returns_any|]. intros chunks _.
  eapply returns_bind; [apply returns_any|]. intros _ _.
  now apply returns_ret.
Qed.

(** C4 (as amended). A buffer shorter than header, declared data and
    footer together is rejected: the call returns 1, no file is written
    and the file system is left alone.  The failure reported is the first
    check that fails: "too small" when the buffer cannot even hold a header
    and a footer, or when magic and version are right; the bad magic or
    the unsupported version otherwise, since both are checked before the
    declared data size is compared with the length. *)
Theorem too_small_rejected {W} (sink : W -> string -> list byte -> W * io_result)
    (std_sort : list PFS_CHUNK -> list PFS_CHUNK) (mem : list byte) (depth : nat)
    (buffer bufferSize : N) (filename : option string) (w : W) :
  buffer + bufferSize <= N.of_nat (List.length mem) ->
  (bufferSize < sizeof_PFS_FILE_HEADER + sizeof_PFS_FILE_FOOTER
   \/ exists dataSize,
        load mem (buffer + 12) 4 = Some dataSize
        /\ bufferSize < sizeof_PFS_FILE_HEADER + dataSize + sizeof_PFS_FILE_FOOTER) ->
  outcome_of (pfs_extract sink std_sort mem (S depth) buffer bufferSize filename w) = Ret 1
  /\ writes_of
       (events_of (pfs_extract sink std_sort mem (S depth) buffer bufferSize filename w))
     = []
  /\ state_of (pfs_extract sink std_sort mem (S depth) buffer bufferSize filename w) = w
  /\ format_errors
       (messages_of
          (events_of (pfs_extract sink std_sort mem (S depth) buffer bufferSize filename w)))
     = [first_failure mem buffer bufferSize]
  /\ (bufferSize < sizeof_PFS_FILE_HEADER + sizeof_PFS_FILE_FOOTER
      \/ (load mem buffer 8 = Some PFS_HEADER_SIGNATURE /\ load mem (buffer + 8) 4 = Some 1) ->
      first_failure mem buffer bufferSize = TooSmall).
Proof.
  intros Hin Hshort. cbn [pfs_extract].
  unfold first_failure, sizeof_PFS_FILE_HEADER, sizeof_PFS_FILE_FOOTER in *.
  change (16 + 16) with 32 in *.
  destruct (N.ltb_spec bufferSize 32) as [Hlt|Hge].
  { rewrite prologue_input_too_small by assumption. repeat split; reflexivity. }
  destruct Hshort as [Hlt|(d & Hd & Hlt)]; [lia|].
  destruct (load_some mem buffer 8) as [sg Hsg]; [lia|].
  destruct (load_some mem (buffer + 8) 4) as [ver Hver]; [lia|].
  rewrite (prologue_header sink std_sort mem _ buffer bufferSize filename sg ver d)
    by assumption.
  rewrite Hsg, Hver.
  assert (Hc : (bufferSize <? 32 + d) = true) by (apply N.ltb_lt; lia).
  rewrite Hc.
  destruct (sg =? PFS_HEADER_SIGNATURE) eqn:Esg; cbn [negb].
  - destruct (ver =? 1) eqn:Ever; cbn [negb]; repeat split; try reflexivity.
    intros [?|[Hs Hv]]; [lia|]. inversion Hv; subst. discriminate.
  - repeat split; try reflexivity.
    intros [?|[Hs Hv]]; [lia|]. inversion Hs; subst. discriminate.
Qed.

Lemma too_small_rejected_witness :
  0 + 32 <= N.of_nat (List.length Samples.short_file)
  /\ load Samples.short_file (0 + 12) 4 = Some 100
  /\ outcome_of (pfs_extract Build.ok_sink stable_sort Samples.short_file 1 0 32 None tt)
     = Ret 1
  /\ format_errors
       (messages_of
          (events_of (pfs_extract Build.ok_sink stable_sort Samples.short_file 1 0 32 None tt)))
     = [TooSmall].
Proof.
  assert (H1 : 0 + 32 <= N.of_nat (List.length Samples.short_file))
    by (vm_compute; discriminate).
  assert (H2 : load Samples.short_file (0 + 12) 4 = Some 100) by reflexivity.
  split; [exact H1|]. split; [exact H2|].
  destruct (too_small_rejected Build.ok_sink stable_sort Samples.short_file 0 0 32 None tt H1)
    as (Ho & _ & _ & He & _).
  { right. exists 100. split; [exact H2 | vm_compute; reflexivity]. }
  split; [exact Ho | exact He].
Defined.

(** C4 (as stated) fails: a 32-byte buffer with a foreign header magic and
    a declared data size of 100 is shorter than header, data and footer
    together, yet the failure reported is the bad magic, not "too small". *)
Lemma too_small_counterexample :
  N.of_nat (List.length Samples.bad_magic_short_file)
    < sizeof_PFS_FILE_HEADER + 100 + sizeof_PFS_FILE_FOOTER
  /\ load Samples.bad_magic_short_file 12 4 = Some 100
  /\ outcome_of (main_extract Build.ok_sink stable_sort Samples.bad_magic_short_file tt) = Ret 1
  /\ format_errors
       (messages_of
          (events_of (main_extract Build.ok_sink stable_sort Samples.bad_magic_short_file tt)))
     = [BadHeaderMagic]
  /\ ~ In TooSmall
         (format_errors
            (messages_of
               (events_of
                  (main_extract Build.ok_sink stable_sort Samples.bad_magic_short_file tt)))).
Proof.
  repeat split; try reflexivity.
  vm_compute. intros [H|[]]. discriminate.
Qed.

(** ** The footer *)

Lemma bind_when_print {W B} (b : bool) (m : message) (k : unit -> M W B) (w : W) :
  bind (when b (print m)) k w =
  ((if b then [EvPrint m] else []) ++ events_of (k tt w),
   state_of (k tt w), outcome_of (k tt w)).
Proof.
  destruct b; cbn [when].
  - apply bind_print.
  - rewrite bind_ret_l. apply run_eta.
Qed.

Lemma prologue_pass {W} (sink : W -> string -> list byte -> W * io_result)
    std_sort mem rec buffer bufferSize filename dataSize fDataSize fChecksum fSignature w :
  load mem buffer 8 = Some PFS_HEADER_SIGNATURE ->
  load mem (buffer + 8) 4 = Some 1 ->
  load mem (buffer + 12) 4 = Some dataSize ->
  32 + dataSize <= bufferSize ->
  load mem (buffer + 16 + dataSize) 4 = Some fDataSize ->
  load mem (buffer + 16 + dataSize + 4) 4 = Some fChecksum ->
  load mem (buffer + 16 + dataSize + 8) 8 = Some fSignature ->
  pfs_extract_body sink std_sort mem rec buffer bufferSize filename w =
  (EvPrint (MsgFileHeader (is_subsection filename) PFS_HEADER_SIGNATURE 1 dataSize)
   :: EvPrint (MsgFileFooter (is_subsection filename) fSignature fChecksum fDataSize)
   :: map EvPrint (footer_warnings dataSize fDataSize fSignature)
   ++ events_of (sections_pass sink std_sort mem rec buffer dataSize filename w),
   state_of (sections_pass sink std_sort mem rec buffer dataSize filename w),
   outcome_of (sections_pass sink std_sort mem rec buffer dataSize filename w)).
Proof.
  intros Hs Hv Hd Hsz Hfd Hfc Hfs.
  rewrite (prologue_header sink std_sort mem rec buffer bufferSize filename _ _ _)
    by (eassumption || lia).
  rewrite N.eqb_refl. cbn [negb N.eqb Pos.eqb].
  replace (bufferSize <? 32 + dataSize) with false by (symmetry; apply N.ltb_ge; lia).
  rewrite bind_print. unfold sizeof_PFS_FILE_HEADER.
  rewrite (bind_lift_some _ _ _ _ Hfd), (bind_lift_some _ _ _ _ Hfc),
    (bind_lift_some _ _ _ _ Hfs).
  rewrite bind_print, !bind_when_print. unfold_run.
  unfold footer_warnings. rewrite map_app, <- app_assoc.
  destruct (negb (fSignature =? PFS_FOOTER_SIGNATURE)),
    (negb (fDataSize =? dataSize)); reflexivity.
Qed.

Lemma format_errors_footer_warnings (dataSize fDataSize fSignature : N) :
  format_errors (footer_warnings dataSize fDataSize fSignature) = [].
Proof.
  unfold footer_warnings.
  destruct (negb (fSignature =? PFS_FOOTER_SIGNATURE)),
    (negb (fDataSize =? dataSize)); reflexivity.
Qed.

Lemma writes_of_prints (ms : list message) : writes_of (map EvPrint ms) = [].
Proof. induction ms; simpl; auto. Qed.

(** C8. Once header magic, version and size have been accepted, the
    footer cannot stop the extraction: a footer magic other than
    "PFS.FTR." and a footer data size other than the header's each add one
    diagnostic, neither of them fatal, and then the pass over the sections
    runs exactly as it does for a matching footer: same writes, same
    final state, same result, and that result is never a failure. *)
Theorem footer_mismatch_not_fatal {W} (sink : W -> string -> list byte -> W * io_result)
    (std_sort : list PFS_CHUNK -> list PFS_CHUNK) (mem : list byte) (depth : nat)
    (buffer bufferSize : N) (filename : option string)
    (dataSize fDataSize fChecksum fSignature : N) (w : W) :
  load mem buffer 8 = Some PFS_HEADER_SIGNATURE ->
  load mem (buffer + 8) 4 = Some 1 ->
  load mem (buffer + 12) 4 = Some dataSize ->
  32 + dataSize <= bufferSize ->
  load mem (buffer + 16 + dataSize) 4 = Some fDataSize ->
  load mem (buffer + 16 + dataSize + 4) 4 = Some fChecksum ->
  load mem (buffer + 16 + dataSize + 8) 8 = Some fSignature ->
  events_of (pfs_extract sink std_sort mem (S depth) buffer bufferSize filename w)
  = EvPrint (MsgFileHeader (is_subsection filename) PFS_HEADER_SIGNATURE 1 dataSize)
    :: EvPrint (MsgFileFooter (is_subsection filename) fSignature fChecksum fDataSize)
    :: map EvPrint (footer_warnings dataSize fDataSize fSignature)
    ++ events_of (sections_pass sink std_sort mem (pfs_extract sink std_sort mem depth)
                    buffer dataSize filename w)
  /\ (fSignature <> PFS_FOOTER_SIGNATURE <->
      In MsgInvalidFooterSignature (footer_warnings dataSize fDataSize fSignature))
  /\ (fDataSize <> dataSize <->
      In (MsgDataSizeMismatch dataSize fDataSize) (footer_warnings dataSize fDataSize fSignature))
  /\ format_errors (footer_warnings dataSize fDataSize fSignature) = []
  /\ writes_of (events_of (pfs_extract sink std_sort mem (S depth) buffer bufferSize filename w))
     = writes_of (events_of (sections_pass sink std_sort mem (pfs_extract sink std_sort mem depth)
                               buffer dataSize filename w))
  /\ state_of (pfs_extract sink std_sort mem (S depth) buffer bufferSize filename w)
     = state_of (sections_pass sink std_sort mem (pfs_extract sink std_sort mem depth)
                   buffer dataSize filename w)
  /\ outcome_of (pfs_extract sink std_sort mem (S depth) buffer bufferSize filename w)
     = outcome_of (sections_pass sink std_sort mem (pfs_extract sink std_sort mem depth)
                     buffer dataSize filename w)
  /\ (forall rc,
         outcome_of (pfs_extract sink std_sort mem (S depth) buffer bufferSize filename w)
         = Ret rc -> rc = 0).
Proof.
  intros Hs Hv Hd Hsz Hfd Hfc Hfs. cbn [pfs_extract].
  rewrite (prologue_pass sink std_sort mem _ buffer bufferSize filename
             dataSize fDataSize fChecksum fSignature w) by assumption.
  unfold_run.
  split; [reflexivity|].
  split.
  { unfold footer_warnings.
    destruct (N.eqb_spec fSignature PFS_FOOTER_SIGNATURE) as [E|E];
      destruct (N.eqb_spec fDataSize dataSize) as [E'|E']; cbn [negb app In];
      split; intros H; try tauto; try (now left);
      repeat (destruct H as [H|H]; try discriminate H; try contradiction). }
  split.
  { unfold footer_warnings.
    destruct (N.eqb_spec fSignature PFS_FOOTER_SIGNATURE) as [E|E];
      destruct (N.eqb_spec fDataSize dataSize) as [E'|E']; cbn [negb app In];
      split; intros H; try tauto; try (now left); try (now right; left);
      repeat (destruct H as [H|H]; try discriminate H; try contradiction). }
  split; [apply format_errors_footer_warnings|].
  split; [cbn [writes_of]; now rewrite writes_of_app, writes_of_prints|].
  split; [reflexivity|]. split; [reflexivity|].
  intros rc Hrc.
  destruct (sections_pass sink std_sort mem (pfs_extract sink std_sort mem depth)
              buffer dataSize filename w) as [[ev w'] o] eqn:E.
  simpl in Hrc. subst o.
  exact (sections_pass_returns_zero sink std_sort mem _ buffer dataSize filename _ _ _ _ E).
Qed.

Lemma footer_mismatch_not_fatal_witness :
  load Samples.bad_footer_magic_file 0 8 = Some PFS_HEADER_SIGNATURE
  /\ load Samples.bad_footer_magic_file (0 + 16 + 84 + 8) 8
     = Some (le_decode (bytes_of_string "PFS.XXX."))
  /\ In MsgInvalidFooterSignature
       (footer_warnings 84 84 (le_decode (bytes_of_string "PFS.XXX.")))
  /\ writes_of (events_of (pfs_extract Build.ok_sink stable_sort
                             Samples.bad_footer_magic_file 2 0 116 None tt))
     = [("section_0_2.data"%string, Samples.text "data");
        ("section_0_2.sign"%string, Samples.text "sg");
        ("section_0_2.meta"%string, Samples.text "meta!");
        ("section_0_2.mtsg"%string, Samples.text "m")]
  /\ outcome_of (pfs_extract Build.ok_sink stable_sort
                   Samples.bad_footer_magic_file 2 0 116 None tt) = Ret 0.
Proof.
  assert (H1 : load Samples.bad_footer_magic_file 0 8 = Some PFS_HEADER_SIGNATURE)
    by reflexivity.
  assert (H2 : load Samples.bad_footer_magic_file (0 + 8) 4 = Some 1) by reflexivity.
  assert (H3 : load Samples.bad_footer_magic_file (0 + 12) 4 = Some 84) by reflexivity.
  assert (H4 : 32 + 84 <= 116) by (vm_compute; discriminate).
  assert (H5 : load Samples.bad_footer_magic_file (0 + 16 + 84) 4 = Some 84) by reflexivity.
  assert (H6 : load Samples.bad_footer_magic_file (0 + 16 + 84 + 4) 4 = Some 0) by reflexivity.
  assert (H7 : load Samples.bad_footer_magic_file (0 + 16 + 84 + 8) 8
               = Some (le_decode (bytes_of_string "PFS.XXX."))) by reflexivity.
  destruct (footer_mismatch_not_fatal Build.ok_sink stable_sort
              Samples.bad_footer_magic_file 1 0 116 None 84 84 0
              (le_decode (bytes_of_string "PFS.XXX.")) tt H1 H2 H3 H4 H5 H6 H7)
    as (_ & Hmagic & _ & _ & Hwrites & _ & Hout & _).
  split; [exact H1|]. split; [exact H7|].
  split; [apply Hmagic; vm_compute; discriminate|].
  split; [rewrite Hwrites; reflexivity | rewrite Hout; reflexivity].
Defined.

(** The samples of C8, run from [main]: a foreign footer magic and a
    foreign footer data size each cost one diagnostic and nothing else. *)
Example footer_samples :
  writes_of (events_of (main_extract Build.ok_sink stable_sort Samples.bad_footer_magic_file tt))
  = writes_of (events_of (main_extract Build.ok_sink stable_sort Samples.plain_file tt))
  /\ outcome_of (main_extract Build.ok_sink stable_sort Samples.bad_footer_magic_file tt) = Ret 0
  /\ filter (fun m => match m with MsgInvalidFooterSignature => true | _ => false end)
       (messages_of
          (events_of (main_extract Build.ok_sink stable_sort Samples.bad_footer_magic_file tt)))
     = [MsgInvalidFooterSignature]
  /\ writes_of (events_of (main_extract Build.ok_sink stable_sort Samples.bad_footer_size_file tt))
     = writes_of (events_of (main_extract Build.ok_sink stable_sort Samples.plain_file tt))
  /\ outcome_of (main_extract Build.ok_sink stable_sort Samples.bad_footer_size_file tt) = Ret 0
  /\ filter (fun m => match m with MsgDataSizeMismatch _ _ => true | _ => false end)
       (messages_of
          (events_of (main_extract Build.ok_sink stable_sort Samples.bad_footer_size_file tt)))
     = [MsgDataSizeMismatch 84 7].
Proof. repeat split; vm_compute; reflexivity. Qed.

(** ** One section *)

Section Step.

Context {W : Type} (sink : W -> string -> list byte -> W * io_result).
Variable mem : list byte.

Lemma returns_advance (ptr size : N) :
  returns (@advance W mem ptr size)
    (fun p => p = ptr + size /\ p <= N.of_nat (List.length mem)).
Proof.
  unfold advance. destruct (N.leb_spec (ptr + size) (N.of_nat (List.length mem))).
  - apply returns_ret. auto.
  - intros w ev w' a E. discriminate.
Qed.

Lemma terminates_advance (ptr size : N) : terminates (@advance W mem ptr size).
Proof.
  unfold advance. destruct (_ <=? _); [apply terminates_ret | apply terminates_undefined].
Qed.

Lemma silent_advance (ptr size : N) : silent (@advance W mem ptr size).
Proof.
  unfold advance. destruct (_ <=? _); [apply silent_ret | apply silent_undefined].
Qed.

Lemma terminates_vector_range (first last : N) :
  terminates (@vector_range W mem first last).
Proof.
  unfold vector_range.
  destruct (_ <=? _); [apply terminates_lift_option | apply terminates_undefined].
Qed.

Lemma silent_vector_range (first last : N) : silent (@vector_range W mem first last).
Proof.
  unfold vector_range.
  destruct (_ <=? _); [apply silent_lift_option | apply silent_undefined].
Qed.

Lemma terminates_write_file (filename : string) (bs : list byte) :
  terminates (write_file sink filename bs).
Proof.
  intros w. unfold write_file. destruct (sink w filename bs) as [w' []]; discriminate.
Qed.

Lemma terminates_show_version (hdr : PFS_SECTION_HEADER) :
  terminates (@show_version W hdr).
Proof. intros w. rewrite show_version_run. discriminate. Qed.

Lemma silent_show_version (hdr : PFS_SECTION_HEADER) : silent (@show_version W hdr).
Proof.
  intros w. rewrite show_version_run. split; [|reflexivity].
  unfold events_of. cbn [fst].
  rewrite writes_of_app, writes_of_warnings.
  destruct (fst (decode_components (components hdr))); reflexivity.
Qed.

Lemma terminates_emit_block (b : bool) (filename : string) (ptr size : N) :
  terminates (emit_block sink mem b filename ptr size).
Proof.
  unfold emit_block. destruct (size =? 0); [apply terminates_ret|].
  destruct b; [apply terminates_ret|].
  eapply terminates_bind; [apply terminates_lift_option | apply returns_any|].
  intros bs _.
  eapply terminates_bind; [apply terminates_write_file | apply returns_any|].
  intros _ _. apply terminates_ret.
Qed.

Lemma silent_emit_block (filename : string) (ptr size : N) :
  silent (emit_block sink mem true filename ptr size).
Proof.
  unfold emit_block. destruct (size =? 0); apply silent_ret.
Qed.

Section WithRec.

Variable rec : N -> N -> option string -> M W N.
Variable isSubsection : bool.

(** The recursive call is of no concern in a subsection pass; in a normal
    pass it is made with a target name only. *)
Hypothesis rec_terminates :
  isSubsection = true \/ forall p s name, terminates (rec p s (Some name)).

Lemma terminates_data_block hdr ptr sectionNum version chunks :
  terminates (data_block sink mem rec isSubsection hdr ptr sectionNum version chunks).
Proof.
  unfold data_block. destruct (DataSize hdr =? 0); [apply terminates_ret|].
  destruct isSubsection eqn:Eb.
  - eapply terminates_bind; [apply terminates_lift_option | apply returns_any|].
    intros num _.
    eapply terminates_bind; [apply terminates_vector_range | apply returns_any|].
    intros bytes _. apply terminates_ret.
  - destruct rec_terminates as [H|H]; [discriminate|].
    eapply terminates_bind; [apply terminates_lift_option | apply returns_any|].
    intros bs _.
    eapply terminates_bind; [apply terminates_write_file | apply returns_any|].
    intros _ _.
    eapply terminates_bind; [apply terminates_lift_option | apply returns_any|].
    intros sg _. destruct (sg =? PFS_HEADER_SIGNATURE); [|apply terminates_ret].
    eapply terminates_bind; [apply H | apply returns_any|].
    intros _ _. apply terminates_ret.
Qed.

Lemma terminates_section_step off sectionNum chunks :
  terminates (section_step sink mem rec isSubsection off sectionNum chunks).
Proof.
  unfold section_step.
  eapply terminates_bind; [apply terminates_lift_option | apply returns_any|].
  intros hdr _.
  eapply terminates_bind; [apply terminates_print | apply returns_any|].
  intros _ _.
  eapply terminates_bind; [apply terminates_show_version | apply returns_any|].
  intros version _.
  eapply terminates_bind; [apply terminates_advance | apply returns_any|].
  intros ptr0 _.
  eapply terminates_bind; [apply terminates_data_block | apply returns_any|].
  intros chunks' _.
  eapply terminates_bind; [apply terminates_advance | apply returns_any|].
  intros ptr1 _.
  eapply terminates_bind; [apply terminates_emit_block | apply returns_any|].
  intros _ _.
  eapply terminates_bind; [apply terminates_advance | apply returns_any|].
  intros ptr2 _.
  eapply terminates_bind; [apply terminates_emit_block | apply returns_any|].
  intros _ _.
  eapply terminates_bind; [apply terminates_advance | apply returns_any|].
  intros ptr3 _.
  eapply terminates_bind; [apply terminates_emit_block | apply returns_any|].
  intros _ _.
  eapply terminates_bind; [apply terminates_advance | apply returns_any|].
  intros ptr4 _. apply terminates_ret.
Qed.

End WithRec.

(** Where the pointer stands after a section: behind the header and the
    four declared sizes, and still inside the buffer. *)
Lemma returns_section_step rec isSubsection off sectionNum chunks :
  returns (section_step sink mem rec isSubsection off sectionNum chunks)
    (fun r =>
       exists hdr,
         read_section_header mem off = Some hdr
         /\ fst r = off + sizeof_PFS_SECTION_HEADER + DataSize hdr + DataSignatureSize hdr
                    + MetadataSize hdr + MetadataSignatureSize hdr
         /\ fst r <= N.of_nat (List.length mem)).
Proof.
  unfold section_step.
  eapply returns_bind; [apply returns_lift_option; intros a Ha; exact Ha|].
  intros hdr Hhdr. cbv beta in Hhdr.
  eapply returns_bind; [apply returns_any|]. intros _ _.
  eapply returns_bind; [apply returns_any|]. intros version _.
  eapply returns_bind; [apply returns_advance|]. intros ptr0 [-> _].
  eapply returns_bind; [apply returns_any|]. intros chunks' _.
  eapply returns_bind; [apply returns_advance|]. intros ptr1 [-> _].
  eapply returns_bind; [apply returns_any|]. intros _ _.
  eapply returns_bind; [apply returns_advance|]. intros ptr2 [-> _].
  eapply returns_bind; [apply returns_any|]. intros _ _.
  eapply returns_bind; [apply returns_advance|]. intros ptr3 [-> _].
  eapply returns_bind; [apply returns_any|]. intros _ _.
  eapply returns_bind; [apply returns_advance|]. intros ptr4 [-> Hle].
  apply returns_ret. exists hdr. cbn [fst]. auto.
Qed.

End Step.

(** ** The walk *)

Lemma read_section_header_inv (mem : list byte) (off : N) (hdr : PFS_SECTION_HEADER) :
  read_section_header mem off = Some hdr ->
  off + sizeof_PFS_SECTION_HEADER <= N.of_nat (List.length mem).
Proof.
  unfold read_section_header.
  destruct (span mem off sizeof_PFS_SECTION_HEADER) as [bs|] eqn:E; [|discriminate].
  intros _. now apply span_inv in E.
Qed.

Section WalkFacts.

Context {W : Type} (sink : W -> string -> list byte -> W * io_result).
Variable mem : list byte.
Variable rec : N -> N -> option string -> M W N.
Variable isSubsection : bool.
Variable dataEnd : N.

Hypothesis rec_terminates :
  isSubsection = true \/ forall p s name, terminates (rec p s (Some name)).

(** Each iteration moves the pointer by 72 bytes at least and keeps it in
    the buffer, so the fuel lasts. *)
Lemma terminates_walk_from (fuel : nat) :
  forall off sectionNum chunks,
    off <= N.of_nat (List.length mem) ->
    N.of_nat (List.length mem) < off + 72 * N.of_nat fuel ->
    terminates (walk sink mem rec isSubsection dataEnd fuel off sectionNum chunks).
Proof.
  induction fuel as [|fuel IH]; intros off sectionNum chunks Hle Hfuel.
  - lia.
  - cbn [walk]. destruct (off <? dataEnd); [|apply terminates_ret].
    eapply terminates_bind;
      [apply terminates_section_step; exact rec_terminates
      | apply returns_section_step |].
    intros [ptr chunks'] (hdr & _ & Hptr & Hin). cbn [fst] in *.
    apply IH; [exact Hin|]. unfold sizeof_PFS_SECTION_HEADER in Hptr. lia.
Qed.

Lemma terminates_walk (off sectionNum : N) (chunks : list PFS_CHUNK) :
  terminates (walk sink mem rec isSubsection dataEnd (S (List.length mem))
                off sectionNum chunks).
Proof.
  destruct (N.le_gt_cases off (N.of_nat (List.length mem))) as [Hle|Hgt].
  - apply terminates_walk_from; [exact Hle | lia].
  - cbn [walk]. destruct (off <? dataEnd); [|apply terminates_ret].
    eapply terminates_bind;
      [apply terminates_section_step; exact rec_terminates
      | apply returns_section_step |].
    intros [ptr chunks'] (hdr & Hread & _).
    apply read_section_header_inv in Hread.
    unfold sizeof_PFS_SECTION_HEADER in Hread. lia.
Qed.

End WalkFacts.

(** ** Subsection passes *)

Section Subsection.

Context {W : Type} (sink : W -> string -> list byte -> W * io_result).
Variable mem : list byte.

Lemma silent_data_block rec hdr ptr sectionNum version chunks :
  silent (data_block sink mem rec true hdr ptr sectionNum version chunks).
Proof.
  unfold data_block. destruct (DataSize hdr =? 0); [apply silent_ret|].
  apply silent_bind; [apply silent_lift_option|]. intros num.
  apply silent_bind; [apply silent_vector_range|]. intros bytes.
  apply silent_ret.
Qed.

Lemma silent_section_step rec off sectionNum chunks :
  silent (section_step sink mem rec true off sectionNum chunks).
Proof.
  unfold section_step.
  apply silent_bind; [apply silent_lift_option|]. intros hdr.
  apply silent_bind; [apply silent_print|]. intros _.
  apply silent_bind; [apply silent_show_version|]. intros version.
  apply silent_bind; [apply silent_advance|]. intros ptr0.
  apply silent_bind; [apply silent_data_block|]. intros chunks'.
  apply silent_bind; [apply silent_advance|]. intros ptr1.
  apply silent_bind; [apply silent_emit_block|]. intros _.
  apply silent_bind; [apply silent_advance|]. intros ptr2.
  apply silent_bind; [apply silent_emit_block|]. intros _.
  apply silent_bind; [apply silent_advance|]. intros ptr3.
  apply silent_bind; [apply silent_emit_block|]. intros _.
  apply silent_bind; [apply silent_advance|]. intros ptr4.
  apply silent_ret.
Qed.

(** A subsection pass writes nothing while it walks. *)
Lemma silent_walk rec dataEnd (fuel : nat) :
  forall off sectionNum chunks,
    silent (walk sink mem rec true dataEnd fuel off sectionNum chunks).
Proof.
  induction fuel as [|fuel IH]; intros off sectionNum chunks; cbn [walk];
    destruct (off <? dataEnd); try apply silent_ret.
  - intros w. split; reflexivity.
  - apply silent_bind; [apply silent_section_step|]. intros [ptr chunks']. apply IH.
Qed.

Lemma equiv_data_block b rec1 rec2 hdr ptr sectionNum version chunks :
  interchangeable b rec1 rec2 ->
  equiv (data_block sink mem rec1 b hdr ptr sectionNum version chunks)
        (data_block sink mem rec2 b hdr ptr sectionNum version chunks).
Proof.
  intros H. unfold data_block. destruct (DataSize hdr =? 0); [apply equiv_refl|].
  destruct b; [apply equiv_refl|].
  destruct H as [H|H]; [discriminate|].
  apply equiv_bind; [apply equiv_refl|]. intros bs.
  apply equiv_bind; [apply equiv_refl|]. intros _.
  apply equiv_bind; [apply equiv_refl|]. intros sg.
  destruct (sg =? PFS_HEADER_SIGNATURE); [|apply equiv_refl].
  apply equiv_bind; [apply H|]. intros _. apply equiv_refl.
Qed.

Lemma equiv_section_step b rec1 rec2 off sectionNum chunks :
  interchangeable b rec1 rec2 ->
  equiv (section_step sink mem rec1 b off sectionNum chunks)
        (section_step sink mem rec2 b off sectionNum chunks).
Proof.
  intros H. unfold section_step.
  apply equiv_bind; [apply equiv_refl|]. intros hdr.
  apply equiv_bind; [apply equiv_refl|]. intros _.
  apply equiv_bind; [apply equiv_refl|]. intros version.
  apply equiv_bind; [apply equiv_refl|]. intros ptr0.
  apply equiv_bind; [apply equiv_data_block; exact H|]. intros chunks'.
  apply equiv_refl.
Qed.

Lemma equiv_walk b rec1 rec2 dataEnd (fuel : nat) :
  interchangeable b rec1 rec2 ->
  forall off sectionNum chunks,
    equiv (walk sink mem rec1 b dataEnd fuel off sectionNum chunks)
          (walk sink mem rec2 b dataEnd fuel off sectionNum chunks).
Proof.
  intros H. induction fuel as [|fuel IH]; intros off sectionNum chunks; cbn [walk];
    destruct (off <? dataEnd); try apply equiv_refl.
  apply equiv_bind; [apply equiv_section_step; exact H|].
  intros [ptr chunks']. apply IH.
Qed.

End Subsection.

(** ** Depth of the recursion *)

Section Depth.

Context {W : Type} (sink : W -> string -> list byte -> W * io_result).
Variable std_sort : list PFS_CHUNK -> list PFS_CHUNK.
Variable mem : list byte.

Lemma equiv_sections_pass rec1 rec2 buffer dataSize filename :
  interchangeable (is_subsection filename) rec1 rec2 ->
  equiv (sections_pass sink std_sort mem rec1 buffer dataSize filename)
        (sections_pass sink std_sort mem rec2 buffer dataSize filename).
Proof.
  intros H. unfold sections_pass.
  apply equiv_bind; [apply equiv_walk; exact H|]. intros chunks. apply equiv_refl.
Qed.

Lemma equiv_body rec1 rec2 buffer bufferSize filename :
  interchangeable (is_subsection filename) rec1 rec2 ->
  equiv (pfs_extract_body sink std_sort mem rec1 buffer bufferSize filename)
        (pfs_extract_body sink std_sort mem rec2 buffer bufferSize filename).
Proof.
  intros H. unfold pfs_extract_body.
  destruct (bufferSize <? _); [apply equiv_refl|].
  apply equiv_bind; [apply equiv_refl|]. intros sg.
  apply equiv_bind; [apply equiv_refl|]. intros ver.
  apply equiv_bind; [apply equiv_refl|]. intros d.
  apply equiv_bind; [apply equiv_refl|]. intros _.
  destruct (negb (sg =? _)); [apply equiv_refl|].
  destruct (negb (ver =? 1)); [apply equiv_refl|].
  destruct (bufferSize <? _); [apply equiv_refl|].
  apply equiv_bind; [apply equiv_refl|]. intros fd.
  apply equiv_bind; [apply equiv_refl|]. intros fc.
  apply equiv_bind; [apply equiv_refl|]. intros fs.
  apply equiv_bind; [apply equiv_refl|]. intros _.
  apply equiv_bind; [apply equiv_refl|]. intros _.
  apply equiv_bind; [apply equiv_refl|]. intros _.
  apply equiv_sections_pass. exact H.
Qed.

Lemma terminates_reassemble filename chunks :
  terminates (reassemble sink std_sort filename chunks).
Proof.
  unfold reassemble. destruct filename; [|apply terminates_ret].
  eapply terminates_bind; [apply terminates_write_file | apply returns_any|].
  intros _ _. apply terminates_ret.
Qed.

Lemma terminates_body rec buffer bufferSize filename :
  (is_subsection filename = true \/ forall p s name, terminates (rec p s (Some name))) ->
  terminates (pfs_extract_body sink std_sort mem rec buffer bufferSize filename).
Proof.
  intros H. unfold pfs_extract_body.
  destruct (bufferSize <? _).
  { eapply terminates_bind; [apply terminates_print | apply returns_any|].
    intros _ _. apply terminates_ret. }
  eapply terminates_bind; [apply terminates_lift_option | apply returns_any|]. intros sg _.
  eapply terminates_bind; [apply terminates_lift_option | apply returns_any|]. intros ver _.
  eapply terminates_bind; [apply terminates_lift_option | apply returns_any|]. intros d _.
  eapply terminates_bind; [apply terminates_print | apply returns_any|]. intros _ _.
  destruct (negb (sg =? _)).
  { eapply terminates_bind; [apply terminates_print | apply returns_any|].
    intros _ _. apply terminates_ret. }
  destruct (negb (ver =? 1)).
  { eapply terminates_bind; [apply terminates_print | apply returns_any|].
    intros _ _. apply terminates_ret. }
  destruct (bufferSize <? _).
  { eapply terminates_bind; [apply terminates_print | apply returns_any|].
    intros _ _. apply terminates_ret. }
  eapply terminates_bind; [apply terminates_lift_option | apply returns_any|]. intros fd _.
  eapply terminates_bind; [apply terminates_lift_option | apply returns_any|]. intros fc _.
  eapply terminates_bind; [apply terminates_lift_option | apply returns_any|]. intros fs _.
  eapply terminates_bind; [apply terminates_print | apply returns_any|]. intros _ _.
  eapply terminates_bind;
    [apply terminates_when, terminates_print | apply returns_any|]. intros _ _.
  eapply terminates_bind;
    [apply terminates_when, terminates_print | apply returns_any|]. intros _ _.
  unfold sections_pass.
  eapply terminates_bind; [apply terminates_walk; exact H | apply returns_any|].
  intros chunks _.
  eapply terminates_bind; [apply terminates_reassemble | apply returns_any|].
  intros _ _. apply terminates_ret.
Qed.

(** A call with a target name never recurses: one level of depth is all
    it uses. *)
Lemma subsection_depth (depth : nat) buffer bufferSize name :
  equiv (pfs_extract sink std_sort mem (S depth) buffer bufferSize (Some name))
        (pfs_extract sink std_sort mem 1 buffer bufferSize (Some name)).
Proof. cbn [pfs_extract]. apply equiv_body. left. reflexivity. Qed.

Lemma subsection_terminates buffer bufferSize name :
  terminates (pfs_extract sink std_sort mem 1 buffer bufferSize (Some name)).
Proof. cbn [pfs_extract]. apply terminates_body. left. reflexivity. Qed.

Lemma any_depth (depth : nat) buffer bufferSize filename :
  equiv (pfs_extract sink std_sort mem (S (S depth)) buffer bufferSize filename)
        (pfs_extract sink std_sort mem 2 buffer bufferSize filename).
Proof.
  change (equiv
    (pfs_extract_body sink std_sort mem (pfs_extract sink std_sort mem (S depth))
       buffer bufferSize filename)
    (pfs_extract_body sink std_sort mem (pfs_extract sink std_sort mem 1)
       buffer bufferSize filename)).
  apply equiv_body. right. intros p s name. apply subsection_depth.
Qed.

Lemma any_depth_terminates buffer bufferSize filename :
  terminates (pfs_extract sink std_sort mem 2 buffer bufferSize filename).
Proof.
  change (terminates
    (pfs_extract_body sink std_sort mem (pfs_extract sink std_sort mem 1)
       buffer bufferSize filename)).
  apply terminates_body. right. intros p s name. apply subsection_terminates.
Qed.

End Depth.

(** C7 (as stated) fails: forty-one containers nested in one another,
    more than any depth limit the specification suggests, are accepted.
    The call returns 0, reports no failure, and writes the outermost
    section's data and its reassembled payload. *)
Lemma recursion_depth_counterexample :
  outcome_of (main_extract Build.ok_sink stable_sort (Samples.nest 40) tt) = Ret 0
  /\ format_errors
       (messages_of (events_of (main_extract Build.ok_sink stable_sort (Samples.nest 40) tt)))
     = []
  /\ map fst (writes_of (events_of (main_extract Build.ok_sink stable_sort (Samples.nest 40) tt)))
     = ["section_0_.data"%string; "section_0_.payload"%string].
Proof. repeat split; vm_compute; reflexivity. Qed.

(** ** Sorting chunks *)

Lemma insert_before_perm (c : PFS_CHUNK) (l : list PFS_CHUNK) :
  Permutation (c :: l) (insert_before c l).
Proof.
  induction l as [|x l IH]; cbn [insert_before]; [reflexivity|].
  destruct (chunk_lt x c); [|reflexivity].
  rewrite perm_swap. now apply perm_skip.
Qed.

Lemma insert_before_sorted (c : PFS_CHUNK) (l : list PFS_CHUNK) :
  Sorted chunk_le l -> Sorted chunk_le (insert_before c l).
Proof.
  induction l as [|x l IH]; intros Hs; cbn [insert_before].
  - repeat constructor.
  - unfold chunk_lt. destruct (N.ltb_spec (orderNum x) (orderNum c)) as [Hlt|Hge].
    + inversion Hs as [|? ? Hs' Hhd]; subst. constructor; [now apply IH|].
      destruct l as [|y l]; cbn [insert_before].
      * constructor. unfold chunk_le. lia.
      * unfold chunk_lt. destruct (orderNum y <? orderNum c);
          constructor; [now inversion Hhd | unfold chunk_le; lia].
    + constructor; [exact Hs|]. constructor. exact Hge.
Qed.

Lemma stable_sort_contract : std_sort_contract stable_sort.
Proof.
  intros l. induction l as [|c l [IHp IHs]]; cbn [stable_sort fold_right].
  - split; constructor.
  - fold (stable_sort l). split.
    + rewrite <- insert_before_perm. now apply perm_skip.
    + now apply insert_before_sorted.
Qed.

(** [stable_sort] deserves its name: the chunks of any one order number
    come out in the order they went in. *)
Lemma insert_before_filter (k : N) (c : PFS_CHUNK) (l : list PFS_CHUNK) :
  filter (fun x => orderNum x =? k) (insert_before c l)
  = filter (fun x => orderNum x =? k) (c :: l).
Proof.
  induction l as [|x l IH]; cbn [insert_before]; [reflexivity|].
  unfold chunk_lt. destruct (N.ltb_spec (orderNum x) (orderNum c)) as [Hlt|Hge];
    [|reflexivity].
  cbn [filter] in *. rewrite IH.
  destruct (N.eqb_spec (orderNum c) k) as [Ec|Ec]; [|reflexivity].
  destruct (N.eqb_spec (orderNum x) k) as [Ex|Ex]; [lia | reflexivity].
Qed.

Lemma stable_sort_stable (k : N) (l : list PFS_CHUNK) :
  filter (fun x => orderNum x =? k) (stable_sort l) = filter (fun x => orderNum x =? k) l.
Proof.
  induction l as [|c l IH]; [reflexivity|].
  cbn [stable_sort fold_right]. fold (stable_sort l).
  rewrite insert_before_filter. cbn [filter]. now rewrite IH.
Qed.

(** With pairwise distinct order numbers there is one sorted arrangement
    only. *)
Lemma sorted_unique (l1 : list PFS_CHUNK) :
  forall l2,
    Sorted chunk_le l1 -> Sorted chunk_le l2 -> Permutation l1 l2 ->
    NoDup (map orderNum l1) -> l1 = l2.
Proof.
  induction l1 as [|a l1 IH]; intros l2 Hs1 Hs2 Hp Hnd.
  - apply Permutation_nil in Hp. now subst.
  - destruct l2 as [|b l2]; [apply Permutation_sym, Permutation_nil in Hp; discriminate|].
    assert (Hab : a = b).
    { assert (Ha : In a (b :: l2)) by (eapply Permutation_in; [exact Hp | now left]).
      assert (Hb : In b (a :: l1))
        by (eapply Permutation_in; [apply Permutation_sym; exact Hp | now left]).
      destruct Ha as [Ha|Ha]; [now subst|].
      destruct Hb as [Hb|Hb]; [now subst|].
      apply Sorted_StronglySorted in Hs1, Hs2;
        try (intros x y z; unfold chunk_le; lia).
      inversion Hs1 as [|? ? _ Hall1]; inversion Hs2 as [|? ? _ Hall2]; subst.
      rewrite Forall_forall in Hall1, Hall2.
      pose proof (Hall1 _ Hb) as H1. pose proof (Hall2 _ Ha) as H2.
      unfold chunk_le in H1, H2.
      inversion Hnd as [|? ? Hnotin _]; subst.
      exfalso. apply Hnotin. replace (orderNum a) with (orderNum b) by lia.
      now apply in_map. }
    subst b. f_equal. apply IH.
    + now inversion Hs1.
    + now inversion Hs2.
    + eapply Permutation_cons_inv; exact Hp.
    + now inversion Hnd.
Qed.

Lemma std_sort_distinct (sort : list PFS_CHUNK -> list PFS_CHUNK) (l : list PFS_CHUNK) :
  std_sort_contract sort -> NoDup (map orderNum l) -> sort l = stable_sort l.
Proof.
  intros Hc Hnd.
  destruct (Hc l) as [Hp Hs]. destruct (stable_sort_contract l) as [Hp' Hs'].
  apply sorted_unique; try assumption.
  - rewrite <- Hp. exact Hp'.
  - eapply Permutation_NoDup; [|exact Hnd]. apply Permutation_map. exact Hp.
Qed.

(** ** Reassembly *)

Section Reassembly.

Context {W : Type} (sink : W -> string -> list byte -> W * io_result).
Variable std_sort : list PFS_CHUNK -> list PFS_CHUNK.
Variable mem : list byte.

Lemma write_file_run (filename : string) (bs : list byte) (w : W) :
  exists r rc rest,
    write_file sink filename bs w
    = (EvWrite filename bs r :: rest, fst (sink w filename bs), Ret rc)
    /\ writes_of rest = [].
Proof.
  unfold write_file. destruct (sink w filename bs) as [w' []]; cbn [fst].
  - exists IoOk, 0, []. auto.
  - exists IoCantCreate, 1, [EvPrint (MsgCantCreate filename)]. auto.
  - exists IoCantWrite, 2, [EvPrint (MsgCantWrite filename)]. auto.
Qed.

Lemma bind_write_file {B} (filename : string) (bs : list byte) (k : N -> M W B) (w : W) :
  exists rc,
    bind (write_file sink filename bs) k w
    = (events_of (write_file sink filename bs w)
       ++ events_of (k rc (state_of (write_file sink filename bs w))),
       state_of (k rc (state_of (write_file sink filename bs w))),
       outcome_of (k rc (state_of (write_file sink filename bs w)))).
Proof.
  destruct (write_file_run filename bs w) as (r & rc & rest & E & _).
  exists rc. rewrite (bind_run _ _ _ _ _ _ E). rewrite E. reflexivity.
Qed.

Lemma writes_of_write_file (filename : string) (bs : list byte) (w : W) :
  writes_of (events_of (write_file sink filename bs w)) = [(filename, bs)].
Proof.
  destruct (write_file_run filename bs w) as (r & rc & rest & E & Hrest).
  rewrite E. unfold events_of. cbn [fst writes_of]. now rewrite Hrest.
Qed.

(** The end of a subsection pass: the chunks the walk returned are
    sorted, appended and written under the target name. *)
Lemma sections_pass_reassembles rec buffer dataSize name w chunks :
  outcome_of (walk sink mem rec true (buffer + 16 + dataSize) (S (List.length mem))
                (buffer + 16) 0 [] w) = Ret chunks ->
  outcome_of (sections_pass sink std_sort mem rec buffer dataSize (Some name) w) = Ret 0
  /\ writes_of (events_of (sections_pass sink std_sort mem rec buffer dataSize (Some name) w))
     = [(name, List.concat (map data (std_sort chunks)))].
Proof.
  intros Hwalk. unfold sections_pass, sizeof_PFS_FILE_HEADER. cbn [is_subsection].
  pose proof (silent_walk sink mem rec (buffer + 16 + dataSize) (S (List.length mem))
                (buffer + 16) 0 [] w) as [Hsil _].
  destruct (walk sink mem rec true (buffer + 16 + dataSize) (S (List.length mem))
              (buffer + 16) 0 [] w) as [[ev w1] o] eqn:E.
  unfold_run. subst o.
  rewrite (bind_run _ _ _ _ _ _ E).
  destruct (write_file_run name (List.concat (map data (std_sort chunks))) w1)
    as (r & rc & rest & Ew & Hrest).
  assert (E2 : reassemble sink std_sort (Some name) chunks w1
               = ((EvWrite name (List.concat (map data (std_sort chunks))) r :: rest) ++ [],
                  fst (sink w1 name (List.concat (map data (std_sort chunks)))), Ret tt)).
  { cbn [reassemble]. rewrite (bind_run _ _ _ _ _ _ Ew). reflexivity. }
  rewrite (bind_run _ _ _ _ _ _ E2).
  unfold_run. split; [reflexivity|].
  rewrite !writes_of_app, Hsil. cbn [writes_of]. rewrite Hrest. reflexivity.
Qed.

Lemma emits_only_bind {A} (name : string) (m : M W A) (k : A -> M W N) :
  silent m -> (forall a, emits_only name (k a)) -> emits_only name (bind m k).
Proof.
  intros Hm Hk w. destruct (Hm w) as [Hw _]. unfold bind.
  destruct (m w) as [[ev w1] [a| |]]; unfold_run.
  - specialize (Hk a w1). destruct (k a w1) as [[ev' w2] o]. unfold_run.
    rewrite writes_of_app, Hw. exact Hk.
  - split; [discriminate | auto].
  - split; [discriminate | auto].
Qed.

Lemma emits_only_failure (name : string) (m : message) :
  emits_only name (@bind W _ _ (print m) (fun _ => ret 1)).
Proof. intros w. split; [discriminate | reflexivity]. Qed.

Lemma emits_only_sections_pass rec buffer dataSize name :
  emits_only name (sections_pass sink std_sort mem rec buffer dataSize (Some name)).
Proof.
  intros w.
  destruct (outcome_of (walk sink mem rec true (buffer + 16 + dataSize) (S (List.length mem))
                          (buffer + 16) 0 [] w)) as [chunks| |] eqn:E.
  - destruct (sections_pass_reassembles rec buffer dataSize name w chunks E) as [Ho Hw].
    rewrite Ho, Hw. split; [eauto | congruence].
  - unfold sections_pass, sizeof_PFS_FILE_HEADER. cbn [is_subsection].
    pose proof (silent_walk sink mem rec (buffer + 16 + dataSize) (S (List.length mem))
                  (buffer + 16) 0 [] w) as [Hsil _].
    unfold bind.
    destruct (walk sink mem rec true (buffer + 16 + dataSize) (S (List.length mem))
                (buffer + 16) 0 [] w) as [[ev w1] o].
    unfold_run. subst o. split; [discriminate | auto].
  - unfold sections_pass, sizeof_PFS_FILE_HEADER. cbn [is_subsection].
    pose proof (silent_walk sink mem rec (buffer + 16 + dataSize) (S (List.length mem))
                  (buffer + 16) 0 [] w) as [Hsil _].
    unfold bind.
    destruct (walk sink mem rec true (buffer + 16 + dataSize) (S (List.length mem))
                (buffer + 16) 0 [] w) as [[ev w1] o].
    unfold_run. subst o. split; [discriminate | auto].
Qed.

Lemma silent_when_print (b : bool) (m : message) : silent (@when W b (print m)).
Proof. apply silent_when, silent_print. Qed.

(** A call with a target name writes that one file, and only when it
    returns 0. *)
Lemma emits_only_body rec buffer bufferSize name :
  emits_only name (pfs_extract_body sink std_sort mem rec buffer bufferSize (Some name)).
Proof.
  unfold pfs_extract_body.
  destruct (bufferSize <? _); [apply emits_only_failure|].
  apply emits_only_bind; [apply silent_lift_option|]. intros sg.
  apply emits_only_bind; [apply silent_lift_option|]. intros ver.
  apply emits_only_bind; [apply silent_lift_option|]. intros d.
  apply emits_only_bind; [apply silent_print|]. intros _.
  destruct (negb (sg =? _)); [apply emits_only_failure|].
  destruct (negb (ver =? 1)); [apply emits_only_failure|].
  destruct (bufferSize <? _); [apply emits_only_failure|].
  apply emits_only_bind; [apply silent_lift_option|]. intros fd.
  apply emits_only_bind; [apply silent_lift_option|]. intros fc.
  apply emits_only_bind; [apply silent_lift_option|]. intros fs.
  apply emits_only_bind; [apply silent_print|]. intros _.
  apply emits_only_bind; [apply silent_when_print|]. intros _.
  apply emits_only_bind; [apply silent_when_print|]. intros _.
  apply emits_only_sections_pass.
Qed.

(** The data block of a section in a normal pass, when it starts with the
    header magic: the raw write, then the call on the block, with a target
    name. *)
Lemma data_block_nested rec hdr ptr sectionNum version chunks bs w :
  DataSize hdr <> 0 ->
  span mem ptr (DataSize hdr) = Some bs ->
  load mem ptr 8 = Some PFS_HEADER_SIGNATURE ->
  data_block sink mem rec false hdr ptr sectionNum version chunks w
  = bind (write_file sink (section_filename sectionNum version "data") bs)
      (fun _ =>
         bind (rec ptr (DataSize hdr)
                 (Some (section_filename sectionNum version "payload")))
           (fun _ => ret chunks)) w.
Proof.
  intros Hd Hs Hl. unfold data_block.
  apply N.eqb_neq in Hd. rewrite Hd.
  rewrite (bind_lift_some _ _ _ _ Hs).
  apply equiv_bind; [apply equiv_refl|]. intros rc w1.
  rewrite (bind_lift_some _ _ _ _ Hl). now rewrite N.eqb_refl.
Qed.

End Reassembly.

(** What a subsection pass takes from the data block of a section: the
    order number at offset 0x3E and the bytes from offset 0x248 on, put
    behind the chunks collected so far. *)
Lemma data_block_collects {W} (sink : W -> string -> list byte -> W * io_result)
    mem rec hdr ptr sectionNum version collected w num bytes :
  DataSize hdr <> 0 ->
  load mem (ptr + 0x3E) 2 = Some num ->
  0x248 <= DataSize hdr ->
  span mem (ptr + 0x248) (DataSize hdr - 0x248) = Some bytes ->
  data_block sink mem rec true hdr ptr sectionNum version collected w
  = ([], w, Ret (collected ++ [ {| data := bytes; orderNum := num |} ])).
Proof.
  intros Hd Hnum Hsize Hbytes. unfold data_block.
  apply N.eqb_neq in Hd. rewrite Hd.
  rewrite (bind_lift_some _ _ _ _ Hnum). unfold vector_range.
  replace (ptr + 0x248 <=? ptr + DataSize hdr) with true
    by (symmetry; apply N.leb_le; lia).
  replace (ptr + DataSize hdr - (ptr + 0x248)) with (DataSize hdr - 0x248) by lia.
  rewrite (bind_lift_some _ _ _ _ Hbytes). reflexivity.
Qed.

(** C2 (as amended). When the walk of a subsection pass has returned its
    chunks, the pass sorts them, appends their bytes in sorted order and
    writes the result once, under the target name, and returns 0.  The
    sort is [std::sort]: its result is a permutation of the chunks in
    ascending order of their order numbers, with no promise about chunks
    of equal order number.  When the order numbers are pairwise distinct it
    is the result of the stable sort, which keeps equal order numbers in
    the order met; so the chunks (2,"BB"), (0,"AA"), (1,"CC") give
    "AACCBB". *)
Theorem chunks_sorted_and_written_once {W} (sink : W -> string -> list byte -> W * io_result)
    (std_sort : list PFS_CHUNK -> list PFS_CHUNK) (mem : list byte)
    (rec : N -> N -> option string -> M W N) (buffer dataSize : N) (name : string)
    (w : W) (chunks : list PFS_CHUNK) :
  std_sort_contract std_sort ->
  outcome_of (walk sink mem rec true (buffer + 16 + dataSize) (S (List.length mem))
                (buffer + 16) 0 [] w) = Ret chunks ->
  outcome_of (sections_pass sink std_sort mem rec buffer dataSize (Some name) w) = Ret 0
  /\ writes_of (events_of (sections_pass sink std_sort mem rec buffer dataSize (Some name) w))
     = [(name, List.concat (map data (std_sort chunks)))]
  /\ Permutation chunks (std_sort chunks)
  /\ Sorted chunk_le (std_sort chunks)
  /\ (NoDup (map orderNum chunks) -> std_sort chunks = stable_sort chunks)
  /\ (forall k, filter (fun c => orderNum c =? k) (stable_sort chunks)
                = filter (fun c => orderNum c =? k) chunks)
  /\ (chunks = [Samples.chunk 2 "BB"; Samples.chunk 0 "AA"; Samples.chunk 1 "CC"] ->
      List.concat (map data (std_sort chunks)) = Samples.text "AACCBB")
  /\ (forall hdr ptr sectionNum version collected w' num bytes,
         DataSize hdr <> 0 ->
         load mem (ptr + 0x3E) 2 = Some num ->
         0x248 <= DataSize hdr ->
         span mem (ptr + 0x248) (DataSize hdr - 0x248) = Some bytes ->
         data_block sink mem rec true hdr ptr sectionNum version collected w'
         = ([], w', Ret (collected ++ [ {| data := bytes; orderNum := num |} ]))).
Proof.
  intros Hc Hwalk.
  destruct (sections_pass_reassembles sink std_sort mem rec buffer dataSize name w chunks Hwalk)
    as [Ho Hw].
  destruct (Hc chunks) as [Hp Hs].
  repeat split; try assumption.
  4:{ intros hdr ptr sectionNum version collected w' num bytes Hd Hnum Hsize Hbytes.
      now apply data_block_collects. }
  - now apply std_sort_distinct.
  - intros k. apply stable_sort_stable.
  - intros ->. rewrite (std_sort_distinct std_sort _ Hc); [reflexivity|].
    cbn. repeat constructor; cbn; intuition discriminate.
Qed.

Lemma chunks_sorted_and_written_once_witness :
  std_sort_contract stable_sort
  /\ outcome_of (walk Build.ok_sink Samples.chunked_file
                   (pfs_extract Build.ok_sink stable_sort Samples.chunked_file 0)
                   true (88 + 16 + 1974) (S (List.length Samples.chunked_file))
                   (88 + 16) 0 [] tt)
     = Ret [Samples.chunk 2 "BB"; Samples.chunk 0 "AA"; Samples.chunk 1 "CC"]
  /\ writes_of (events_of (sections_pass Build.ok_sink stable_sort Samples.chunked_file
                             (pfs_extract Build.ok_sink stable_sort Samples.chunked_file 0)
                             88 1974 (Some "section_0_.payload"%string) tt))
     = [("section_0_.payload"%string, Samples.text "AACCBB")].
Proof.
  assert (H : outcome_of (walk Build.ok_sink Samples.chunked_file
                   (pfs_extract Build.ok_sink stable_sort Samples.chunked_file 0)
                   true (88 + 16 + 1974) (S (List.length Samples.chunked_file))
                   (88 + 16) 0 [] tt)
     = Ret [Samples.chunk 2 "BB"; Samples.chunk 0 "AA"; Samples.chunk 1 "CC"])
    by (vm_compute; reflexivity).
  split; [exact stable_sort_contract|]. split; [exact H|].
  destruct (chunks_sorted_and_written_once Build.ok_sink stable_sort Samples.chunked_file
              (pfs_extract Build.ok_sink stable_sort Samples.chunked_file 0)
              88 1974 "section_0_.payload" tt _ stable_sort_contract H)
    as (_ & Hw & _ & _ & _ & _ & Hex & _).
  rewrite Hw, Hex; reflexivity.
Defined.

(** A permutation of two lists that are written out: each element of
    the first is looked up in the second. *)
Ltac split_at a r :=
  lazymatch r with
  | a :: ?t => constr:((@nil PFS_CHUNK, t))
  | ?h :: ?t =>
      lazymatch split_at a t with
      | (?l1, ?l2) => constr:((h :: l1, l2))
      end
  end.

Ltac closed_permutation :=
  repeat lazymatch goal with
         | |- Permutation [] [] => apply perm_nil
         | |- Permutation (?a :: ?l) ?r =>
             lazymatch split_at a r with
             | (?l1, ?l2) =>
                 change (Permutation (a :: l) (l1 ++ a :: l2));
                 apply Permutation_cons_app; cbn [app]
             end
         end.

(** C2 (as stated) fails: [std::sort] is not a stable sort.  The sample
    file holds a nested container of seventeen chunks that all carry the
    order number 1 and the letters A to Q, met in this order.  With the
    [std::sort] of libstdc++ they are reassembled to "IQPONMLKJAHGFEDCB",
    where a stable sort gives "ABCDEFGHIJKLMNOPQ": the first partitioning
    step of the introsort, which a vector of more than 16 elements goes
    through, swaps elements that compare equal.  The result is a
    permutation in ascending order all the same, as the standard asks.
    Two chunks of the same number stay in order, and the three chunks of
    the claim give "AACCBB". *)
Lemma stable_sort_counterexample :
  map orderNum tied17_chunks = repeat 1 17
  /\ outcome_of (walk Build.ok_sink tied17_file
                   (pfs_extract Build.ok_sink Libstdcxx.sort tied17_file 0)
                   true (88 + 16 + 11169)
                   (S (List.length tied17_file)) (88 + 16) 0 [] tt)
     = Ret tied17_chunks
  /\ writes_of (events_of (main_extract Build.ok_sink Libstdcxx.sort tied17_file tt))
     = [("section_0_.data"%string, tied17);
        ("section_0_.payload"%string, Samples.text "IQPONMLKJAHGFEDCB")]
  /\ outcome_of (main_extract Build.ok_sink Libstdcxx.sort tied17_file tt) = Ret 0
  /\ List.concat (map data (stable_sort tied17_chunks)) = Samples.text "ABCDEFGHIJKLMNOPQ"
  /\ Libstdcxx.sort tied17_chunks <> stable_sort tied17_chunks
  /\ Permutation tied17_chunks (Libstdcxx.sort tied17_chunks)
  /\ Sorted chunk_le (Libstdcxx.sort tied17_chunks)
  /\ List.concat
       (map data (Libstdcxx.sort
                    [Samples.chunk 2 "BB"; Samples.chunk 0 "AA"; Samples.chunk 1 "CC"]))
     = Samples.text "AACCBB"
  /\ writes_of (events_of (main_extract Build.ok_sink Libstdcxx.sort Samples.tied_file tt))
     = [("section_0_.data"%string, Samples.tied);
        ("section_0_.payload"%string, Samples.text "AB")].
Proof.
  split; [reflexivity|].
  split; [vm_compute; reflexivity|].
  assert (E : exists r, main_extract Build.ok_sink Libstdcxx.sort tied17_file tt = r
                        /\ writes_of (events_of r)
                           = [("section_0_.data"%string, tied17);
                              ("section_0_.payload"%string,
                               Samples.text "IQPONMLKJAHGFEDCB")]
                        /\ outcome_of r = Ret 0).
  { eexists. split; [vm_compute; reflexivity|]. split; vm_compute; reflexivity. }
  destruct E as (r & -> & Hw & Ho).
  split; [exact Hw|]. split; [exact Ho|].
  split; [vm_compute; reflexivity|].
  split; [vm_compute; discriminate|].
  assert (P : exists r2, Libstdcxx.sort tied17_chunks = r2
                        /\ Permutation tied17_chunks r2 /\ Sorted chunk_le r2).
  { eexists. split; [vm_compute; reflexivity|]. split.
    - vm_compute. closed_permutation.
    - repeat constructor; unfold chunk_le; cbn [orderNum]; apply N.le_refl. }
  destruct P as (r2 & -> & Hp & Hs).
  split; [exact Hp|]. split; [exact Hs|].
  split; vm_compute; reflexivity.
Qed.

(** ** Which pass printed what *)

Lemma all_events_ret {W A} (P : event -> bool) (a : A) : all_events P (@ret W A a).
Proof. intros w. reflexivity. Qed.

Lemma all_events_undefined {W A} (P : event -> bool) : all_events P (@undefined W A).
Proof. intros w. reflexivity. Qed.

Lemma all_events_out_of_fuel {W A} (P : event -> bool) : all_events P (@out_of_fuel W A).
Proof. intros w. reflexivity. Qed.

Lemma all_events_lift_option {W A} (P : event -> bool) (o : option A) :
  all_events P (@lift_option W A o).
Proof. destruct o; [apply all_events_ret | apply all_events_undefined]. Qed.

Lemma all_events_print {W} (P : event -> bool) (m : message) :
  P (EvPrint m) = true -> all_events P (@print W m).
Proof. intros H w. unfold print, events_of. cbn. now rewrite H. Qed.

Lemma all_events_bind {W A B} (P : event -> bool) (m : M W A) (k : A -> M W B) :
  all_events P m -> (forall a, all_events P (k a)) -> all_events P (bind m k).
Proof.
  intros Hm Hk w. specialize (Hm w). unfold bind.
  destruct (m w) as [[ev w1] [a| |]]; unfold_run; auto.
  specialize (Hk a w1). destruct (k a w1) as [[ev' w2] o]. unfold_run.
  rewrite forallb_app, Hm, Hk. reflexivity.
Qed.

Lemma all_events_when {W} (P : event -> bool) (b : bool) (m : M W unit) :
  all_events P m -> all_events P (when b m).
Proof. destruct b; [auto | intros _; apply all_events_ret]. Qed.

Lemma section_numbers_none (tr : list event) :
  forallb not_normal_header tr = true -> section_numbers false tr = [].
Proof.
  induction tr as [|e tr IH]; [reflexivity|].
  cbn [forallb]. intros H. apply andb_prop in H as [He Ht].
  destruct e as [[]|]; cbn [section_numbers]; auto.
  destruct isSubsection; [cbn; auto | discriminate].
Qed.

Lemma section_numbers_app (b : bool) (a c : list event) :
  section_numbers b (a ++ c) = section_numbers b a ++ section_numbers b c.
Proof.
  induction a as [|e a IH]; [reflexivity|].
  destruct e as [[]|]; cbn [app section_numbers]; auto.
  destruct (Bool.eqb isSubsection b); cbn; now rewrite IH.
Qed.

Section Headers.

Context {W : Type} (sink : W -> string -> list byte -> W * io_result).
Variable std_sort : list PFS_CHUNK -> list PFS_CHUNK.
Variable mem : list byte.

Lemma not_normal_write_file (filename : string) (bs : list byte) :
  all_events not_normal_header (write_file sink filename bs).
Proof.
  intros w. unfold write_file. destruct (sink w filename bs) as [w' []]; reflexivity.
Qed.

Lemma not_normal_show_version (hdr : PFS_SECTION_HEADER) :
  all_events not_normal_header (@show_version W hdr).
Proof.
  intros w. rewrite show_version_run. unfold events_of. cbn [fst].
  rewrite forallb_app. apply andb_true_intro. split.
  - induction (snd (decode_components (components hdr))) as [|[t v] ws IH]; auto.
  - destruct (fst (decode_components (components hdr))); reflexivity.
Qed.

Lemma not_normal_advance (ptr size : N) :
  all_events not_normal_header (@advance W mem ptr size).
Proof.
  unfold advance. destruct (_ <=? _); [apply all_events_ret | apply all_events_undefined].
Qed.

Lemma not_normal_emit_block (b : bool) (filename : string) (ptr size : N) :
  all_events not_normal_header (emit_block sink mem b filename ptr size).
Proof.
  unfold emit_block. destruct (size =? 0); [apply all_events_ret|].
  destruct b; [apply all_events_ret|].
  apply all_events_bind; [apply all_events_lift_option|]. intros bs.
  apply all_events_bind; [apply not_normal_write_file|]. intros _.
  apply all_events_ret.
Qed.

Section HeadersWithRec.

Variable rec : N -> N -> option string -> M W N.
Variable isSubsection : bool.
Hypothesis rec_not_normal :
  isSubsection = true
  \/ forall p s name, all_events not_normal_header (rec p s (Some name)).

Lemma not_normal_data_block hdr ptr sectionNum version chunks :
  all_events not_normal_header
    (data_block sink mem rec isSubsection hdr ptr sectionNum version chunks).
Proof.
  unfold data_block. destruct (DataSize hdr =? 0); [apply all_events_ret|].
  destruct isSubsection eqn:Eb.
  - apply all_events_bind; [apply all_events_lift_option|]. intros num.
    apply all_events_bind; [|intros bytes; apply all_events_ret].
    unfold vector_range.
    destruct (_ <=? _); [apply all_events_lift_option | apply all_events_undefined].
  - destruct rec_not_normal as [H|H]; [discriminate|].
    apply all_events_bind; [apply all_events_lift_option|]. intros bs.
    apply all_events_bind; [apply not_normal_write_file|]. intros _.
    apply all_events_bind; [apply all_events_lift_option|]. intros sg.
    destruct (sg =? PFS_HEADER_SIGNATURE); [|apply all_events_ret].
    apply all_events_bind; [apply H|]. intros _. apply all_events_ret.
Qed.

(** What follows the header line of a section brings no further header
    line of a normal pass. *)
Lemma not_normal_section_rest hdr off sectionNum chunks :
  all_events not_normal_header
    (version <- show_version hdr ;;
     ptr <- advance mem off sizeof_PFS_SECTION_HEADER ;;
     chunks' <- data_block sink mem rec isSubsection hdr ptr sectionNum version chunks ;;
     ptr <- advance mem ptr (DataSize hdr) ;;
     emit_block sink mem isSubsection (section_filename sectionNum version "sign")
       ptr (DataSignatureSize hdr) ;;
     ptr <- advance mem ptr (DataSignatureSize hdr) ;;
     emit_block sink mem isSubsection (section_filename sectionNum version "meta")
       ptr (MetadataSize hdr) ;;
     ptr <- advance mem ptr (MetadataSize hdr) ;;
     emit_block sink mem isSubsection (section_filename sectionNum version "mtsg")
       ptr (MetadataSignatureSize hdr) ;;
     ptr <- advance mem ptr (MetadataSignatureSize hdr) ;;
     ret (ptr, chunks')).
Proof.
  apply all_events_bind; [apply not_normal_show_version|]. intros version.
  apply all_events_bind; [apply not_normal_advance|]. intros ptr0.
  apply all_events_bind; [apply not_normal_data_block|]. intros chunks'.
  apply all_events_bind; [apply not_normal_advance|]. intros ptr1.
  apply all_events_bind; [apply not_normal_emit_block|]. intros _.
  apply all_events_bind; [apply not_normal_advance|]. intros ptr2.
  apply all_events_bind; [apply not_normal_emit_block|]. intros _.
  apply all_events_bind; [apply not_normal_advance|]. intros ptr3.
  apply all_events_bind; [apply not_normal_emit_block|]. intros _.
  apply all_events_bind; [apply not_normal_advance|]. intros ptr4.
  apply all_events_ret.
Qed.

End HeadersWithRec.

Lemma not_normal_section_step rec off sectionNum chunks :
  all_events not_normal_header (section_step sink mem rec true off sectionNum chunks).
Proof.
  unfold section_step.
  apply all_events_bind; [apply all_events_lift_option|]. intros hdr.
  apply all_events_bind; [apply all_events_print; reflexivity|]. intros _.
  apply not_normal_section_rest. left. reflexivity.
Qed.

Lemma not_normal_walk rec dataEnd (fuel : nat) :
  forall off sectionNum chunks,
    all_events not_normal_header (walk sink mem rec true dataEnd fuel off sectionNum chunks).
Proof.
  induction fuel as [|fuel IH]; intros off sectionNum chunks; cbn [walk];
    destruct (off <? dataEnd); try apply all_events_ret.
  - apply all_events_out_of_fuel.
  - apply all_events_bind; [apply not_normal_section_step|]. intros [ptr chunks']. apply IH.
Qed.

Lemma not_normal_failure (m : message) :
  not_normal_header (EvPrint m) = true ->
  all_events not_normal_header (@bind W _ _ (print m) (fun _ => ret 1)).
Proof.
  intros H. apply all_events_bind; [now apply all_events_print|].
  intros _. apply all_events_ret.
Qed.

(** A call with a target name prints no section header of a normal pass. *)
Lemma not_normal_body rec buffer bufferSize name :
  all_events not_normal_header
    (pfs_extract_body sink std_sort mem rec buffer bufferSize (Some name)).
Proof.
  unfold pfs_extract_body.
  destruct (bufferSize <? _); [now apply not_normal_failure|].
  apply all_events_bind; [apply all_events_lift_option|]. intros sg.
  apply all_events_bind; [apply all_events_lift_option|]. intros ver.
  apply all_events_bind; [apply all_events_lift_option|]. intros d.
  apply all_events_bind; [now apply all_events_print|]. intros _.
  destruct (negb (sg =? _)); [now apply not_normal_failure|].
  destruct (negb (ver =? 1)); [now apply not_normal_failure|].
  destruct (bufferSize <? _); [now apply not_normal_failure|].
  apply all_events_bind; [apply all_events_lift_option|]. intros fd.
  apply all_events_bind; [apply all_events_lift_option|]. intros fc.
  apply all_events_bind; [apply all_events_lift_option|]. intros fs.
  apply all_events_bind; [now apply all_events_print|]. intros _.
  apply all_events_bind; [now apply all_events_when, all_events_print|]. intros _.
  apply all_events_bind; [now apply all_events_when, all_events_print|]. intros _.
  unfold sections_pass.
  apply all_events_bind; [apply not_normal_walk|]. intros chunks.
  apply all_events_bind; [|intros _; apply all_events_ret].
  cbn [reassemble].
  apply all_events_bind; [apply not_normal_write_file|]. intros _. apply all_events_ret.
Qed.

Lemma not_normal_call (depth : nat) buffer bufferSize name :
  all_events not_normal_header
    (pfs_extract sink std_sort mem depth buffer bufferSize (Some name)).
Proof.
  destruct depth; [apply all_events_out_of_fuel | apply not_normal_body].
Qed.

End Headers.

(** ** Nested containers *)

(** C5 (as amended). When the data block of a section in a normal pass
    starts with the header magic, the block is parsed by a recursive call
    that carries the target name [section_<index>_<version>payload], and a
    call with a target name is a subsection pass: whatever the block
    holds, it prints no section header of a normal pass and writes none of
    the per-section files, only, when it returns 0, the one reassembled
    file under its target name.  The call from [main] carries no name and
    is a normal pass. *)
Theorem nested_parse_is_subsection_pass {W}
    (sink : W -> string -> list byte -> W * io_result)
    (std_sort : list PFS_CHUNK -> list PFS_CHUNK) (mem : list byte) (depth : nat)
    (hdr : PFS_SECTION_HEADER) (ptr sectionNum : N) (version : string)
    (chunks : list PFS_CHUNK) (bs : list byte) (w : W) :
  DataSize hdr <> 0 ->
  span mem ptr (DataSize hdr) = Some bs ->
  load mem ptr 8 = Some PFS_HEADER_SIGNATURE ->
  data_block sink mem (pfs_extract sink std_sort mem depth) false
    hdr ptr sectionNum version chunks w
  = bind (write_file sink (section_filename sectionNum version "data") bs)
      (fun _ =>
         bind (pfs_extract sink std_sort mem depth ptr (DataSize hdr)
                 (Some (section_filename sectionNum version "payload")))
           (fun _ => ret chunks)) w
  /\ (forall d buffer bufferSize name w',
         (outcome_of (pfs_extract sink std_sort mem (S d) buffer bufferSize (Some name) w')
          = Ret 0 ->
          exists out,
            writes_of (events_of
                         (pfs_extract sink std_sort mem (S d) buffer bufferSize (Some name) w'))
            = [(name, out)])
         /\ (outcome_of (pfs_extract sink std_sort mem (S d) buffer bufferSize (Some name) w')
             <> Ret 0 ->
             writes_of (events_of
                          (pfs_extract sink std_sort mem (S d) buffer bufferSize (Some name) w'))
             = [])
         /\ section_numbers false
              (events_of (pfs_extract sink std_sort mem (S d) buffer bufferSize (Some name) w'))
            = [])
  /\ main_extract sink std_sort mem w
     = pfs_extract sink std_sort mem (S (List.length mem)) 0 (N.of_nat (List.length mem)) None w
  /\ is_subsection None = false
  /\ (forall name, is_subsection (Some name) = true).
Proof.
  intros Hd Hs Hl.
  split; [now apply data_block_nested|].
  split; [|repeat split].
  intros d buffer bufferSize name w'.
  destruct (emits_only_body sink std_sort mem (pfs_extract sink std_sort mem d)
              buffer bufferSize name w') as [H0 H1].
  split; [exact H0|]. split; [exact H1|].
  apply section_numbers_none. apply (not_normal_call sink std_sort mem (S d)).
Qed.

Lemma nested_parse_is_subsection_pass_witness :
  DataSize (Samples.first_header Samples.nested_signed_file) <> 0
  /\ load Samples.nested_signed_file 88 8 = Some PFS_HEADER_SIGNATURE
  /\ data_block Build.ok_sink Samples.nested_signed_file
       (pfs_extract Build.ok_sink stable_sort Samples.nested_signed_file 1) false
       (Samples.first_header Samples.nested_signed_file) 88 0 "FF.10.1." [] tt
     = bind (write_file Build.ok_sink "section_0_FF.10.1.data"
               (Samples.block Samples.nested_signed_file 88 1350))
         (fun _ =>
            bind (pfs_extract Build.ok_sink stable_sort Samples.nested_signed_file 1 88 1350
                    (Some "section_0_FF.10.1.payload"%string))
              (fun _ => ret [])) tt.
Proof.
  assert (H1 : DataSize (Samples.first_header Samples.nested_signed_file) <> 0)
    by (vm_compute; discriminate).
  assert (H2 : span Samples.nested_signed_file 88
                 (DataSize (Samples.first_header Samples.nested_signed_file))
               = Some (Samples.block Samples.nested_signed_file 88 1350))
    by (vm_compute; reflexivity).
  assert (H3 : load Samples.nested_signed_file 88 8 = Some PFS_HEADER_SIGNATURE)
    by (vm_compute; reflexivity).
  split; [exact H1|]. split; [exact H3|].
  exact (proj1 (nested_parse_is_subsection_pass Build.ok_sink stable_sort
                  Samples.nested_signed_file 1
                  (Samples.first_header Samples.nested_signed_file) 88 0 "FF.10.1." []
                  (Samples.block Samples.nested_signed_file 88 1350) tt H1 H2 H3)).
Defined.

(** C5 (as stated) fails: the nested container of the sample file has two
    sections, the first with a data signature.  Parsed as a normal pass
    the block would give three per-section files; the run writes none of
    them, only the raw block, the reassembled payload and the outer
    signature. *)
Lemma nested_normal_mode_counterexample :
  load Samples.nested_signed_file 88 8 = Some PFS_HEADER_SIGNATURE
  /\ map fst (writes_of (events_of (main_extract Build.ok_sink stable_sort
                                      Samples.nested_signed_file tt)))
     = ["section_0_FF.10.1.data"%string; "section_0_FF.10.1.payload"%string;
        "section_0_FF.10.1.sign"%string]
  /\ map fst (writes_of (events_of (pfs_extract Build.ok_sink stable_sort
                                      Samples.nested_signed_file 2 88 1350 None tt)))
     = ["section_0_7.data"%string; "section_0_7.sign"%string; "section_1_.data"%string]
  /\ section_numbers false
       (events_of (main_extract Build.ok_sink stable_sort Samples.nested_signed_file tt))
     = [0]
  /\ section_numbers true
       (events_of (main_extract Build.ok_sink stable_sort Samples.nested_signed_file tt))
     = [0; 1].
Proof. repeat split; vm_compute; reflexivity. Qed.

(** C6 (as amended). In a normal pass, a data block that is not empty and
    starts with the header magic is first written out raw, under
    [section_<index>_<version>data]; only then is it parsed.  The events
    of the nested call follow those of the raw write.  The payload file is
    written when the nested call returns 0, and is not when the nested
    call rejects the block; either way the raw file has been written and
    the section goes on. *)
Theorem raw_data_written_before_recursion {W}
    (sink : W -> string -> list byte -> W * io_result)
    (std_sort : list PFS_CHUNK -> list PFS_CHUNK) (mem : list byte) (depth : nat)
    (hdr : PFS_SECTION_HEADER) (ptr sectionNum : N) (version : string)
    (chunks : list PFS_CHUNK) (bs : list byte) (w : W) :
  DataSize hdr <> 0 ->
  span mem ptr (DataSize hdr) = Some bs ->
  load mem ptr 8 = Some PFS_HEADER_SIGNATURE ->
  let dataName := section_filename sectionNum version "data" in
  let payloadName := section_filename sectionNum version "payload" in
  let raw := write_file sink dataName bs w in
  let nested := pfs_extract sink std_sort mem (S depth) ptr (DataSize hdr)
                  (Some payloadName) (state_of raw) in
  let r := data_block sink mem (pfs_extract sink std_sort mem (S depth)) false
             hdr ptr sectionNum version chunks w in
  events_of r = events_of raw ++ events_of nested
  /\ (exists io rest, events_of r = EvWrite dataName bs io :: rest)
  /\ writes_of (events_of r) = (dataName, bs) :: writes_of (events_of nested)
  /\ (outcome_of nested = Ret 0 ->
      exists out, writes_of (events_of r) = [(dataName, bs); (payloadName, out)])
  /\ (outcome_of nested <> Ret 0 -> writes_of (events_of r) = [(dataName, bs)])
  /\ (forall rc, outcome_of nested = Ret rc -> outcome_of r = Ret chunks).
Proof.
  intros Hd Hs Hl dataName payloadName raw nested r.
  assert (Hr : r = (events_of raw ++ events_of nested, state_of nested,
                    match outcome_of nested with
                    | Ret _ => Ret chunks
                    | Undefined => Undefined
                    | OutOfFuel => OutOfFuel
                    end)).
  { unfold r. rewrite (data_block_nested sink mem _ hdr ptr sectionNum version chunks bs w)
      by assumption.
    fold dataName payloadName.
    destruct (bind_write_file sink dataName bs
                (fun _ => bind (pfs_extract sink std_sort mem (S depth) ptr (DataSize hdr)
                                  (Some payloadName)) (fun _ => ret chunks)) w)
      as [rc ->].
    fold raw. unfold bind. fold nested.
    destruct nested as [[ev w2] [rc'| |]]; unfold ret; unfold_run;
      rewrite ?app_nil_r; reflexivity. }
  assert (Hw : writes_of (events_of r) = (dataName, bs) :: writes_of (events_of nested)).
  { rewrite Hr. unfold events_of at 1. cbn [fst].
    rewrite writes_of_app. unfold raw. now rewrite writes_of_write_file. }
  destruct (emits_only_body sink std_sort mem (pfs_extract sink std_sort mem depth)
              ptr (DataSize hdr) payloadName (state_of raw)) as [H0 H1].
  change (pfs_extract_body sink std_sort mem (pfs_extract sink std_sort mem depth)
            ptr (DataSize hdr) (Some payloadName) (state_of raw)) with nested in H0, H1.
  split; [rewrite Hr; reflexivity|].
  split.
  { destruct (write_file_run sink dataName bs w) as (io & rc & rest & E & _).
    exists io, (rest ++ events_of nested). rewrite Hr. unfold events_of at 1. cbn [fst].
    unfold raw. rewrite E. reflexivity. }
  split; [exact Hw|].
  split; [intros Hn; destruct (H0 Hn) as [out Ho]; exists out; now rewrite Hw, Ho|].
  split; [intros Hn; now rewrite Hw, (H1 Hn)|].
  intros rc Hn. rewrite Hr. unfold outcome_of at 1. cbn [snd]. now rewrite Hn.
Qed.

Lemma raw_data_written_before_recursion_witness :
  DataSize (Samples.first_header Samples.nested_signed_file) <> 0
  /\ span Samples.nested_signed_file 88
       (DataSize (Samples.first_header Samples.nested_signed_file))
     = Some (Samples.block Samples.nested_signed_file 88 1350)
  /\ load Samples.nested_signed_file 88 8 = Some PFS_HEADER_SIGNATURE
  /\ writes_of
       (events_of
          (data_block Build.ok_sink Samples.nested_signed_file
             (pfs_extract Build.ok_sink stable_sort Samples.nested_signed_file 1) false
             (Samples.first_header Samples.nested_signed_file) 88 0 "FF.10.1." [] tt))
     = [("section_0_FF.10.1.data"%string, Samples.block Samples.nested_signed_file 88 1350);
        ("section_0_FF.10.1.payload"%string, Samples.text "AABB")].
Proof.
  assert (H1 : DataSize (Samples.first_header Samples.nested_signed_file) <> 0)
    by (vm_compute; discriminate).
  assert (H2 : span Samples.nested_signed_file 88
                 (DataSize (Samples.first_header Samples.nested_signed_file))
               = Some (Samples.block Samples.nested_signed_file 88 1350))
    by (vm_compute; reflexivity).
  assert (H3 : load Samples.nested_signed_file 88 8 = Some PFS_HEADER_SIGNATURE)
    by (vm_compute; reflexivity).
  split; [exact H1|]. split; [exact H2|]. split; [exact H3|].
  pose proof (raw_data_written_before_recursion Build.ok_sink stable_sort
                Samples.nested_signed_file 0
                (Samples.first_header Samples.nested_signed_file) 88 0 "FF.10.1." []
                (Samples.block Samples.nested_signed_file 88 1350) tt H1 H2 H3) as H.
  cbv zeta in H. destruct H as (_ & _ & Hw & _).
  rewrite Hw. vm_compute. reflexivity.
Defined.

(** C6 (as stated) fails: a section whose data is the eight bytes of the
    header magic and nothing else.  The raw bytes are written; the nested
    call rejects the block as too small, so no payload file follows; the
    pass still returns 0. *)
Lemma payload_counterexample :
  DataSize (Samples.first_header Samples.magic_only_file) = 8
  /\ load Samples.magic_only_file 88 8 = Some PFS_HEADER_SIGNATURE
  /\ writes_of (events_of (main_extract Build.ok_sink stable_sort Samples.magic_only_file tt))
     = [("section_0_.data"%string, Samples.text "PFS.HDR.")]
  /\ format_errors
       (messages_of
          (events_of (main_extract Build.ok_sink stable_sort Samples.magic_only_file tt)))
     = [TooSmall]
  /\ outcome_of (main_extract Build.ok_sink stable_sort Samples.magic_only_file tt) = Ret 0.
Proof. repeat split; vm_compute; reflexivity. Qed.

(** ** Failing writes *)
















Section TwoSinks.

Context {W1 W2 : Type}.
Variable sink1 : W1 -> string -> list byte -> W1 * io_result.
Variable sink2 : W2 -> string -> list byte -> W2 * io_result.
Variable std_sort : list PFS_CHUNK -> list PFS_CHUNK.
Variable mem : list byte.





End TwoSinks.

Section Reports.

Context {W : Type} (sink : W -> string -> list byte -> W * io_result).
Variable std_sort : list PFS_CHUNK -> list PFS_CHUNK.
Variable mem : list byte.



End Reports.

(** The sample of C9: on a file system where no file can be created, the
    four blocks of the sample section are still all attempted, each
    failure is reported, and the call returns 0. *)
Example failing_sink_sample :
  writes_of (events_of (main_extract Build.failing_sink stable_sort Samples.plain_file tt))
  = writes_of (events_of (main_extract Build.ok_sink stable_sort Samples.plain_file tt))
  /\ map fst (writes_of (events_of (main_extract Build.failing_sink stable_sort
                                      Samples.plain_file tt)))
     = ["section_0_2.data"%string; "section_0_2.sign"%string;
        "section_0_2.meta"%string; "section_0_2.mtsg"%string]
  /\ filter (fun m => match m with MsgCantCreate _ => true | _ => false end)
       (messages_of (events_of (main_extract Build.failing_sink stable_sort
                                  Samples.plain_file tt)))
     = [MsgCantCreate "section_0_2.data"; MsgCantCreate "section_0_2.sign";
        MsgCantCreate "section_0_2.meta"; MsgCantCreate "section_0_2.mtsg"]
  /\ outcome_of (main_extract Build.failing_sink stable_sort Samples.plain_file tt) = Ret 0.
Proof. repeat split; vm_compute; reflexivity. Qed.

(** ** The section counter *)

Lemma bind_assoc {W A B C} (m : M W A) (f : A -> M W B) (g : B -> M W C) (w : W) :
  bind (bind m f) g w = bind m (fun a => bind (f a) g) w.
Proof.
  unfold bind. destruct (m w) as [[ev w1] [a| |]]; try reflexivity.
  destruct (f a w1) as [[ev' w2] [b| |]]; try reflexivity.
  destruct (g b w2) as [[ev'' w3] o]. now rewrite app_assoc.
Qed.

Lemma next_sectionNum_lt (n : N) : next_sectionNum n < 256.
Proof. unfold next_sectionNum. apply N.mod_lt. discriminate. Qed.

Lemma numbering_cons (first : N) (k : nat) :
  first < 256 -> numbering first (S k) = first :: numbering (next_sectionNum first) k.
Proof.
  intros H. unfold numbering. cbn [seq map]. f_equal.
  - rewrite N.add_0_r. now apply N.mod_small.
  - rewrite <- seq_shift, map_map. apply map_ext. intros i.
    unfold next_sectionNum. rewrite N.Div0.add_mod_idemp_l. f_equal. lia.
Qed.

Lemma numbering_nth (k i : nat) :
  nth_error (numbering 0 k) i
  = if Nat.ltb i k then Some (N.of_nat i mod 256) else None.
Proof.
  unfold numbering. destruct (Nat.ltb_spec i k) as [H|H].
  - rewrite nth_error_map, nth_error_seq.
    replace (Nat.ltb i k) with true by (symmetry; now apply Nat.ltb_lt).
    reflexivity.
  - apply nth_error_None. rewrite length_map, length_seq. exact H.
Qed.

Lemma numbered_quiet {W A} (first : N) (m : M W A) :
  all_events not_normal_header m -> numbered first m.
Proof.
  intros H w. exists 0%nat. now rewrite section_numbers_none.
Qed.

Lemma numbered_bind_quiet {W A B} (first : N) (m : M W A) (k : A -> M W B) :
  all_events not_normal_header m -> (forall a, numbered first (k a)) ->
  numbered first (bind m k).
Proof.
  intros Hm Hk w. specialize (Hm w). unfold bind.
  destruct (m w) as [[ev w1] [a| |]]; unfold_run;
    try (exists 0%nat; now rewrite section_numbers_none).
  destruct (Hk a w1) as [n Hn]. destruct (k a w1) as [[ev' w2] o]. unfold_run.
  exists n. now rewrite section_numbers_app, section_numbers_none.
Qed.

Lemma numbered_then_quiet {W A B} (first : N) (m : M W A) (k : A -> M W B) :
  numbered first m -> (forall a, all_events not_normal_header (k a)) ->
  numbered first (bind m k).
Proof.
  intros Hm Hk w. destruct (Hm w) as [n Hn]. unfold bind.
  destruct (m w) as [[ev w1] [a| |]]; unfold_run; try (now exists n).
  specialize (Hk a w1). destruct (k a w1) as [[ev' w2] o]. unfold_run.
  exists n. now rewrite section_numbers_app, Hn, (section_numbers_none ev'), app_nil_r.
Qed.

Section Counter.

Context {W : Type} (sink : W -> string -> list byte -> W * io_result).
Variable std_sort : list PFS_CHUNK -> list PFS_CHUNK.
Variable mem : list byte.
Variable rec : N -> N -> option string -> M W N.
Hypothesis rec_not_normal :
  forall p s name, all_events not_normal_header (rec p s (Some name)).

(** A section of the normal pass prints its own number, once, and what
    comes after it is numbered from the next number on. *)
Lemma numbered_section_step {B} off sectionNum chunks (k : N * list PFS_CHUNK -> M W B) :
  sectionNum < 256 ->
  (forall r, numbered (next_sectionNum sectionNum) (k r)) ->
  numbered sectionNum (bind (section_step sink mem rec false off sectionNum chunks) k).
Proof.
  intros Hlt Hk w. unfold section_step. rewrite bind_assoc.
  destruct (read_section_header mem off) as [hdr|] eqn:E.
  - cbn [lift_option]. rewrite bind_ret_l, bind_assoc, bind_print.
    match goal with
    | |- context [events_of (bind ?m k w)] =>
        destruct (numbered_bind_quiet (next_sectionNum sectionNum) m k
                    (not_normal_section_rest sink mem rec false
                       (or_intror rec_not_normal) hdr off sectionNum chunks)
                    Hk w) as [n Hn]
    end.
    exists (S n). rewrite numbering_cons by exact Hlt.
    unfold events_of at 1. cbn [fst section_numbers Bool.eqb]. now rewrite Hn.
  - cbn [lift_option]. rewrite bind_undefined. exists 0%nat. reflexivity.
Qed.

Lemma numbered_walk dataEnd (fuel : nat) :
  forall off sectionNum chunks,
    sectionNum < 256 ->
    numbered sectionNum (walk sink mem rec false dataEnd fuel off sectionNum chunks).
Proof.
  induction fuel as [|fuel IH]; intros off sectionNum chunks Hlt; cbn [walk];
    destruct (off <? dataEnd);
    try (apply numbered_quiet; first [apply all_events_ret | apply all_events_out_of_fuel]).
  apply numbered_section_step; [exact Hlt|].
  intros [ptr chunks']. apply IH. apply next_sectionNum_lt.
Qed.

Lemma numbered_body buffer bufferSize :
  numbered 0 (pfs_extract_body sink std_sort mem rec buffer bufferSize None).
Proof.
  unfold pfs_extract_body.
  destruct (bufferSize <? _); [now apply numbered_quiet, not_normal_failure|].
  apply numbered_bind_quiet; [apply all_events_lift_option|]. intros sg.
  apply numbered_bind_quiet; [apply all_events_lift_option|]. intros ver.
  apply numbered_bind_quiet; [apply all_events_lift_option|]. intros d.
  apply numbered_bind_quiet; [now apply all_events_print|]. intros _.
  destruct (negb (sg =? _)); [now apply numbered_quiet, not_normal_failure|].
  destruct (negb (ver =? 1)); [now apply numbered_quiet, not_normal_failure|].
  destruct (bufferSize <? _); [now apply numbered_quiet, not_normal_failure|].
  apply numbered_bind_quiet; [apply all_events_lift_option|]. intros fd.
  apply numbered_bind_quiet; [apply all_events_lift_option|]. intros fc.
  apply numbered_bind_quiet; [apply all_events_lift_option|]. intros fs.
  apply numbered_bind_quiet; [now apply all_events_print|]. intros _.
  apply numbered_bind_quiet; [now apply all_events_when, all_events_print|]. intros _.
  apply numbered_bind_quiet; [now apply all_events_when, all_events_print|]. intros _.
  unfold sections_pass. cbn [is_subsection reassemble].
  apply numbered_then_quiet; [apply numbered_walk; reflexivity|].
  intros chunks. apply all_events_bind; [apply all_events_ret|].
  intros _. apply all_events_ret.
Qed.

End Counter.

(** ** File names of a section *)

Lemma writes_satisfy_silent {W A} P (m : M W A) : silent m -> writes_satisfy P m.
Proof. intros H w. destruct (H w) as [-> _]. constructor. Qed.

Lemma writes_satisfy_bind {W A B} P (m : M W A) (k : A -> M W B) (Q : A -> Prop) :
  writes_satisfy P m -> returns m Q -> (forall a, Q a -> writes_satisfy P (k a)) ->
  writes_satisfy P (bind m k).
Proof.
  intros Hm HQ Hk w. specialize (Hm w). unfold bind.
  destruct (m w) as [[ev w1] [a| |]] eqn:E; unfold_run; auto.
  specialize (Hk a (HQ _ _ _ _ E) w1). destruct (k a w1) as [[ev' w2] o]. unfold_run.
  rewrite writes_of_app. apply Forall_app. auto.
Qed.

Lemma writes_satisfy_write_file {W} (sink : W -> string -> list byte -> W * io_result)
    P (filename : string) (bs : list byte) :
  P (filename, bs) -> writes_satisfy P (write_file sink filename bs).
Proof.
  intros H w. rewrite writes_of_write_file. constructor; [exact H | constructor].
Qed.

Lemma writes_satisfy_call {W} (sink : W -> string -> list byte -> W * io_result)
    std_sort mem P (depth : nat) buffer bufferSize name :
  (forall out, P (name, out)) ->
  writes_satisfy P (pfs_extract sink std_sort mem depth buffer bufferSize (Some name)).
Proof.
  intros H w. destruct depth as [|depth]; [constructor|]. cbn [pfs_extract].
  destruct (emits_only_body sink std_sort mem (pfs_extract sink std_sort mem depth)
              buffer bufferSize name w) as [H0 H1].
  destruct (outcome_of (pfs_extract_body sink std_sort mem (pfs_extract sink std_sort mem depth)
                          buffer bufferSize (Some name) w)) as [rc| |] eqn:E.
  - destruct (N.eq_dec rc 0) as [->|Hrc].
    + destruct (H0 eq_refl) as [out ->]. constructor; [apply H | constructor].
    + rewrite H1 by congruence. constructor.
  - rewrite H1 by discriminate. constructor.
  - rewrite H1 by discriminate. constructor.
Qed.

Lemma returns_show_version {W} (hdr : PFS_SECTION_HEADER) :
  returns (@show_version W hdr) (fun v => v = fst (decode_version (components hdr))).
Proof.
  intros w ev w' v E. rewrite show_version_run in E. unfold decode_version.
  destruct (decode_components (components hdr)) as [s ws]. cbn [fst snd] in *.
  now inversion E.
Qed.

(** Every file a section of a normal pass writes, the payload of a nested
    container included, is named after the section's number and version. *)
Lemma section_step_names {W} (sink : W -> string -> list byte -> W * io_result)
    std_sort mem (depth : nat) off sectionNum chunks hdr :
  read_section_header mem off = Some hdr ->
  writes_satisfy (named_after sectionNum (fst (decode_version (components hdr))))
    (section_step sink mem (pfs_extract sink std_sort mem depth) false off sectionNum chunks).
Proof.
  intros Hread. unfold section_step.
  eapply writes_satisfy_bind;
    [apply writes_satisfy_silent, silent_lift_option
    | apply returns_lift_option; intros a Ha; exact Ha |].
  intros hdr' Hhdr'. cbv beta in Hhdr'. rewrite Hread in Hhdr'. inversion Hhdr'; subst hdr'.
  eapply writes_satisfy_bind;
    [apply writes_satisfy_silent, silent_print | apply returns_any |]. intros _ _.
  eapply writes_satisfy_bind;
    [apply writes_satisfy_silent, silent_show_version | apply returns_show_version |].
  intros version ->.
  assert (Hname : forall suffix bs,
             named_after sectionNum (fst (decode_version (components hdr)))
               (section_filename sectionNum (fst (decode_version (components hdr))) suffix, bs))
    by (intros suffix bs; now exists suffix).
  assert (Hemit : forall suffix ptr size,
             writes_satisfy (named_after sectionNum (fst (decode_version (components hdr))))
               (emit_block sink mem false
                  (section_filename sectionNum (fst (decode_version (components hdr))) suffix)
                  ptr size)).
  { intros suffix ptr size. unfold emit_block.
    destruct (size =? 0); [apply writes_satisfy_silent, silent_ret|].
    eapply writes_satisfy_bind;
      [apply writes_satisfy_silent, silent_lift_option | apply returns_any |]. intros bs _.
    eapply writes_satisfy_bind;
      [apply writes_satisfy_write_file, Hname | apply returns_any |]. intros _ _.
    apply writes_satisfy_silent, silent_ret. }
  eapply writes_satisfy_bind;
    [apply writes_satisfy_silent, silent_advance | apply returns_any |]. intros ptr0 _.
  eapply writes_satisfy_bind; [|apply returns_any|].
  { unfold data_block. destruct (DataSize hdr =? 0); [apply writes_satisfy_silent, silent_ret|].
    eapply writes_satisfy_bind;
      [apply writes_satisfy_silent, silent_lift_option | apply returns_any |]. intros bs _.
    eapply writes_satisfy_bind;
      [apply writes_satisfy_write_file, Hname | apply returns_any |]. intros _ _.
    eapply writes_satisfy_bind;
      [apply writes_satisfy_silent, silent_lift_option | apply returns_any |]. intros sg _.
    destruct (sg =? PFS_HEADER_SIGNATURE); [|apply writes_satisfy_silent, silent_ret].
    eapply writes_satisfy_bind;
      [apply writes_satisfy_call; intros out; apply Hname | apply returns_any |].
    intros _ _. apply writes_satisfy_silent, silent_ret. }
  intros chunks' _.
  eapply writes_satisfy_bind;
    [apply writes_satisfy_silent, silent_advance | apply returns_any |]. intros ptr1 _.
  eapply writes_satisfy_bind; [apply Hemit | apply returns_any |]. intros _ _.
  eapply writes_satisfy_bind;
    [apply writes_satisfy_silent, silent_advance | apply returns_any |]. intros ptr2 _.
  eapply writes_satisfy_bind; [apply Hemit | apply returns_any |]. intros _ _.
  eapply writes_satisfy_bind;
    [apply writes_satisfy_silent, silent_advance | apply returns_any |]. intros ptr3 _.
  eapply writes_satisfy_bind; [apply Hemit | apply returns_any |]. intros _ _.
  eapply writes_satisfy_bind;
    [apply writes_satisfy_silent, silent_advance | apply returns_any |]. intros ptr4 _.
  apply writes_satisfy_silent, silent_ret.
Qed.

(** ** Sections that run past the end of the data region *)

Lemma bind_ext_returns {W A B} (m : M W A) (P : A -> Prop) (k1 k2 : A -> M W B) (w : W) :
  returns m P -> (forall a w', P a -> k1 a w' = k2 a w') -> bind m k1 w = bind m k2 w.
Proof.
  intros Hm Hk. unfold bind.
  destruct (m w) as [[ev w1] [a| |]] eqn:E; try reflexivity.
  now rewrite (Hk a w1 (Hm _ _ _ _ E)).
Qed.

Lemma events_bind_ret {W A B} (m : M W A) (f : A -> B) (w : W) :
  events_of (bind m (fun a => ret (f a)) w) = events_of (m w).
Proof.
  unfold bind. destruct (m w) as [[ev w1] [a| |]]; unfold ret; unfold_run;
    now rewrite ?app_nil_r.
Qed.

Lemma events_bind_prefix {W A B} (m : M W A) (k : A -> M W B) (w : W) :
  exists rest, events_of (bind m k w) = events_of (m w) ++ rest.
Proof.
  unfold bind. destruct (m w) as [[ev w1] [a| |]]; unfold_run.
  - destruct (k a w1) as [[ev' w2] o]. now exists ev'.
  - exists []. now rewrite app_nil_r.
  - exists []. now rewrite app_nil_r.
Qed.

Section Overrun.

Context {W : Type} (sink : W -> string -> list byte -> W * io_result).
Variable mem : list byte.
Variable rec : N -> N -> option string -> M W N.

(** The walk has no check of its own: a section whose header is below
    [dataEnd] is handled, and when its blocks reach [dataEnd] or run past
    it the loop ends after it. *)
Lemma walk_last_section b dataEnd fuel off sectionNum chunks w hdr :
  off < dataEnd ->
  read_section_header mem off = Some hdr ->
  dataEnd <= off + sizeof_PFS_SECTION_HEADER + DataSize hdr + DataSignatureSize hdr
             + MetadataSize hdr + MetadataSignatureSize hdr ->
  walk sink mem rec b dataEnd (S fuel) off sectionNum chunks w
  = bind (section_step sink mem rec b off sectionNum chunks) (fun r => ret (snd r)) w.
Proof.
  intros Hlt Hread Hend. cbn [walk].
  replace (off <? dataEnd) with true by (symmetry; now apply N.ltb_lt).
  eapply bind_ext_returns; [apply returns_section_step|].
  intros [ptr chunks'] w' (hdr' & Hread' & Hptr & _). cbn [fst snd] in *.
  rewrite Hread in Hread'. inversion Hread'; subst hdr'.
  assert (Hge : (ptr <? dataEnd) = false) by (apply N.ltb_ge; lia).
  destruct fuel; cbn [walk]; now rewrite Hge.
Qed.

(** In a normal pass the first write of a section with data is its data
    block, under the name built from the section number and version. *)
Lemma section_step_writes_data off sectionNum chunks w hdr bs :
  read_section_header mem off = Some hdr ->
  DataSize hdr <> 0 ->
  span mem (off + sizeof_PFS_SECTION_HEADER) (DataSize hdr) = Some bs ->
  exists io pre post,
    events_of (section_step sink mem rec false off sectionNum chunks w)
    = pre ++ EvWrite (section_filename sectionNum (fst (decode_version (components hdr))) "data")
               bs io :: post
    /\ writes_of pre = [].
Proof.
  intros Hread Hd Hspan. unfold section_step.
  rewrite (bind_lift_some _ _ _ _ Hread), bind_print.
  rewrite (bind_run _ _ _ _ _ _ (show_version_run hdr w)).
  assert (Hv : placeholder (fst (decode_components (components hdr)))
               = fst (decode_version (components hdr))).
  { unfold decode_version. now destruct (decode_components (components hdr)). }
  rewrite Hv. set (version := fst (decode_version (components hdr))).
  unfold advance at 1.
  replace (off + sizeof_PFS_SECTION_HEADER <=? N.of_nat (List.length mem)) with true
    by (symmetry; apply N.leb_le; now apply read_section_header_inv in Hread).
  rewrite bind_ret_l. unfold data_block at 1.
  apply N.eqb_neq in Hd. rewrite Hd.
  rewrite (bind_assoc (lift_option _)), (bind_lift_some _ _ _ _ Hspan).
  rewrite (bind_assoc (write_file _ _ _)).
  destruct (write_file_run sink (section_filename sectionNum version "data") bs w)
    as (io & rc & rest & Ew & _).
  rewrite (bind_run _ _ _ _ _ _ Ew).
  unfold events_of at 1 2 3. cbn [fst].
  exists io,
    (EvPrint (MsgSectionHeader false sectionNum hdr)
     :: map (fun wn => EvPrint (message_of_warning wn))
          (snd (decode_components (components hdr)))
     ++ match fst (decode_components (components hdr)) with
        | EmptyString => []
        | s => [EvPrint (MsgVersion s)]
        end).
  eexists. split.
  - cbn [app]. rewrite <- !app_assoc. cbn [app]. reflexivity.
  - cbn [writes_of]. rewrite writes_of_app, writes_of_warnings.
    now destruct (fst (decode_components (components hdr))).
Qed.

End Overrun.

(** C1 (as stated) fails.  In the first sample the data region is 76
    bytes long and its only section declares 8 bytes of data after a
    72-byte header: the block ends 4 bytes past the end of the data
    region, inside the footer.  No failure is signalled: the 8 bytes, 4
    of them footer bytes, are written as the section's data and the call
    returns 0.  In the second sample the data region is one byte long:
    the loop is entered and the section header it reads lies beyond the
    33 bytes of the buffer. *)
Lemma truncation_counterexample :
  load Samples.overrun_file 12 4 = Some 76
  /\ DataSize (Samples.first_header Samples.overrun_file) = 8
  /\ 16 + 76 < 16 + 72 + 8
  /\ 16 + 72 + 8 <= N.of_nat (List.length Samples.overrun_file)
  /\ outcome_of (main_extract Build.ok_sink stable_sort Samples.overrun_file tt) = Ret 0
  /\ writes_of (events_of (main_extract Build.ok_sink stable_sort Samples.overrun_file tt))
     = [("section_0_.data"%string, Samples.text "abcd" ++ Build.le_encode 4 76)]
  /\ format_errors
       (messages_of
          (events_of (main_extract Build.ok_sink stable_sort Samples.overrun_file tt))) = []
  /\ load Samples.stub_file 12 4 = Some 1
  /\ List.length Samples.stub_file = 33%nat
  /\ read_section_header Samples.stub_file 16 = None
  /\ outcome_of (main_extract Build.ok_sink stable_sort Samples.stub_file tt) = Undefined.
Proof.
  repeat split; try (vm_compute; reflexivity); vm_compute; discriminate.
Qed.

(** * Further properties of the code *)

(** ** Lengths of what [sprintf] builds *)

Lemma string_length_append (a b : string) :
  String.length (a ++ b)%string = (String.length a + String.length b)%nat.
Proof. induction a as [|c a IH]; cbn; [reflexivity | now rewrite IH]. Qed.

Lemma to_digits_length (base : N) (fuel : nat) :
  2 <= base ->
  forall (k : nat) n acc,
    (1 <= k)%nat -> n < base ^ N.of_nat k ->
    (String.length (to_digits fuel base n acc) <= k + String.length acc)%nat.
Proof.
  intros Hb. induction fuel as [|fuel IH]; intros k n acc Hk Hn; cbn [to_digits].
  - lia.
  - destruct (N.eqb_spec (n / base) 0) as [Hz|Hnz].
    + cbn [String.length]. lia.
    + destruct k as [|[|k]]; [lia| |].
      * exfalso. apply Hnz. apply N.div_small.
        change (N.of_nat 1) with 1 in Hn. now rewrite N.pow_1_r in Hn.
      * specialize (IH (S k) (n / base)
                      (String (digit_char (n mod base)) acc)).
        cbn [String.length] in IH.
        assert (n / base < base ^ N.of_nat (S k)).
        { apply N.Div0.div_lt_upper_bound.
          rewrite (Nat2N.inj_succ (S k)), N.pow_succ_r' in Hn. exact Hn. }
        specialize (IH ltac:(lia) H). lia.
Qed.

Lemma fmt_X_length (n : N) (k : nat) :
  (1 <= k)%nat -> n < 16 ^ N.of_nat k -> (String.length (fmt_X n) <= k)%nat.
Proof.
  intros Hk Hn. unfold fmt_X.
  pose proof (to_digits_length 16 (S (N.to_nat (N.size n))) ltac:(lia) k n "" Hk Hn) as H.
  cbn [String.length] in H. lia.
Qed.

Lemma fmt_d_length (n : N) (k : nat) :
  (1 <= k)%nat -> n < 10 ^ N.of_nat k -> (String.length (fmt_d n) <= k)%nat.
Proof.
  intros Hk Hn. unfold fmt_d.
  pose proof (to_digits_length 10 (S (N.to_nat (N.size n))) ltac:(lia) k n "" Hk Hn) as H.
  cbn [String.length] in H. lia.
Qed.

(** The values of a header that was read from a buffer are 16 bits wide. *)
Lemma le_decode_firstn_bound (k : nat) (bs : list byte) :
  le_decode (firstn k bs) < 256 ^ N.of_nat k.
Proof.
  pose proof (le_decode_bound (firstn k bs)) as H.
  eapply N.lt_le_trans; [exact H|].
  apply N.pow_le_mono_r; [discriminate|].
  pose proof (length_firstn k bs). lia.
Qed.

Lemma read_section_header_versions (mem : list byte) (off : N) (hdr : PFS_SECTION_HEADER) :
  read_section_header mem off = Some hdr ->
  Forall (fun v => v < 65536) (Version hdr).
Proof.
  unfold read_section_header.
  destruct (span mem off sizeof_PFS_SECTION_HEADER) as [bs|]; [|discriminate].
  intros H. inversion H; subst; clear H. cbn [Version].
  repeat constructor; apply (le_decode_firstn_bound 2).
Qed.

Lemma components_at_values (idx : list nat) (hdr : PFS_SECTION_HEADER) :
  Forall (fun v => v < 65536) (Version hdr) ->
  Forall (fun c => snd c < 65536) (components_at idx hdr).
Proof.
  intros H. unfold components_at. apply Forall_map. apply Forall_forall. intros i _.
  cbn [snd]. destruct (nth_in_or_default i (Version hdr) 0) as [Hin | Hd]; [|rewrite Hd; lia].
  rewrite Forall_forall in H. now apply H.
Qed.

Lemma plain_name_append (a b : string) :
  plain_name (a ++ b) = plain_name a && plain_name b.
Proof.
  unfold plain_name. induction a as [|c a IH]; [reflexivity|].
  cbn [append list_ascii_of_string forallb]. now rewrite IH, Bool.andb_assoc.
Qed.

Lemma name_char_digit (d : N) : d < 16 -> name_char (digit_char d) = true.
Proof.
  intros Hd. rewrite <- (N2Nat.id d).
  assert (Hk : (N.to_nat d < 16)%nat) by lia.
  generalize dependent (N.to_nat d). intros k Hk.
  do 16 (destruct k as [|k]; [reflexivity|]). lia.
Qed.

Lemma to_digits_plain (base : N) (fuel : nat) :
  0 < base <= 16 ->
  forall n acc, plain_name acc = true -> plain_name (to_digits fuel base n acc) = true.
Proof.
  intros Hb. induction fuel as [|fuel IH]; intros n acc Hacc; cbn [to_digits]; [exact Hacc|].
  assert (Hacc' : plain_name (String (digit_char (n mod base)) acc) = true).
  { unfold plain_name in *. cbn [list_ascii_of_string forallb]. rewrite Hacc.
    rewrite name_char_digit; [reflexivity|].
    pose proof (N.mod_upper_bound n base). lia. }
  destruct (n / base =? 0); [exact Hacc' | now apply IH].
Qed.

Lemma fmt_X_plain (n : N) : plain_name (fmt_X n) = true.
Proof. apply to_digits_plain; [lia | reflexivity]. Qed.

Lemma fmt_d_plain (n : N) : plain_name (fmt_d n) = true.
Proof. apply to_digits_plain; [lia | reflexivity]. Qed.

Lemma decode_components_plain (cs : list (N * N)) :
  plain_name (fst (decode_components cs)) = true.
Proof.
  induction cs as [|[t v] cs IH]; [reflexivity|]. cbn [decode_components].
  destruct (t =? char "A").
  { destruct (decode_components cs) as [s ws]. cbn [fst] in *.
    now rewrite !plain_name_append, fmt_X_plain, IH. }
  destruct (t =? char "N").
  { destruct (decode_components cs) as [s ws]. cbn [fst] in *.
    now rewrite !plain_name_append, fmt_d_plain, IH. }
  destruct ((t =? char " ") || (t =? 0)); [reflexivity|].
  destruct (decode_components cs) as [s ws]. exact IH.
Qed.

Lemma decode_version_plain (cs : list (N * N)) :
  plain_name (fst (decode_version cs)) = true.
Proof.
  pose proof (decode_components_plain cs) as H. unfold decode_version.
  destruct (decode_components cs) as [s ws]. cbn [fst] in *.
  destruct s; [reflexivity | exact H].
Qed.

(** The string the decoder builds: empty or closed by a dot, and six
    characters at most for each component. *)
Lemma decode_components_shape (cs : list (N * N)) :
  Forall (fun c => snd c < 65536) cs ->
  (fst (decode_components cs) = EmptyString
   \/ exists s, fst (decode_components cs) = (s ++ ".")%string)
  /\ (String.length (fst (decode_components cs)) <= 6 * List.length cs)%nat.
Proof.
  induction cs as [|[t v] cs IH]; intros Hall.
  - cbn. split; [now left | lia].
  - inversion Hall as [|? ? Hv Hall']; subst. cbn [snd] in Hv.
    destruct (IH Hall') as [Hshape Hlen]. cbn [decode_components List.length].
    assert (HX : (String.length (fmt_X v) <= 4)%nat)
      by (apply fmt_X_length; [lia | exact Hv]).
    assert (HD : (String.length (fmt_d v) <= 5)%nat)
      by (apply fmt_d_length; [lia | cbn; lia]).
    destruct (t =? char "A").
    { destruct (decode_components cs) as [s ws]. cbn [fst] in *. split.
      - right. destruct Hshape as [->|[s' ->]].
        + exists (fmt_X v). now rewrite append_nil_r.
        + exists ((fmt_X v ++ ".") ++ s')%string. now rewrite !append_assoc.
      - rewrite !string_length_append. cbn [String.length]. lia. }
    destruct (t =? char "N").
    { destruct (decode_components cs) as [s ws]. cbn [fst] in *. split.
      - right. destruct Hshape as [->|[s' ->]].
        + exists (fmt_d v). now rewrite append_nil_r.
        + exists ((fmt_d v ++ ".") ++ s')%string. now rewrite !append_assoc.
      - rewrite !string_length_append. cbn [String.length]. lia. }
    destruct ((t =? char " ") || (t =? 0)).
    { cbn. split; [now left | lia]. }
    destruct (decode_components cs) as [s ws]. cbn [fst] in *. split; [exact Hshape | lia].
Qed.

Lemma decode_version_shape (hdr : PFS_SECTION_HEADER) :
  Forall (fun v => v < 65536) (Version hdr) ->
  (exists s, fst (decode_version (components hdr)) = (s ++ ".")%string)
  /\ (1 <= String.length (fst (decode_version (components hdr))) <= 24)%nat.
Proof.
  intros H.
  destruct (decode_components_shape (components hdr)
              (components_at_values _ hdr H)) as [Hshape Hlen].
  unfold decode_version.
  destruct (decode_components (components hdr)) as [s ws]. cbn [fst] in *.
  change (List.length (components hdr)) with 4%nat in Hlen.
  destruct Hshape as [->|[s' ->]].
  - cbn. split; [now exists EmptyString | lia].
  - assert (Hp : placeholder (s' ++ ".") = (s' ++ ".")%string)
      by (destruct s'; reflexivity).
    rewrite Hp. split; [now exists s'|].
    rewrite string_length_append in *. cbn [String.length] in *. lia.
Qed.

(** X1. The version string that [pfs_extract] builds for a section header
    read from the buffer is never empty, always ends in a dot and has at
    most 24 characters, so that with its terminator it fits the 30 bytes
    of [version]; and each component fits its own buffer: at most five
    characters for [%X.] in six bytes and six for [%d.] in seven. *)
Theorem version_string_fits (W : Type) (mem : list byte) (off : N)
    (hdr : PFS_SECTION_HEADER) (w : W) :
  read_section_header mem off = Some hdr ->
  (exists version,
      outcome_of (show_version hdr w) = Ret version
      /\ (exists s, version = (s ++ ".")%string)
      /\ (1 <= String.length version)%nat
      /\ (String.length version + 1 <= sizeof_version_buffer)%nat)
  /\ Forall (fun v =>
               (String.length (fmt_X v ++ ".") + 1 <= sizeof_hex_component)%nat
               /\ (String.length (fmt_d v ++ ".") + 1 <= sizeof_decimal_component)%nat)
       (Version hdr).
Proof.
  intros Hread. pose proof (read_section_header_versions mem off hdr Hread) as Hv.
  split.
  - destruct (decode_version_shape hdr Hv) as [Hdot Hlen].
    exists (fst (decode_version (components hdr))).
    split.
    + rewrite show_version_run. unfold outcome_of, decode_version. cbn [snd].
      now destruct (decode_components (components hdr)).
    + unfold sizeof_version_buffer. repeat split; try assumption; lia.
  - eapply Forall_impl; [|exact Hv]. intros v Hlt. cbv beta in Hlt.
    rewrite !string_length_append. cbn [String.length].
    unfold sizeof_hex_component, sizeof_decimal_component.
    pose proof (fmt_X_length v 4 ltac:(lia) Hlt).
    pose proof (fmt_d_length v 5 ltac:(lia) ltac:(cbn; lia)). lia.
Qed.

Lemma version_string_fits_witness :
  read_section_header Samples.plain_file 16 = Some (Samples.first_header Samples.plain_file)
  /\ exists version,
       outcome_of (show_version (Samples.first_header Samples.plain_file) tt) = Ret version
       /\ (String.length version + 1 <= sizeof_version_buffer)%nat.
Proof.
  assert (H : read_section_header Samples.plain_file 16
              = Some (Samples.first_header Samples.plain_file)) by (vm_compute; reflexivity).
  split; [exact H|].
  destruct (version_string_fits unit Samples.plain_file 16 _ tt H)
    as [(version & Ho & _ & _ & Hl) _].
  exists version. split; assumption.
Defined.

(** ** Names of the files written *)

Lemma section_filename_length (sectionNum : N) (version suffix : string) :
  sectionNum < 256 -> (String.length version <= 24)%nat -> In suffix section_suffixes ->
  (String.length (section_filename sectionNum version suffix) <= 43)%nat.
Proof.
  intros Hn Hv Hs. unfold section_filename.
  rewrite !string_length_append.
  pose proof (fmt_d_length sectionNum 3 ltac:(lia) ltac:(cbn; lia)) as Hd.
  assert (Hsuf : (String.length suffix <= 7)%nat).
  { unfold section_suffixes in Hs. cbn [In] in Hs.
    repeat (destruct Hs as [<-|Hs]; [cbn; lia|]). contradiction. }
  cbn [String.length]. lia.
Qed.

Lemma section_filename_plain (sectionNum : N) (version suffix : string) :
  plain_name version = true -> In suffix section_suffixes ->
  plain_name (section_filename sectionNum version suffix) = true.
Proof.
  intros Hv Hs. unfold section_filename.
  rewrite !plain_name_append, fmt_d_plain, Hv.
  unfold section_suffixes in Hs. cbn [In] in Hs.
  repeat (destruct Hs as [<-|Hs]; [reflexivity|]). contradiction.
Qed.

Section FileNames.

Context {W : Type} (sink : W -> string -> list byte -> W * io_result).
Variable std_sort : list PFS_CHUNK -> list PFS_CHUNK.
Variable mem : list byte.

Lemma section_step_files (depth : nat) off sectionNum chunks :
  sectionNum < 256 ->
  writes_satisfy section_file
    (section_step sink mem (pfs_extract sink std_sort mem depth) false off sectionNum chunks).
Proof.
  intros Hnum. unfold section_step.
  eapply writes_satisfy_bind;
    [apply writes_satisfy_silent, silent_lift_option
    | apply returns_lift_option; intros a Ha; exact Ha |].
  intros hdr Hread. cbv beta in Hread.
  destruct (decode_version_shape hdr (read_section_header_versions mem off hdr Hread))
    as [Hdot Hlen].
  eapply writes_satisfy_bind;
    [apply writes_satisfy_silent, silent_print | apply returns_any |]. intros _ _.
  eapply writes_satisfy_bind;
    [apply writes_satisfy_silent, silent_show_version | apply returns_show_version |].
  intros version ->.
  assert (Hname : forall suffix bs,
             In suffix section_suffixes ->
             section_file
               (section_filename sectionNum (fst (decode_version (components hdr))) suffix, bs)).
  { intros suffix bs Hin.
    exists sectionNum, (fst (decode_version (components hdr))), suffix.
    repeat split; try assumption; try lia. apply decode_version_plain. }
  assert (Hemit : forall suffix ptr size,
             In suffix section_suffixes ->
             writes_satisfy section_file
               (emit_block sink mem false
                  (section_filename sectionNum (fst (decode_version (components hdr))) suffix)
                  ptr size)).
  { intros suffix ptr size Hin. unfold emit_block.
    destruct (size =? 0); [apply writes_satisfy_silent, silent_ret|].
    eapply writes_satisfy_bind;
      [apply writes_satisfy_silent, silent_lift_option | apply returns_any |]. intros bs _.
    eapply writes_satisfy_bind;
      [apply writes_satisfy_write_file, Hname, Hin | apply returns_any |]. intros _ _.
    apply writes_satisfy_silent, silent_ret. }
  eapply writes_satisfy_bind;
    [apply writes_satisfy_silent, silent_advance | apply returns_any |]. intros ptr0 _.
  eapply writes_satisfy_bind; [|apply returns_any|].
  { unfold data_block. destruct (DataSize hdr =? 0); [apply writes_satisfy_silent, silent_ret|].
    eapply writes_satisfy_bind;
      [apply writes_satisfy_silent, silent_lift_option | apply returns_any |]. intros bs _.
    eapply writes_satisfy_bind;
      [apply writes_satisfy_write_file, Hname; cbn; tauto | apply returns_any |]. intros _ _.
    eapply writes_satisfy_bind;
      [apply writes_satisfy_silent, silent_lift_option | apply returns_any |]. intros sg _.
    destruct (sg =? PFS_HEADER_SIGNATURE); [|apply writes_satisfy_silent, silent_ret].
    eapply writes_satisfy_bind;
      [apply writes_satisfy_call; intros out; apply Hname; cbn; tauto | apply returns_any |].
    intros _ _. apply writes_satisfy_silent, silent_ret. }
  intros chunks' _.
  eapply writes_satisfy_bind;
    [apply writes_satisfy_silent, silent_advance | apply returns_any |]. intros ptr1 _.
  eapply writes_satisfy_bind; [apply Hemit; cbn; tauto | apply returns_any |]. intros _ _.
  eapply writes_satisfy_bind;
    [apply writes_satisfy_silent, silent_advance | apply returns_any |]. intros ptr2 _.
  eapply writes_satisfy_bind; [apply Hemit; cbn; tauto | apply returns_any |]. intros _ _.
  eapply writes_satisfy_bind;
    [apply writes_satisfy_silent, silent_advance | apply returns_any |]. intros ptr3 _.
  eapply writes_satisfy_bind; [apply Hemit; cbn; tauto | apply returns_any |]. intros _ _.
  eapply writes_satisfy_bind;
    [apply writes_satisfy_silent, silent_advance | apply returns_any |]. intros ptr4 _.
  apply writes_satisfy_silent, silent_ret.
Qed.

Lemma walk_files (depth : nat) dataEnd (fuel : nat) :
  forall off sectionNum chunks,
    sectionNum < 256 ->
    writes_satisfy section_file
      (walk sink mem (pfs_extract sink std_sort mem depth) false dataEnd fuel
         off sectionNum chunks).
Proof.
  induction fuel as [|fuel IH]; intros off sectionNum chunks Hnum; cbn [walk];
    destruct (off <? dataEnd);
    try (apply writes_satisfy_silent; first [apply silent_ret | intros w; split; reflexivity]).
  eapply writes_satisfy_bind;
    [apply section_step_files; exact Hnum | apply returns_any |].
  intros [ptr chunks'] _. apply IH. apply next_sectionNum_lt.
Qed.

Lemma normal_call_files (depth : nat) buffer bufferSize :
  writes_satisfy section_file
    (pfs_extract sink std_sort mem depth buffer bufferSize None).
Proof.
  destruct depth as [|depth]; [intros w; constructor|].
  cbn [pfs_extract]. unfold pfs_extract_body.
  assert (Hfail : forall m, writes_satisfy section_file
                              (@bind W _ _ (print m) (fun _ => ret 1))).
  { intros m. apply writes_satisfy_silent.
    apply silent_bind; [apply silent_print | intros _; apply silent_ret]. }
  destruct (bufferSize <? _); [apply Hfail|].
  eapply writes_satisfy_bind;
    [apply writes_satisfy_silent, silent_lift_option | apply returns_any |]. intros sg _.
  eapply writes_satisfy_bind;
    [apply writes_satisfy_silent, silent_lift_option | apply returns_any |]. intros ver _.
  eapply writes_satisfy_bind;
    [apply writes_satisfy_silent, silent_lift_option | apply returns_any |]. intros d _.
  eapply writes_satisfy_bind;
    [apply writes_satisfy_silent, silent_print | apply returns_any |]. intros _ _.
  destruct (negb (sg =? _)); [apply Hfail|].
  destruct (negb (ver =? 1)); [apply Hfail|].
  destruct (bufferSize <? _); [apply Hfail|].
  eapply writes_satisfy_bind;
    [apply writes_satisfy_silent, silent_lift_option | apply returns_any |]. intros fd _.
  eapply writes_satisfy_bind;
    [apply writes_satisfy_silent, silent_lift_option | apply returns_any |]. intros fc _.
  eapply writes_satisfy_bind;
    [apply writes_satisfy_silent, silent_lift_option | apply returns_any |]. intros fs _.
  eapply writes_satisfy_bind;
    [apply writes_satisfy_silent, silent_print | apply returns_any |]. intros _ _.
  eapply writes_satisfy_bind;
    [apply writes_satisfy_silent, silent_when_print | apply returns_any |]. intros _ _.
  eapply writes_satisfy_bind;
    [apply writes_satisfy_silent, silent_when_print | apply returns_any |]. intros _ _.
  unfold sections_pass. cbn [is_subsection reassemble].
  eapply writes_satisfy_bind; [apply walk_files; reflexivity | apply returns_any |].
  intros chunks _. apply writes_satisfy_silent.
  apply silent_bind; [apply silent_ret | intros _; apply silent_ret].
Qed.

End FileNames.

(** X2. Every file that a run of [pfs_extract] without a target name
    writes, the call from [main] among them, is named
    [section_<number>_<version><suffix>]: the number is below 256, the
    version has at most 24 characters and ends in a dot, the suffix is one
    of data, payload, sign, meta and mtsg.  Such a name has at most 43
    characters, so with its terminator it fits the 240 bytes of
    [filename]; and it is made of digits, letters, underscores and dots
    only, so whatever the input holds no file is written outside the
    current directory. *)
Theorem written_files_are_section_files {W}
    (sink : W -> string -> list byte -> W * io_result)
    (std_sort : list PFS_CHUNK -> list PFS_CHUNK) (mem : list byte) (depth : nat)
    (buffer bufferSize : N) (w : W) :
  Forall (fun p => section_file p
                   /\ (String.length (fst p) + 1 <= sizeof_filename_buffer)%nat
                   /\ plain_name (fst p) = true)
    (writes_of (events_of (pfs_extract sink std_sort mem depth buffer bufferSize None w)))
  /\ Forall (fun p => section_file p
                      /\ (String.length (fst p) + 1 <= sizeof_filename_buffer)%nat
                      /\ plain_name (fst p) = true)
       (writes_of (events_of (main_extract sink std_sort mem w))).
Proof.
  assert (H : forall p, section_file p ->
                section_file p
                /\ (String.length (fst p) + 1 <= sizeof_filename_buffer)%nat
                /\ plain_name (fst p) = true).
  { intros p Hp. split; [exact Hp|].
    destruct Hp as (n & v & suffix & Hn & Hv & _ & Hpl & Hs & ->).
    pose proof (section_filename_length n v suffix Hn Hv Hs).
    split; [unfold sizeof_filename_buffer; lia|].
    now apply section_filename_plain. }
  split; (eapply Forall_impl; [exact H|]); [|unfold main_extract];
    apply normal_call_files.
Qed.

(** ** What the result of a call tells *)

(** The verdict of the validation prologue: a call on a buffer that
    fails a check returns 1 and has touched nothing; a call that passes
    them can only return 0. *)
Lemma validation_verdict {W} (sink : W -> string -> list byte -> W * io_result)
    (std_sort : list PFS_CHUNK -> list PFS_CHUNK) (mem : list byte) (depth : nat)
    (buffer bufferSize : N) (filename : option string) (w : W) :
  buffer + bufferSize <= N.of_nat (List.length mem) ->
  (valid_container mem buffer bufferSize = false ->
   outcome_of (pfs_extract sink std_sort mem (S depth) buffer bufferSize filename w) = Ret 1
   /\ writes_of (events_of (pfs_extract sink std_sort mem (S depth) buffer bufferSize filename w))
      = []
   /\ state_of (pfs_extract sink std_sort mem (S depth) buffer bufferSize filename w) = w)
  /\ (valid_container mem buffer bufferSize = true ->
      forall rc,
        outcome_of (pfs_extract sink std_sort mem (S depth) buffer bufferSize filename w)
        = Ret rc ->
        rc = 0).
Proof.
  intros Hin. cbn [pfs_extract].
  unfold valid_container, sizeof_PFS_FILE_HEADER, sizeof_PFS_FILE_FOOTER.
  change (16 + 16) with 32.
  destruct (N.ltb_spec bufferSize 32) as [Hlt|Hge]; cbn [negb andb].
  { rewrite prologue_input_too_small by assumption.
    split; [intros _; repeat split; reflexivity | discriminate]. }
  destruct (load_some mem buffer 8) as [sg Hsg]; [lia|].
  destruct (load_some mem (buffer + 8) 4) as [ver Hver]; [lia|].
  destruct (load_some mem (buffer + 12) 4) as [d Hd]; [lia|].
  rewrite (prologue_header sink std_sort mem _ buffer bufferSize filename sg ver d)
    by assumption.
  rewrite Hsg, Hver, Hd. replace (16 + d + 16) with (32 + d) by lia.
  destruct (sg =? PFS_HEADER_SIGNATURE) eqn:Esg; cbn [negb andb];
    [|split; [intros _; repeat split; reflexivity | discriminate]].
  destruct (ver =? 1) eqn:Ever; cbn [negb andb];
    [|split; [intros _; repeat split; reflexivity | discriminate]].
  destruct (N.ltb_spec bufferSize (32 + d)) as [Hlt|Hge']; cbn [negb];
    [split; [intros _; repeat split; reflexivity | discriminate]|].
  split; [discriminate|]. intros _ rc Hrc.
  match type of Hrc with
  | outcome_of (?m w) = _ =>
      assert (Hret : returns m (fun rc => rc = 0))
  end.
  { eapply returns_bind; [apply returns_any|]. intros _ _.
    eapply returns_bind; [apply returns_any|]. intros fd _.
    eapply returns_bind; [apply returns_any|]. intros fc _.
    eapply returns_bind; [apply returns_any|]. intros fs _.
    eapply returns_bind; [apply returns_any|]. intros _ _.
    eapply returns_bind; [apply returns_any|]. intros _ _.
    eapply returns_bind; [apply returns_any|]. intros _ _.
    apply sections_pass_returns_zero. }
  match type of Hrc with
  | outcome_of (?m w) = _ => destruct (m w) as [[ev w'] o] eqn:E
  end.
  unfold_run. subst o. exact (Hret _ _ _ _ E).
Qed.

(** X3. For a buffer that lies in the loaded file, [pfs_extract] returns
    1 exactly when one of the four checks of its prologue fails (size
    below header plus footer, foreign header magic, header version other
    than 1, size below header plus declared data plus footer).  It then
    has written nothing, has left the file system alone and has reported
    that one check, the first in this order that fails.  A call that gets
    past the checks can only return 0, whatever its sections hold. *)
Theorem result_tells_validation {W} (sink : W -> string -> list byte -> W * io_result)
    (std_sort : list PFS_CHUNK -> list PFS_CHUNK) (mem : list byte) (depth : nat)
    (buffer bufferSize : N) (filename : option string) (w : W) :
  buffer + bufferSize <= N.of_nat (List.length mem) ->
  (valid_container mem buffer bufferSize = false ->
   outcome_of (pfs_extract sink std_sort mem (S depth) buffer bufferSize filename w) = Ret 1
   /\ writes_of (events_of (pfs_extract sink std_sort mem (S depth) buffer bufferSize filename w))
      = []
   /\ state_of (pfs_extract sink std_sort mem (S depth) buffer bufferSize filename w) = w
   /\ format_errors
        (messages_of
           (events_of (pfs_extract sink std_sort mem (S depth) buffer bufferSize filename w)))
      = [first_failure mem buffer bufferSize])
  /\ (valid_container mem buffer bufferSize = true ->
      forall rc,
        outcome_of (pfs_extract sink std_sort mem (S depth) buffer bufferSize filename w)
        = Ret rc ->
        rc = 0).
Proof.
  intros Hin. cbn [pfs_extract].
  unfold valid_container, first_failure, sizeof_PFS_FILE_HEADER, sizeof_PFS_FILE_FOOTER.
  change (16 + 16) with 32.
  destruct (N.ltb_spec bufferSize 32) as [Hlt|Hge]; cbn [negb andb].
  { rewrite prologue_input_too_small by assumption.
    split; [intros _; repeat split; reflexivity | discriminate]. }
  destruct (load_some mem buffer 8) as [sg Hsg]; [lia|].
  destruct (load_some mem (buffer + 8) 4) as [ver Hver]; [lia|].
  destruct (load_some mem (buffer + 12) 4) as [d Hd]; [lia|].
  rewrite (prologue_header sink std_sort mem _ buffer bufferSize filename sg ver d)
    by assumption.
  rewrite Hsg, Hver, Hd. replace (16 + d + 16) with (32 + d) by lia.
  destruct (sg =? PFS_HEADER_SIGNATURE) eqn:Esg; cbn [negb andb];
    [|split; [intros _; repeat split; reflexivity | discriminate]].
  destruct (ver =? 1) eqn:Ever; cbn [negb andb];
    [|split; [intros _; repeat split; reflexivity | discriminate]].
  destruct (N.ltb_spec bufferSize (32 + d)) as [Hlt|Hge']; cbn [negb];
    [split; [intros _; repeat split; reflexivity | discriminate]|].
  split; [discriminate|]. intros _ rc Hrc.
  match type of Hrc with
  | outcome_of (?m w) = _ =>
      assert (Hret : returns m (fun rc => rc = 0))
  end.
  { eapply returns_bind; [apply returns_any|]. intros _ _.
    eapply returns_bind; [apply returns_any|]. intros fd _.
    eapply returns_bind; [apply returns_any|]. intros fc _.
    eapply returns_bind; [apply returns_any|]. intros fs _.
    eapply returns_bind; [apply returns_any|]. intros _ _.
    eapply returns_bind; [apply returns_any|]. intros _ _.
    eapply returns_bind; [apply returns_any|]. intros _ _.
    apply sections_pass_returns_zero. }
  match type of Hrc with
  | outcome_of (?m w) = _ => destruct (m w) as [[ev w'] o] eqn:E
  end.
  unfold_run. subst o. exact (Hret _ _ _ _ E).
Qed.

Lemma result_tells_validation_witness :
  0 + 32 <= N.of_nat (List.length Samples.bad_version_short_file)
  /\ valid_container Samples.bad_version_short_file 0 32 = false
  /\ outcome_of (pfs_extract Build.ok_sink stable_sort Samples.bad_version_short_file
                   1 0 32 None tt) = Ret 1
  /\ format_errors
       (messages_of
          (events_of (pfs_extract Build.ok_sink stable_sort Samples.bad_version_short_file
                        1 0 32 None tt)))
     = [UnsupportedVersion].
Proof.
  assert (H1 : 0 + 32 <= N.of_nat (List.length Samples.bad_version_short_file))
    by (vm_compute; discriminate).
  assert (H2 : valid_container Samples.bad_version_short_file 0 32 = false)
    by (vm_compute; reflexivity).
  split; [exact H1|]. split; [exact H2|].
  destruct (proj1 (result_tells_validation Build.ok_sink stable_sort
                     Samples.bad_version_short_file 0 0 32 None tt H1) H2)
    as (Ho & _ & _ & He).
  split; [exact Ho | exact He].
Defined.

(** ** An empty data region *)

Lemma writes_of_cons_print (m : message) (tr : list event) :
  writes_of (EvPrint m :: tr) = writes_of tr.
Proof. reflexivity. Qed.

Lemma std_sort_nil (sort : list PFS_CHUNK -> list PFS_CHUNK) :
  std_sort_contract sort -> sort [] = [].
Proof. intros H. destruct (H []) as [Hp _]. now apply Permutation_nil in Hp. Qed.

(** X4. A container that passes the checks and declares a data size of 0
    has no section: the loop is not entered.  Without a target name the
    call writes nothing and returns 0; with a target name it writes that
    one file, empty, and returns 0. *)
Theorem empty_data_region {W} (sink : W -> string -> list byte -> W * io_result)
    (std_sort : list PFS_CHUNK -> list PFS_CHUNK) (mem : list byte) (depth : nat)
    (buffer bufferSize : N) (w : W) :
  std_sort_contract std_sort ->
  buffer + bufferSize <= N.of_nat (List.length mem) ->
  32 <= bufferSize ->
  load mem buffer 8 = Some PFS_HEADER_SIGNATURE ->
  load mem (buffer + 8) 4 = Some 1 ->
  load mem (buffer + 12) 4 = Some 0 ->
  (writes_of (events_of (pfs_extract sink std_sort mem (S depth) buffer bufferSize None w)) = []
   /\ section_numbers false
        (events_of (pfs_extract sink std_sort mem (S depth) buffer bufferSize None w)) = []
   /\ state_of (pfs_extract sink std_sort mem (S depth) buffer bufferSize None w) = w
   /\ outcome_of (pfs_extract sink std_sort mem (S depth) buffer bufferSize None w) = Ret 0)
  /\ (forall name,
         writes_of (events_of (pfs_extract sink std_sort mem (S depth) buffer bufferSize
                                 (Some name) w))
         = [(name, [])]
         /\ outcome_of (pfs_extract sink std_sort mem (S depth) buffer bufferSize
                          (Some name) w) = Ret 0).
Proof.
  intros Hsort Hin Hsize Hsg Hver Hd.
  destruct (load_some mem (buffer + 16 + 0) 4) as [fd Hfd]; [lia|].
  destruct (load_some mem (buffer + 16 + 0 + 4) 4) as [fc Hfc]; [lia|].
  destruct (load_some mem (buffer + 16 + 0 + 8) 8) as [fs Hfs]; [lia|].
  assert (Hwalk : forall rec b n chunks w',
             walk sink mem rec b (buffer + sizeof_PFS_FILE_HEADER + 0) (S (List.length mem))
               (buffer + sizeof_PFS_FILE_HEADER) n chunks w' = ([], w', Ret chunks)).
  { intros rec b n chunks w'. cbn [walk]. rewrite N.add_0_r, N.ltb_irrefl. reflexivity. }
  cbn [pfs_extract]. split; [|intros name].
  - rewrite (prologue_pass sink std_sort mem _ buffer bufferSize None 0 fd fc fs w)
      by (assumption || lia).
    unfold sections_pass. cbn [is_subsection].
    rewrite (bind_run _ _ _ _ _ _ (Hwalk _ false 0 [] w)).
    unfold_run. cbn [reassemble app]. unfold bind, ret. cbn [app fst snd].
    cbn [writes_of section_numbers]. rewrite app_nil_r, writes_of_prints.
    repeat split; try reflexivity.
    unfold footer_warnings.
    destruct (negb (fs =? PFS_FOOTER_SIGNATURE)), (negb (fd =? 0)); reflexivity.
  - rewrite (prologue_pass sink std_sort mem _ buffer bufferSize (Some name) 0 fd fc fs w)
      by (assumption || lia).
    destruct (sections_pass_reassembles sink std_sort mem (pfs_extract sink std_sort mem depth)
                buffer 0 name w []) as [Ho Hw].
    { change 16 with sizeof_PFS_FILE_HEADER. now rewrite Hwalk. }
    unfold_run. rewrite Ho. split; [|reflexivity].
    rewrite !writes_of_cons_print, writes_of_app, writes_of_prints, Hw.
    now rewrite (std_sort_nil std_sort Hsort).
Qed.

Lemma empty_data_region_witness :
  std_sort_contract stable_sort
  /\ 0 + 32 <= N.of_nat (List.length empty_file)
  /\ load empty_file (0 + 12) 4 = Some 0
  /\ writes_of (events_of (pfs_extract Build.ok_sink stable_sort empty_file 1 0 32 None tt))
     = []
  /\ writes_of (events_of (pfs_extract Build.ok_sink stable_sort empty_file 1 0 32
                             (Some "out"%string) tt))
     = [("out"%string, [])].
Proof.
  assert (H1 : 0 + 32 <= N.of_nat (List.length empty_file)) by (vm_compute; discriminate).
  assert (H2 : 32 <= 32) by (vm_compute; discriminate).
  assert (H3 : load empty_file 0 8 = Some PFS_HEADER_SIGNATURE) by reflexivity.
  assert (H4 : load empty_file (0 + 8) 4 = Some 1) by reflexivity.
  assert (H5 : load empty_file (0 + 12) 4 = Some 0) by reflexivity.
  split; [exact stable_sort_contract|]. split; [exact H1|]. split; [exact H5|].
  destruct (empty_data_region Build.ok_sink stable_sort empty_file 0 0 32 tt
              stable_sort_contract H1 H2 H3 H4 H5) as [(Hw & _) Hsub].
  split; [exact Hw | exact (proj1 (Hsub "out"%string))].
Defined.

(** ** A chunk shorter than its own leading region *)

Lemma data_block_short {W} (sink : W -> string -> list byte -> W * io_result)
    mem rec hdr ptr sectionNum version chunks w :
  DataSize hdr <> 0 -> DataSize hdr < 0x248 ->
  data_block sink mem rec true hdr ptr sectionNum version chunks w = ([], w, Undefined).
Proof.
  intros Hnz Hlt. unfold data_block. apply N.eqb_neq in Hnz. rewrite Hnz.
  destruct (load mem (ptr + 0x3E) 2) as [num|] eqn:E.
  - cbn [lift_option]. rewrite bind_ret_l. unfold vector_range.
    replace (ptr + 0x248 <=? ptr + DataSize hdr) with false
      by (symmetry; apply N.leb_gt; lia).
    reflexivity.
  - reflexivity.
Qed.

(** X5. In a pass with a target name, a section whose data block is not
    empty but shorter than 0x248 bytes stops the pass: the vector of the
    chunk would be built from a range that ends before it starts, which
    is undefined.  The walk does not return, nothing has been written by
    it and the file system is as it was; no chunk of such a section is
    ever collected. *)
Theorem short_chunk_is_undefined {W} (sink : W -> string -> list byte -> W * io_result)
    (mem : list byte) (rec : N -> N -> option string -> M W N) (dataEnd : N) (fuel : nat)
    (off sectionNum : N) (chunks : list PFS_CHUNK) (hdr : PFS_SECTION_HEADER) (w : W) :
  off < dataEnd ->
  read_section_header mem off = Some hdr ->
  DataSize hdr <> 0 ->
  DataSize hdr < 0x248 ->
  outcome_of (walk sink mem rec true dataEnd (S fuel) off sectionNum chunks w) = Undefined
  /\ writes_of (events_of (walk sink mem rec true dataEnd (S fuel) off sectionNum chunks w))
     = []
  /\ state_of (walk sink mem rec true dataEnd (S fuel) off sectionNum chunks w) = w.
Proof.
  intros Hlt Hread Hnz Hshort.
  destruct (silent_walk sink mem rec dataEnd (S fuel) off sectionNum chunks w) as [Hw Hs].
  split; [|split; assumption].
  cbn [walk]. replace (off <? dataEnd) with true by (symmetry; now apply N.ltb_lt).
  assert (Hstep : outcome_of (section_step sink mem rec true off sectionNum chunks w)
                  = Undefined).
  { unfold section_step.
    rewrite (bind_lift_some _ _ _ _ Hread), bind_print.
    unfold outcome_of at 1. cbn [snd].
    rewrite (bind_run _ _ _ _ _ _ (show_version_run hdr w)).
    unfold outcome_of at 1. cbn [snd].
    unfold advance at 1.
    replace (off + sizeof_PFS_SECTION_HEADER <=? N.of_nat (List.length mem)) with true
      by (symmetry; apply N.leb_le; now apply read_section_header_inv in Hread).
    rewrite bind_ret_l.
    rewrite (bind_stop _ _ _ _ _
               (data_block_short sink mem rec hdr _ sectionNum _ chunks w Hnz Hshort)).
    reflexivity. }
  unfold bind.
  destruct (section_step sink mem rec true off sectionNum chunks w) as [[ev w'] o].
  unfold_run. now subst o.
Qed.

Lemma short_chunk_is_undefined_witness :
  104 < 192
  /\ read_section_header short_chunk_file 104 = Some short_chunk_header
  /\ DataSize short_chunk_header = 16
  /\ outcome_of (walk Build.ok_sink short_chunk_file
                   (pfs_extract Build.ok_sink stable_sort short_chunk_file 0)
                   true 192 1 104 0 [] tt) = Undefined
  /\ writes_of (events_of (main_extract Build.ok_sink stable_sort short_chunk_file tt))
     = [("section_0_.data"%string, Samples.block short_chunk_file 88 120)].
Proof.
  assert (H1 : 104 < 192) by reflexivity.
  assert (H2 : read_section_header short_chunk_file 104 = Some short_chunk_header)
    by (vm_compute; reflexivity).
  assert (H3 : DataSize short_chunk_header = 16) by (vm_compute; reflexivity).
  assert (H4 : DataSize short_chunk_header <> 0) by (rewrite H3; discriminate).
  assert (H5 : DataSize short_chunk_header < 0x248) by (rewrite H3; reflexivity).
  split; [exact H1|]. split; [exact H2|]. split; [exact H3|].
  split.
  - exact (proj1 (short_chunk_is_undefined Build.ok_sink short_chunk_file
                    (pfs_extract Build.ok_sink stable_sort short_chunk_file 0)
                    192 0 104 0 [] short_chunk_header tt H1 H2 H4 H5)).
  - vm_compute. reflexivity.
Defined.

(** ** The order on chunks *)

(** X6. [operator<] of [PFS_CHUNK] is the strict weak ordering that
    [std::sort] requires: irreflexive, asymmetric and transitive, with a
    transitive incomparability, which holds of two chunks exactly when
    their order numbers are equal, whatever their bytes. *)
Theorem chunk_lt_strict_weak_order :
  (forall a, chunk_lt a a = false)
  /\ (forall a b, implb (chunk_lt a b) (negb (chunk_lt b a)) = true)
  /\ (forall a b c, implb (chunk_lt a b && chunk_lt b c) (chunk_lt a c) = true)
  /\ (forall a b c,
         implb (negb (chunk_lt a b) && negb (chunk_lt b a)
                && (negb (chunk_lt b c) && negb (chunk_lt c b)))
           (negb (chunk_lt a c) && negb (chunk_lt c a)) = true)
  /\ (forall a b,
         negb (chunk_lt a b) && negb (chunk_lt b a) = (orderNum a =? orderNum b))
  /\ (forall a b, chunk_le a b <-> chunk_lt b a = false).
Proof.
  unfold chunk_lt, chunk_le.
  repeat split; intros;
    repeat match goal with
           | |- context [?x <? ?y] => destruct (N.ltb_spec x y)
           | H : context [?x <? ?y] |- _ => destruct (N.ltb_spec x y)
           | |- context [?x =? ?y] => destruct (N.eqb_spec x y)
           end; cbn; try reflexivity; try lia; try discriminate.
Qed.

(** ** GUIDs as text *)

Lemma fmt_X_value (n : N) : value_of_digits 16 (fmt_X n) 0 = Some n.
Proof.
  unfold fmt_X. rewrite value_of_to_digits; [reflexivity | lia | lia |].
  rewrite Nat2N.inj_succ, N2Nat.id, N.pow_succ_r'.
  pose proof (N.size_gt n). lia.
Qed.

Lemma zeros_string_length (k : nat) : String.length (zeros_string k) = k.
Proof. induction k; cbn; congruence. Qed.

Lemma value_of_zeros (base : N) (k : nat) (s : string) :
  0 < base ->
  value_of_digits base (zeros_string k ++ s) 0 = value_of_digits base s 0.
Proof.
  intros Hb. induction k as [|k IH]; [reflexivity|].
  cbn [zeros_string append value_of_digits].
  change (digit_value "0") with (Some 0).
  rewrite N.mul_0_r, N.add_0_l. rewrite (proj2 (N.ltb_lt 0 base) Hb). exact IH.
Qed.

Lemma fmt_0X_value (width : nat) (n : N) : value_of_digits 16 (fmt_0X width n) 0 = Some n.
Proof. unfold fmt_0X. rewrite value_of_zeros by lia. apply fmt_X_value. Qed.

Lemma fmt_0X_length (width : nat) (n : N) :
  (1 <= width)%nat -> n < 16 ^ N.of_nat width -> String.length (fmt_0X width n) = width.
Proof.
  intros Hw Hn. unfold fmt_0X.
  rewrite string_length_append, zeros_string_length.
  pose proof (fmt_X_length n width Hw Hn). lia.
Qed.

Lemma substring_append_take (a b : string) :
  substring 0 (String.length a) (a ++ b) = a.
Proof.
  induction a as [|c a IH]; cbn [String.length append substring].
  - destruct b; reflexivity.
  - f_equal. exact IH.
Qed.

Lemma substring_append_skip (a b : string) (n m : nat) :
  substring (String.length a + n) m (a ++ b) = substring n m b.
Proof.
  induction a as [|c a IH]; cbn [String.length append substring get Nat.add];
    [reflexivity | exact IH].
Qed.

Lemma get_append_skip (a b : string) (n : nat) :
  get (String.length a + n) (a ++ b) = get n b.
Proof.
  induction a as [|c a IH]; cbn [String.length append substring get Nat.add];
    [reflexivity | exact IH].
Qed.

Lemma guid_of_bytes_bounds (bs : list byte) :
  Data1 (guid_of_bytes bs) < 16 ^ 8
  /\ Data2 (guid_of_bytes bs) < 16 ^ 4
  /\ Data3 (guid_of_bytes bs) < 16 ^ 4
  /\ forall i, nth i (Data4 (guid_of_bytes bs)) 0 < 16 ^ 2.
Proof.
  cbn [guid_of_bytes Data1 Data2 Data3 Data4].
  split; [apply (le_decode_firstn_bound 4)|].
  split; [apply (le_decode_firstn_bound 2)|].
  split; [apply (le_decode_firstn_bound 2)|].
  intros i.
  destruct (nth_in_or_default i (map Byte.to_N (firstn 8 (skipn 8 bs))) 0) as [Hin | Hd].
  - apply in_map_iff in Hin as (b & Hb & _). rewrite <- Hb.
    pose proof (Byte.to_N_bounded b). cbn. lia.
  - rewrite Hd. reflexivity.
Qed.

Section GuidText.

Variable g : EFI_GUID.
Hypothesis range1 : Data1 g < 16 ^ 8.
Hypothesis range2 : Data2 g < 16 ^ 4.
Hypothesis range3 : Data3 g < 16 ^ 4.
Hypothesis range4 : forall i, nth i (Data4 g) 0 < 16 ^ 2.

(** The text of a GUID, group by group, each group of its full width. *)
Lemma guid_text_groups :
  exists g1 g2 g3 b0 b1 b2 b3 b4 b5 b6 b7,
    guid_to_string (Some g)
    = (g1 ++ "-" ++ g2 ++ "-" ++ g3 ++ "-" ++ b0 ++ b1 ++ "-"
       ++ b2 ++ b3 ++ b4 ++ b5 ++ b6 ++ b7)%string
    /\ String.length g1 = 8%nat /\ String.length g2 = 4%nat /\ String.length g3 = 4%nat
    /\ String.length b0 = 2%nat /\ String.length b1 = 2%nat /\ String.length b2 = 2%nat
    /\ String.length b3 = 2%nat /\ String.length b4 = 2%nat /\ String.length b5 = 2%nat
    /\ String.length b6 = 2%nat /\ String.length b7 = 2%nat
    /\ value_of_digits 16 g1 0 = Some (Data1 g)
    /\ value_of_digits 16 g2 0 = Some (Data2 g)
    /\ value_of_digits 16 g3 0 = Some (Data3 g)
    /\ value_of_digits 16 b0 0 = Some (nth 0 (Data4 g) 0)
    /\ value_of_digits 16 b1 0 = Some (nth 1 (Data4 g) 0)
    /\ value_of_digits 16 b2 0 = Some (nth 2 (Data4 g) 0)
    /\ value_of_digits 16 b3 0 = Some (nth 3 (Data4 g) 0)
    /\ value_of_digits 16 b4 0 = Some (nth 4 (Data4 g) 0)
    /\ value_of_digits 16 b5 0 = Some (nth 5 (Data4 g) 0)
    /\ value_of_digits 16 b6 0 = Some (nth 6 (Data4 g) 0)
    /\ value_of_digits 16 b7 0 = Some (nth 7 (Data4 g) 0).
Proof.
  do 11 eexists. split; [reflexivity|].
  repeat split; try apply fmt_0X_value;
    apply fmt_0X_length; try lia; try assumption; apply range4.
Qed.

End GuidText.

Lemma hex_at_group (pre grp post : string) (n m : nat) :
  String.length pre = n -> String.length grp = m ->
  hex_at n m (pre ++ grp ++ post) = value_of_digits 16 grp 0.
Proof.
  intros <- <-. unfold hex_at.
  rewrite <- (Nat.add_0_r (String.length pre)).
  now rewrite substring_append_skip, substring_append_take.
Qed.

Lemma get_group (pre post : string) (c : ascii) (n : nat) :
  String.length pre = n -> get n (pre ++ String c post) = Some c.
Proof.
  intros <-. rewrite <- (Nat.add_0_r (String.length pre)).
  now rewrite get_append_skip.
Qed.

Ltac group_lengths :=
  rewrite ?string_length_append; cbn [String.length];
  repeat match goal with
         | H : String.length _ = _ |- _ => rewrite H; clear H
         end;
  reflexivity.

(** X7. The text of a GUID has 36 characters whatever the 16 bytes are,
    with dashes at positions 8, 13, 18 and 23, so that with its
    terminator it fills the 37 bytes that [guid_to_string] allocates and
    never more; a null pointer gives the empty string. *)
Theorem guid_string_fits (bs : list byte) :
  (String.length (guid_to_string (Some (guid_of_bytes bs))) + 1)%nat = sizeof_guid_string
  /\ get 8 (guid_to_string (Some (guid_of_bytes bs))) = Some "-"%char
  /\ get 13 (guid_to_string (Some (guid_of_bytes bs))) = Some "-"%char
  /\ get 18 (guid_to_string (Some (guid_of_bytes bs))) = Some "-"%char
  /\ get 23 (guid_to_string (Some (guid_of_bytes bs))) = Some "-"%char
  /\ guid_to_string None = EmptyString.
Proof.
  destruct (guid_of_bytes_bounds bs) as (R1 & R2 & R3 & R4).
  destruct (guid_text_groups (guid_of_bytes bs) R1 R2 R3 R4)
    as (g1 & g2 & g3 & b0 & b1 & b2 & b3 & b4 & b5 & b6 & b7 & -> & L1 & L2 & L3
        & L4 & L5 & L6 & L7 & L8 & L9 & L10 & L11 & _).
  split; [unfold sizeof_guid_string; rewrite !string_length_append; cbn [String.length]; lia|].
  split; [apply (get_group g1); exact L1|].
  split.
  {
    replace (g1 ++ "-" ++ g2 ++ "-" ++ g3 ++ "-" ++ b0 ++ b1 ++ "-"
             ++ b2 ++ b3 ++ b4 ++ b5 ++ b6 ++ b7)%string
      with ((g1 ++ "-" ++ g2) ++ String "-" (g3 ++ "-" ++ b0 ++ b1 ++ "-"
             ++ b2 ++ b3 ++ b4 ++ b5 ++ b6 ++ b7))%string
      by (rewrite !append_assoc; reflexivity).
    apply get_group. group_lengths. }
  split.
  { replace (g1 ++ "-" ++ g2 ++ "-" ++ g3 ++ "-" ++ b0 ++ b1 ++ "-"
             ++ b2 ++ b3 ++ b4 ++ b5 ++ b6 ++ b7)%string
      with ((g1 ++ "-" ++ g2 ++ "-" ++ g3) ++ String "-" (b0 ++ b1 ++ "-"
             ++ b2 ++ b3 ++ b4 ++ b5 ++ b6 ++ b7))%string
      by (rewrite !append_assoc; reflexivity).
    apply get_group. group_lengths. }
  split; [|reflexivity].
  replace (g1 ++ "-" ++ g2 ++ "-" ++ g3 ++ "-" ++ b0 ++ b1 ++ "-"
           ++ b2 ++ b3 ++ b4 ++ b5 ++ b6 ++ b7)%string
    with ((g1 ++ "-" ++ g2 ++ "-" ++ g3 ++ "-" ++ b0 ++ b1) ++ String "-"
            (b2 ++ b3 ++ b4 ++ b5 ++ b6 ++ b7))%string
    by (rewrite !append_assoc; reflexivity).
  apply get_group. group_lengths.
Qed.

Ltac at_group pre grp post :=
  match goal with
  | |- hex_at _ _ ?s = _ =>
      replace s with (pre ++ grp ++ post)%string
        by (rewrite ?append_assoc, ?append_nil_r; reflexivity)
  end;
  rewrite hex_at_group; [assumption | group_lengths | assumption].

(** X8. The text of a GUID loses nothing: the hexadecimal digits of its
    five groups read back as the fields the 16 bytes hold, the first
    three as little-endian numbers and the last eight bytes one by one
    in storage order. *)
Theorem guid_string_reads_back (bs : list byte) :
  hex_at 0 8 (guid_to_string (Some (guid_of_bytes bs))) = Some (Data1 (guid_of_bytes bs))
  /\ hex_at 9 4 (guid_to_string (Some (guid_of_bytes bs))) = Some (Data2 (guid_of_bytes bs))
  /\ hex_at 14 4 (guid_to_string (Some (guid_of_bytes bs))) = Some (Data3 (guid_of_bytes bs))
  /\ forall i, (i < 8)%nat ->
       hex_at (nth i [19; 21; 24; 26; 28; 30; 32; 34]%nat 0%nat) 2
         (guid_to_string (Some (guid_of_bytes bs)))
       = Some (nth i (Data4 (guid_of_bytes bs)) 0).
Proof.
  destruct (guid_of_bytes_bounds bs) as (R1 & R2 & R3 & R4).
  destruct (guid_text_groups (guid_of_bytes bs) R1 R2 R3 R4)
    as (g1 & g2 & g3 & b0 & b1 & b2 & b3 & b4 & b5 & b6 & b7 & -> & L1 & L2 & L3
        & L4 & L5 & L6 & L7 & L8 & L9 & L10 & L11
        & V1 & V2 & V3 & V4 & V5 & V6 & V7 & V8 & V9 & V10 & V11).
  split; [at_group ""%string g1
            ("-" ++ g2 ++ "-" ++ g3 ++ "-" ++ b0 ++ b1 ++ "-"
             ++ b2 ++ b3 ++ b4 ++ b5 ++ b6 ++ b7)%string|].
  split; [at_group (g1 ++ "-")%string g2
            ("-" ++ g3 ++ "-" ++ b0 ++ b1 ++ "-"
             ++ b2 ++ b3 ++ b4 ++ b5 ++ b6 ++ b7)%string|].
  split; [at_group (g1 ++ "-" ++ g2 ++ "-")%string g3
            ("-" ++ b0 ++ b1 ++ "-" ++ b2 ++ b3 ++ b4 ++ b5 ++ b6 ++ b7)%string|].
  intros i Hi.
  destruct i as [|[|[|[|[|[|[|[|i]]]]]]]]; [| | | | | | | |lia]; cbn [nth].
  - at_group (g1 ++ "-" ++ g2 ++ "-" ++ g3 ++ "-")%string b0
      (b1 ++ "-" ++ b2 ++ b3 ++ b4 ++ b5 ++ b6 ++ b7)%string.
  - at_group (g1 ++ "-" ++ g2 ++ "-" ++ g3 ++ "-" ++ b0)%string b1
      ("-" ++ b2 ++ b3 ++ b4 ++ b5 ++ b6 ++ b7)%string.
  - at_group (g1 ++ "-" ++ g2 ++ "-" ++ g3 ++ "-" ++ b0 ++ b1 ++ "-")%string b2
      (b3 ++ b4 ++ b5 ++ b6 ++ b7)%string.
  - at_group (g1 ++ "-" ++ g2 ++ "-" ++ g3 ++ "-" ++ b0 ++ b1 ++ "-" ++ b2)%string b3
      (b4 ++ b5 ++ b6 ++ b7)%string.
  - at_group (g1 ++ "-" ++ g2 ++ "-" ++ g3 ++ "-" ++ b0 ++ b1 ++ "-" ++ b2 ++ b3)%string b4
      (b5 ++ b6 ++ b7)%string.
  - at_group (g1 ++ "-" ++ g2 ++ "-" ++ g3 ++ "-" ++ b0 ++ b1 ++ "-" ++ b2 ++ b3
              ++ b4)%string b5 (b6 ++ b7)%string.
  - at_group (g1 ++ "-" ++ g2 ++ "-" ++ g3 ++ "-" ++ b0 ++ b1 ++ "-" ++ b2 ++ b3
              ++ b4 ++ b5)%string b6 b7.
  - at_group (g1 ++ "-" ++ g2 ++ "-" ++ g3 ++ "-" ++ b0 ++ b1 ++ "-" ++ b2 ++ b3
              ++ b4 ++ b5 ++ b6)%string b7 ""%string.
Qed.

Lemma guid_string_reads_back_witness :
  hex_at 19 2 (guid_to_string (Some (guid_of_bytes (Samples.text "0123456789abcdef"))))
  = Some 56.
Proof.
  exact (proj2 (proj2 (proj2 (guid_string_reads_back (Samples.text "0123456789abcdef"))))
           0%nat ltac:(repeat constructor)).
Defined.

(** ** [main] *)

Lemma extraction_events_map (evs : list event) :
  extraction_events (map EvExtract evs) = evs.
Proof.
  unfold extraction_events.
  induction evs as [|e evs IH]; [reflexivity|]. cbn [map flat_map app]. now rewrite IH.
Qed.

Ltac main_stops :=
  cbn [snd fst]; intros [= <-]; repeat split;
  try lia; try reflexivity; try discriminate; try (intros; exfalso; lia).

(** X9. The exit status of [main].  It is at most 6.  It is 0 only when
    the program got exactly one argument, opened and read that file in
    full, created and entered the directory named after it, and the file
    passed the four checks of a container.  Any other status means that
    no file has been written, the status 1 of a rejected container
    included.  With a status from 2 to 4 the file system is as it was;
    a rejected container leaves the directory behind that was made for
    its files. *)
Theorem main_exit_status {W} (pf : platform W)
    (sink : W -> string -> list byte -> W * io_result)
    (std_sort : list PFS_CHUNK -> list PFS_CHUNK) (argv : list string) (w : W) (rc : N) :
  exit_status (main pf sink std_sort argv w) = Ret rc ->
  rc <= 6
  /\ (rc = 0 \/ (rc = 1 /\ List.length argv = 2%nat) ->
      exists prog path contents w1 w2,
        argv = [prog; path]
        /\ fopen_rb pf w path = Some contents
        /\ fread pf contents = N.of_nat (List.length contents)
        /\ makeDirectory pf w (path ++ ".extracted")%string = (w1, true)
        /\ changeDirectory pf w1 (path ++ ".extracted")%string = (w2, true)
        /\ valid_container contents 0 (N.of_nat (List.length contents)) = (rc =? 0)
        /\ (rc = 1 -> main_state (main pf sink std_sort argv w) = w2))
  /\ (rc <> 0 ->
      writes_of (extraction_events (main_events (main pf sink std_sort argv w))) = [])
  /\ (2 <= rc <= 4 -> main_state (main pf sink std_sort argv w) = w).
Proof.
  unfold main, exit_status, main_events, main_state.
  destruct argv as [|prog [|path [|x argv]]].
  1, 2, 4: cbn [snd fst]; intros [= <-]; repeat split; try lia; try reflexivity;
       intros [H|[_ H]]; discriminate.
  destruct (fopen_rb pf w path) as [contents|] eqn:Eopen;
    [|main_stops; intros [H|[H _]]; discriminate].
  cbv zeta.
  destruct (malloc pf _); cbn [negb]; [|main_stops; intros [H|[H _]]; discriminate].
  destruct (fread pf contents =? _) eqn:Eread; cbn [negb];
    [|main_stops; intros [H|[H _]]; discriminate].
  apply N.eqb_eq in Eread.
  destruct (sizeof_directory <=? _)%nat; [cbn [snd]; discriminate|].
  destruct (makeDirectory pf w _) as [w1 [|]] eqn:Emk; cbn [negb];
    [|main_stops; intros [H|[H _]]; discriminate].
  destruct (changeDirectory pf w1 _) as [w2 [|]] eqn:Ech; cbn [negb];
    [|main_stops; intros [H|[H _]]; discriminate].
  pose proof (validation_verdict sink std_sort contents (List.length contents) 0
                (N.of_nat (List.length contents)) None w2 ltac:(lia)) as [Hbad Hgood].
  unfold outcome_of, events_of, state_of in Hbad, Hgood.
  destruct (pfs_extract sink std_sort contents _ 0 _ None w2) as [[evs w3] r] eqn:Erun.
  cbn [fst snd] in *. intros ->.
  change (extraction_events
            ([EvMakeDirectory (path ++ ".extracted") true;
              EvChangeDirectory (path ++ ".extracted") true] ++ map EvExtract evs))
    with (extraction_events (map EvExtract evs)).
  rewrite extraction_events_map.
  destruct (valid_container contents 0 (N.of_nat (List.length contents))) eqn:Evalid.
  - assert (Hrc : rc = 0) by (apply Hgood; reflexivity). subst rc.
    split; [lia|]. split; [|split; [congruence | lia]].
    intros _. exists prog, path, contents, w1, w2.
    repeat split; try assumption. discriminate.
  - destruct (Hbad eq_refl) as (Hrc & Hw & Hst).
    injection Hrc as Hrc. subst rc.
    split; [lia|]. split; [|split; [intros _; exact Hw | lia]].
    intros _. exists prog, path, contents, w1, w2.
    repeat split; try assumption. intros _. exact Hst.
Qed.

Lemma main_exit_status_witness :
  exit_status
    (main {| fopen_rb := fun _ _ => Some empty_file;
             malloc := fun _ => true;
             fread := fun bs => N.of_nat (List.length bs);
             makeDirectory := fun w _ => (w, true);
             changeDirectory := fun w _ => (w, true) |}
       Build.ok_sink stable_sort ["PFSExtractor"; "a.bin"]%string tt) = Ret 0
  /\ valid_container empty_file 0 (N.of_nat (List.length empty_file)) = true.
Proof.
  assert (H : exit_status
                (main {| fopen_rb := fun _ _ => Some empty_file;
                         malloc := fun _ => true;
                         fread := fun bs => N.of_nat (List.length bs);
                         makeDirectory := fun w _ => (w, true);
                         changeDirectory := fun w _ => (w, true) |}
                   Build.ok_sink stable_sort ["PFSExtractor"; "a.bin"]%string tt) = Ret 0)
    by (vm_compute; reflexivity).
  split; [exact H|].
  destruct (main_exit_status _ _ _ _ _ _ H)
    as (_ & (prog & path & contents & w1 & w2 & Hargv & Hopen & _ & _ & _ & Hvalid & _) & _);
    [now left|].
  cbn [fopen_rb] in Hopen. injection Hopen as <-. exact Hvalid.
Defined.

Ltac no_extract Hno :=
  let E := fresh "E" in
  let x := fresh "x" in
  let Hx := fresh "Hx" in
  cbn [fst]; intros E; exfalso; apply (Hno _ E); cbn [In]; intros x Hx ?;
  repeat (destruct Hx as [<-|Hx]; [discriminate|]); contradiction.

(** X10. [main] extracts nowhere but in the directory it has made: any
    event of the extraction, a file write in particular, comes after the
    directory named after the input file with [.extracted] appended has
    been created and entered, both with success, and that name with its
    terminator fits the 240 bytes of [directory]. *)
Theorem main_extracts_inside_directory {W} (pf : platform W)
    (sink : W -> string -> list byte -> W * io_result)
    (std_sort : list PFS_CHUNK -> list PFS_CHUNK) (argv : list string) (w : W)
    (pre post : list main_event) (e : event) :
  main_events (main pf sink std_sort argv w) = pre ++ EvExtract e :: post ->
  exists prog path evs,
    argv = [prog; path]
    /\ (String.length (path ++ ".extracted") + 1 <= sizeof_directory)%nat
    /\ pre = EvMakeDirectory (path ++ ".extracted") true
             :: EvChangeDirectory (path ++ ".extracted") true :: map EvExtract evs.
Proof.
  assert (Hno : forall l : list main_event,
             l = pre ++ EvExtract e :: post ->
             (forall x, In x l -> forall e', x <> EvExtract e') -> False).
  { intros l E Hl. apply (Hl (EvExtract e)) with (e' := e); [|reflexivity].
    rewrite E. apply in_or_app. right. now left. }
  unfold main, main_events.
  destruct argv as [|prog [|path [|x argv]]].
  1, 2, 4: no_extract Hno.
  destruct (fopen_rb pf w path) as [contents|]; [|no_extract Hno].
  cbv zeta.
  destruct (malloc pf _); cbn [negb]; [|no_extract Hno].
  destruct (fread pf contents =? _); cbn [negb]; [|no_extract Hno].
  destruct (Nat.leb_spec sizeof_directory (String.length (path ++ ".extracted")))
    as [Hlong|Hfits]; [no_extract Hno|].
  destruct (makeDirectory pf w _) as [w1 [|]]; cbn [negb]; [|no_extract Hno].
  destruct (changeDirectory pf w1 _) as [w2 [|]]; cbn [negb]; [|no_extract Hno].
  destruct (pfs_extract sink std_sort contents _ 0 _ None w2) as [[evs w3] r].
  cbn [fst app]. intros E.
  destruct pre as [|p1 [|p2 pre]]; [discriminate | cbn in E; injection E as _ E; discriminate|].
  cbn [app] in E. injection E as <- <- E.
  exists prog, path. 
  assert (Hpre : forall (l : list event) pre', map EvExtract l = pre' ++ EvExtract e :: post ->
                                  exists l', pre' = map EvExtract l').
  { clear. intros l. revert post. induction l as [|x l IH]; intros post pre'; cbn [map].
    - destruct pre'; discriminate.
    - destruct pre' as [|y pre']; cbn [app]; intros E.
      + now exists [].
      + injection E as <- E. destruct (IH _ _ E) as [l' ->]. now exists (x :: l'). }
  destruct (Hpre _ _ E) as [l' ->]. exists l'.
  split; [reflexivity|]. split; [lia | reflexivity].
Qed.

Lemma main_extracts_inside_directory_witness :
  exists pre e post,
    main_events
      (main {| fopen_rb := fun _ _ => Some empty_file;
               malloc := fun _ => true;
               fread := fun bs => N.of_nat (List.length bs);
               makeDirectory := fun w _ => (w, true);
               changeDirectory := fun w _ => (w, true) |}
         Build.ok_sink stable_sort ["PFSExtractor"; "a.bin"]%string tt)
    = pre ++ EvExtract e :: post
    /\ pre = [EvMakeDirectory "a.bin.extracted" true;
              EvChangeDirectory "a.bin.extracted" true].
Proof.
  exists [EvMakeDirectory "a.bin.extracted" true; EvChangeDirectory "a.bin.extracted" true],
    (EvPrint (MsgFileHeader false PFS_HEADER_SIGNATURE 1 0)),
    [EvExtract (EvPrint (MsgFileFooter false PFS_FOOTER_SIGNATURE 0 0))].
  assert (H : main_events
                (main {| fopen_rb := fun _ _ => Some empty_file;
                         malloc := fun _ => true;
                         fread := fun bs => N.of_nat (List.length bs);
                         makeDirectory := fun w _ => (w, true);
                         changeDirectory := fun w _ => (w, true) |}
                   Build.ok_sink stable_sort ["PFSExtractor"; "a.bin"]%string tt)
              = [EvMakeDirectory "a.bin.extracted" true;
                 EvChangeDirectory "a.bin.extracted" true]
                ++ EvExtract (EvPrint (MsgFileHeader false PFS_HEADER_SIGNATURE 1 0))
                   :: [EvExtract (EvPrint (MsgFileFooter false PFS_FOOTER_SIGNATURE 0 0))])
    by (vm_compute; reflexivity).
  split; [exact H|].
  destruct (main_extracts_inside_directory _ _ _ _ _ _ _ _ H)
    as (prog & path & evs & Hargv & _ & Hpre).
  reflexivity.
Defined.

(** ** Reading back what was laid out *)

Lemma le_encode_length (width : nat) (n : N) :
  List.length (Build.le_encode width n) = width.
Proof.
  revert n. induction width as [|width IH]; intros n; cbn [Build.le_encode]; [reflexivity|].
  destruct (Byte.of_N (n mod 256)) as [b|] eqn:E.
  - cbn [List.length]. now rewrite IH.
  - apply Byte.of_N_None_iff in E. pose proof (N.mod_upper_bound n 256). lia.
Qed.

Lemma le_decode_encode (width : nat) (n : N) :
  n < 256 ^ N.of_nat width -> le_decode (Build.le_encode width n) = n.
Proof.
  revert n. induction width as [|width IH]; intros n Hn; cbn [Build.le_encode].
  - cbn in Hn. cbn. lia.
  - destruct (Byte.of_N (n mod 256)) as [b|] eqn:E.
    + cbn [le_decode fold_right]. fold (le_decode (Build.le_encode width (n / 256))).
      rewrite IH.
      * apply Byte.to_of_N in E. rewrite E. pose proof (N.div_mod' n 256). lia.
      * rewrite Nat2N.inj_succ, N.pow_succ_r' in Hn.
        apply N.Div0.div_lt_upper_bound. exact Hn.
    + apply Byte.of_N_None_iff in E. pose proof (N.mod_upper_bound n 256). lia.
Qed.

Lemma le_decode_inj (a : list byte) :
  forall b, List.length a = List.length b -> le_decode a = le_decode b -> a = b.
Proof.
  induction a as [|x a IH]; intros [|y b] Hl H; try discriminate; [reflexivity|].
  cbn [le_decode fold_right] in H. fold (le_decode a) in H. fold (le_decode b) in H.
  pose proof (Byte.to_N_bounded x). pose proof (Byte.to_N_bounded y).
  assert (Hxy : Byte.to_N x = Byte.to_N y) by lia.
  assert (Hab : le_decode a = le_decode b) by lia.
  f_equal.
  - assert (Hs : Some x = Some y)
      by (rewrite <- (Byte.of_to_N x), <- (Byte.of_to_N y); now rewrite Hxy).
    now injection Hs.
  - apply IH; [now injection Hl | exact Hab].
Qed.

Lemma stored_here (pre bs post : list byte) :
  stored (pre ++ bs ++ post) (N.of_nat (List.length pre)) bs.
Proof. now exists pre, post. Qed.

Lemma stored_app_l (mem : list byte) (off : N) (a b : list byte) :
  stored mem off (a ++ b) -> stored mem off a.
Proof.
  intros (pre & post & -> & ->). exists pre, (b ++ post). now rewrite <- app_assoc.
Qed.

Lemma stored_app_r (mem : list byte) (off : N) (a b : list byte) :
  stored mem off (a ++ b) -> stored mem (off + Build.size_of a) b.
Proof.
  intros (pre & post & -> & ->). exists (pre ++ a), post. split.
  - now rewrite <- !app_assoc.
  - unfold Build.size_of. rewrite length_app. lia.
Qed.

Lemma stored_bound (mem : list byte) (off : N) (bs : list byte) :
  stored mem off bs -> off + Build.size_of bs <= N.of_nat (List.length mem).
Proof.
  intros (pre & post & -> & ->). unfold Build.size_of. rewrite !length_app. lia.
Qed.

(** A span inside bytes that the buffer holds. *)
Lemma stored_span (mem : list byte) (off : N) (bs : list byte) (i n : N) :
  stored mem off bs -> i + n <= Build.size_of bs ->
  span mem (off + i) n = Some (firstn (N.to_nat n) (skipn (N.to_nat i) bs)).
Proof.
  intros (pre & post & -> & ->) Hin. unfold Build.size_of in Hin.
  rewrite span_some by (rewrite !length_app; lia). f_equal.
  replace (N.to_nat (N.of_nat (List.length pre) + i))
    with (N.to_nat i + List.length pre)%nat by lia.
  rewrite <- skipn_skipn.
  rewrite skipn_app, skipn_all, Nat.sub_diag. cbn [app skipn].
  rewrite skipn_app, firstn_app.
  rewrite length_skipn.
  replace (N.to_nat n - (List.length bs - N.to_nat i))%nat with 0%nat by lia.
  cbn [firstn]. now rewrite app_nil_r.
Qed.

Lemma stored_whole (mem : list byte) (off : N) (bs : list byte) :
  stored mem off bs -> span mem off (Build.size_of bs) = Some bs.
Proof.
  intros H. rewrite <- (N.add_0_r off).
  rewrite (stored_span mem off bs 0 (Build.size_of bs) H) by lia.
  cbn [N.to_nat skipn]. unfold Build.size_of. rewrite Nat2N.id. now rewrite firstn_all.
Qed.

Lemma stored_load (mem : list byte) (off : N) (width : nat) (n : N) :
  stored mem off (Build.le_encode width n) -> n < 256 ^ N.of_nat width ->
  load mem off (N.of_nat width) = Some n.
Proof.
  intros H Hn. unfold load.
  pose proof (stored_whole mem off _ H) as E. unfold Build.size_of in E.
  rewrite le_encode_length in E. rewrite E. cbn [option_map].
  now rewrite le_decode_encode.
Qed.

Lemma field_at {A} (pre fld post : list A) (o n : nat) :
  List.length pre = o -> List.length fld = n ->
  firstn n (skipn o (pre ++ fld ++ post)) = fld.
Proof.
  intros <- <-. rewrite skipn_app, skipn_all, Nat.sub_diag. cbn [app skipn].
  rewrite firstn_app, firstn_all, Nat.sub_diag. cbn [firstn]. apply app_nil_r.
Qed.

Lemma byte_of_N_to_N (ts : list N) :
  forallb (fun t => t <? 2 ^ 8) ts = true -> map Byte.to_N (map byte_of_N ts) = ts.
Proof.
  induction ts as [|t ts IH]; cbn [forallb map]; [reflexivity|].
  intros H. apply andb_prop in H as [Ht Hts]. apply N.ltb_lt in Ht.
  rewrite IH by exact Hts. f_equal. unfold byte_of_N.
  destruct (Byte.of_N t) as [b|] eqn:E.
  - now apply Byte.to_of_N.
  - apply Byte.of_N_None_iff in E. cbn in Ht. lia.
Qed.

Lemma header_fits_inv (hdr : PFS_SECTION_HEADER) :
  header_fits hdr = true ->
  List.length (Guid1 hdr) = 16%nat
  /\ HeaderVersion hdr < 2 ^ 32
  /\ List.length (VersionType hdr) = 4%nat
  /\ forallb (fun t => t <? 2 ^ 8) (VersionType hdr) = true
  /\ List.length (Version hdr) = 4%nat
  /\ forallb (fun v => v <? 2 ^ 16) (Version hdr) = true
  /\ Reserved hdr < 2 ^ 64
  /\ DataSize hdr < 2 ^ 32
  /\ DataSignatureSize hdr < 2 ^ 32
  /\ MetadataSize hdr < 2 ^ 32
  /\ MetadataSignatureSize hdr < 2 ^ 32
  /\ List.length (Guid2 hdr) = 16%nat.
Proof.
  unfold header_fits. intros H.
  repeat (apply andb_prop in H as [H ?]).
  repeat match goal with
         | H : (_ =? _)%nat = true |- _ => apply Nat.eqb_eq in H
         | H : (_ <? _) = true |- _ => apply N.ltb_lt in H
         end.
  repeat split; assumption.
Qed.

Lemma encode_section_header_length (hdr : PFS_SECTION_HEADER) :
  header_fits hdr = true ->
  Build.size_of (encode_section_header hdr) = sizeof_PFS_SECTION_HEADER.
Proof.
  intros H. apply header_fits_inv in H
    as (G1 & _ & T & _ & V & _ & _ & _ & _ & _ & _ & G2).
  unfold Build.size_of, encode_section_header.
  destruct (Version hdr) as [|v0 [|v1 [|v2 [|v3 [|]]]]]; try discriminate.
  cbn [map List.concat].
  rewrite !length_app, !le_encode_length, length_map, G1, T, G2. reflexivity.
Qed.

(** A header read from where it was laid out is the header laid out. *)
Lemma read_encoded_header (mem : list byte) (off : N) (hdr : PFS_SECTION_HEADER) :
  header_fits hdr = true ->
  stored mem off (encode_section_header hdr) ->
  read_section_header mem off = Some hdr.
Proof.
  intros Hfits Hst. unfold read_section_header.
  rewrite <- (encode_section_header_length hdr Hfits).
  rewrite (stored_whole _ _ _ Hst).
  apply header_fits_inv in Hfits
    as (G1 & HV & T & Tb & V & Vb & R & D & DS & M & MS & G2).
  destruct hdr as [g1 hv ts vs r d ds m ms g2].
  cbn [Guid1 HeaderVersion VersionType Version Reserved DataSize DataSignatureSize
       MetadataSize MetadataSignatureSize Guid2] in *.
  destruct vs as [|v0 [|v1 [|v2 [|v3 [|]]]]]; try discriminate.
  cbn [forallb] in Vb.
  apply andb_prop in Vb as [V0 Vb]. apply andb_prop in Vb as [V1 Vb].
  apply andb_prop in Vb as [V2 Vb]. apply andb_prop in Vb as [V3 _].
  apply N.ltb_lt in V0, V1, V2, V3.
  unfold encode_section_header.
  cbn [Guid1 HeaderVersion VersionType Version Reserved DataSize DataSignatureSize
       MetadataSize MetadataSignatureSize Guid2 map List.concat].
  rewrite app_nil_r, <- !app_assoc.
  set (e4 := Build.le_encode 4). set (e2 := Build.le_encode 2). set (e8 := Build.le_encode 8).
  set (tb := map byte_of_N ts).
  assert (Ltb : List.length tb = 4%nat) by (subst tb; now rewrite length_map).
  assert (L4 : forall n, List.length (e4 n) = 4%nat) by (intros; apply le_encode_length).
  assert (L2 : forall n, List.length (e2 n) = 2%nat) by (intros; apply le_encode_length).
  assert (L8 : forall n, List.length (e8 n) = 8%nat) by (intros; apply le_encode_length).
  assert (F : forall (pre fld post : list byte) o n,
             List.length pre = o -> List.length fld = n ->
             firstn n (skipn o (pre ++ fld ++ post)) = fld) by apply field_at.
  f_equal. f_equal.
  - apply (F [] g1); [reflexivity | exact G1].
  - rewrite <- (le_decode_encode 4 hv) at 2 by exact HV. f_equal.
    apply (F g1 (e4 hv)); [exact G1 | apply L4].
  - rewrite <- (byte_of_N_to_N ts Tb). f_equal. fold tb.
    rewrite (app_assoc g1). apply F; [rewrite length_app, G1, L4; reflexivity | exact Ltb].
  - f_equal; [|f_equal; [|f_equal; [|f_equal]]].
    + rewrite <- (le_decode_encode 2 v0) at 2 by exact V0. f_equal.
      rewrite (app_assoc (e4 hv)), (app_assoc g1).
      apply F; [rewrite !length_app, G1, L4, Ltb; reflexivity | apply L2].
    + rewrite <- (le_decode_encode 2 v1) at 2 by exact V1. f_equal.
      rewrite (app_assoc tb), (app_assoc (e4 hv)), (app_assoc g1).
      apply F; [rewrite !length_app, G1, L4, Ltb, L2; reflexivity | apply L2].
    + rewrite <- (le_decode_encode 2 v2) at 2 by exact V2. f_equal.
      rewrite (app_assoc (e2 v0)), (app_assoc tb), (app_assoc (e4 hv)), (app_assoc g1).
      apply F; [rewrite !length_app, G1, L4, Ltb, !L2; reflexivity | apply L2].
    + rewrite <- (le_decode_encode 2 v3) at 2 by exact V3. f_equal.
      rewrite (app_assoc (e2 v1)), (app_assoc (e2 v0)), (app_assoc tb),
        (app_assoc (e4 hv)), (app_assoc g1).
      apply F; [rewrite !length_app, G1, L4, Ltb, !L2; reflexivity | apply L2].
  - rewrite <- (le_decode_encode 8 r) at 2 by exact R. f_equal.
    rewrite (app_assoc (e2 v2)), (app_assoc (e2 v1)), (app_assoc (e2 v0)), (app_assoc tb),
      (app_assoc (e4 hv)), (app_assoc g1).
    apply F; [rewrite !length_app, G1, L4, Ltb, !L2; reflexivity | apply L8].
  - rewrite <- (le_decode_encode 4 d) at 2 by exact D. f_equal.
    rewrite (app_assoc (e2 v3)), (app_assoc (e2 v2)), (app_assoc (e2 v1)),
      (app_assoc (e2 v0)), (app_assoc tb), (app_assoc (e4 hv)), (app_assoc g1).
    apply F; [rewrite !length_app, G1, L4, Ltb, !L2, L8; reflexivity | apply L4].
  - rewrite <- (le_decode_encode 4 ds) at 2 by exact DS. f_equal.
    rewrite (app_assoc (e8 r)), (app_assoc (e2 v3)), (app_assoc (e2 v2)),
      (app_assoc (e2 v1)), (app_assoc (e2 v0)), (app_assoc tb), (app_assoc (e4 hv)),
      (app_assoc g1).
    apply F; [rewrite !length_app, G1, !L4, Ltb, !L2, L8; reflexivity | apply L4].
  - rewrite <- (le_decode_encode 4 m) at 2 by exact M. f_equal.
    rewrite (app_assoc (e4 d)), (app_assoc (e8 r)), (app_assoc (e2 v3)),
      (app_assoc (e2 v2)), (app_assoc (e2 v1)), (app_assoc (e2 v0)), (app_assoc tb),
      (app_assoc (e4 hv)), (app_assoc g1).
    apply F; [rewrite !length_app, G1, !L4, Ltb, !L2, L8; reflexivity | apply L4].
  - rewrite <- (le_decode_encode 4 ms) at 2 by exact MS. f_equal.
    rewrite (app_assoc (e4 ds)), (app_assoc (e4 d)), (app_assoc (e8 r)),
      (app_assoc (e2 v3)), (app_assoc (e2 v2)), (app_assoc (e2 v1)), (app_assoc (e2 v0)),
      (app_assoc tb), (app_assoc (e4 hv)), (app_assoc g1).
    rewrite <- (app_nil_r g2) at 1.
    rewrite (app_assoc _ (e4 ms)).
    rewrite <- (app_assoc _ (e4 ms)).
    apply F; [rewrite !length_app, G1, !L4, Ltb, !L2, L8; reflexivity | apply L4].
  - rewrite (app_assoc (e4 m)), (app_assoc (e4 ds)), (app_assoc (e4 d)), (app_assoc (e8 r)),
      (app_assoc (e2 v3)), (app_assoc (e2 v2)), (app_assoc (e2 v1)), (app_assoc (e2 v0)),
      (app_assoc tb), (app_assoc (e4 hv)), (app_assoc g1).
    rewrite <- (app_nil_r g2) at 1.
    apply F; [rewrite !length_app, G1, !L4, Ltb, !L2, L8; reflexivity | exact G2].
Qed.

Lemma le_encode_decode (bs : list byte) :
  Build.le_encode (List.length bs) (le_decode bs) = bs.
Proof.
  induction bs as [|b bs IH]; [reflexivity|].
  cbn [List.length Build.le_encode le_decode fold_right]. fold (le_decode bs).
  pose proof (Byte.to_N_bounded b) as Hb.
  replace ((Byte.to_N b + 256 * le_decode bs) mod 256) with (Byte.to_N b)
    by (rewrite (N.mul_comm 256), N.Div0.mod_add; symmetry; apply N.mod_small; lia).
  rewrite Byte.of_to_N.
  replace ((Byte.to_N b + 256 * le_decode bs) / 256) with (le_decode bs)
    by (rewrite (N.mul_comm 256), N.div_add by discriminate;
        rewrite (N.div_small (Byte.to_N b)) by lia; lia).
  now rewrite IH.
Qed.

Lemma byte_of_N_of_byte (bs : list byte) : map byte_of_N (map Byte.to_N bs) = bs.
Proof.
  induction bs as [|b bs IH]; [reflexivity|]. cbn [map]. rewrite IH. f_equal.
  unfold byte_of_N. now rewrite Byte.of_to_N.
Qed.

Lemma stored_of_span (mem : list byte) (off n : N) (bs : list byte) :
  span mem off n = Some bs -> stored mem off bs.
Proof.
  intros H. pose proof (span_inv _ _ _ _ H) as [Hb Hl].
  unfold span in H. destruct (off + n <=? _); [|discriminate]. injection H as H.
  exists (firstn (N.to_nat off) mem), (skipn (N.to_nat n) (skipn (N.to_nat off) mem)).
  split.
  - rewrite <- H. now rewrite firstn_skipn, firstn_skipn.
  - rewrite length_firstn. lia.
Qed.

(** The header that was read, laid out again, gives the bytes it was read from. *)
Lemma encode_read_header (mem : list byte) (off : N) (hdr : PFS_SECTION_HEADER) :
  read_section_header mem off = Some hdr ->
  header_fits hdr = true /\ stored mem off (encode_section_header hdr).
Proof.
  unfold read_section_header.
  destruct (span mem off sizeof_PFS_SECTION_HEADER) as [bs|] eqn:E; [|discriminate].
  pose proof (span_inv _ _ _ _ E) as [_ Hl]. apply stored_of_span in E.
  intros H. injection H as <-.
  change (N.to_nat sizeof_PFS_SECTION_HEADER) with 72%nat in Hl.
  do 72 (destruct bs as [|? bs]; [discriminate|]).
  destruct bs; [|discriminate]. clear Hl.
  split.
  - unfold header_fits.
    cbn [Guid1 HeaderVersion VersionType Version Reserved DataSize DataSignatureSize
         MetadataSize MetadataSignatureSize Guid2 firstn skipn List.length map forallb
         Nat.eqb andb].
    repeat match goal with
           | |- context [le_decode ?l <? ?k] =>
               replace (le_decode l <? k) with true
                 by (symmetry; apply N.ltb_lt;
                     eapply N.lt_le_trans; [apply le_decode_bound | cbn; lia])
           | |- context [Byte.to_N ?b <? ?k] =>
               replace (Byte.to_N b <? k) with true
                 by (symmetry; apply N.ltb_lt; pose proof (Byte.to_N_bounded b);
                     cbn; lia)
           end.
    reflexivity.
  - match goal with
    | H : stored mem off ?l |- stored mem off ?r => replace r with l; [exact H|]
    end.
    unfold encode_section_header.
    cbn [Guid1 HeaderVersion VersionType Version Reserved DataSize DataSignatureSize
         MetadataSize MetadataSignatureSize Guid2 firstn skipn map List.concat].
    repeat match goal with
           | |- context [Build.le_encode ?w (le_decode ?l)] =>
               rewrite (le_encode_decode l : Build.le_encode w (le_decode l) = l)
           end.
    unfold byte_of_N. rewrite !Byte.of_to_N. reflexivity.
Qed.

(** X11. Reading a section header and laying one out are inverse to
    each other: the header read at an offset of the buffer is [hdr]
    exactly when [hdr] fits the types of its fields and the buffer holds,
    from that offset on, the 72 bytes that the packed structure
    [PFS_SECTION_HEADER] gives it. *)
Theorem section_header_round_trip (mem : list byte) (off : N) (hdr : PFS_SECTION_HEADER) :
  (read_section_header mem off = Some hdr
   <-> header_fits hdr = true /\ stored mem off (encode_section_header hdr))
  /\ (header_fits hdr = true ->
      Build.size_of (encode_section_header hdr) = sizeof_PFS_SECTION_HEADER).
Proof.
  split; [split|].
  - apply encode_read_header.
  - intros [Hfits Hst]. now apply read_encoded_header.
  - apply encode_section_header_length.
Qed.

Lemma section_header_round_trip_witness :
  read_section_header Samples.plain_file 16
  = Some (Samples.first_header Samples.plain_file)
  /\ header_fits (Samples.first_header Samples.plain_file) = true
  /\ stored Samples.plain_file 16
       (encode_section_header (Samples.first_header Samples.plain_file)).
Proof.
  assert (H : read_section_header Samples.plain_file 16
              = Some (Samples.first_header Samples.plain_file)) by (vm_compute; reflexivity).
  split; [exact H|].
  exact (proj1 (proj1 (section_header_round_trip Samples.plain_file 16
                         (Samples.first_header Samples.plain_file))) H).
Defined.

(** ** What a well-formed file gives *)

Lemma performs_ret {W A} (a : A) : performs (@ret W A a) [] a.
Proof. intros w. split; reflexivity. Qed.

Lemma performs_bind {W A B} (m : M W A) (k : A -> M W B) f1 f2 a b :
  performs m f1 a -> performs (k a) f2 b -> performs (bind m k) (f1 ++ f2) b.
Proof.
  intros Hm Hk w. destruct (Hm w) as [Ho Hw].
  destruct (m w) as [[ev w1] o] eqn:E. unfold_run. subst o.
  destruct (Hk w1) as [Ho' Hw'].
  rewrite (bind_run _ _ _ _ _ _ E). unfold_run. split; [exact Ho'|].
  now rewrite writes_of_app, Hw, Hw'.
Qed.

(** The same when the value of the first computation is not known, as
    the result of [write_file] is not. *)
Lemma performs_bind_any {W A B} (m : M W A) (k : A -> M W B) f1 f2 b :
  (forall w, exists a, outcome_of (m w) = Ret a /\ writes_of (events_of (m w)) = f1) ->
  (forall a, performs (k a) f2 b) -> performs (bind m k) (f1 ++ f2) b.
Proof.
  intros Hm Hk w. destruct (Hm w) as (a & Ho & Hw).
  destruct (m w) as [[ev w1] o] eqn:E. unfold_run. subst o.
  destruct (Hk a w1) as [Ho' Hw'].
  rewrite (bind_run _ _ _ _ _ _ E). unfold_run. split; [exact Ho'|].
  now rewrite writes_of_app, Hw, Hw'.
Qed.

Lemma performs_bind_quiet {W A B} (m : M W A) (k : A -> M W B) files a b :
  performs m [] a -> performs (k a) files b -> performs (bind m k) files b.
Proof. intros Hm Hk. apply (performs_bind m k [] files a b Hm Hk). Qed.

Lemma performs_print {W} (m : message) : performs (@print W m) [] tt.
Proof. intros w. split; reflexivity. Qed.

Lemma performs_lift_some {W A} (o : option A) (a : A) :
  o = Some a -> performs (@lift_option W A o) [] a.
Proof. intros ->. apply performs_ret. Qed.

Lemma performs_equiv {W A} (m m' : M W A) files a :
  equiv m m' -> performs m files a -> performs m' files a.
Proof. intros He H w. rewrite <- (He w). apply H. Qed.

Lemma performs_write_file {W} (sink : W -> string -> list byte -> W * io_result)
    (filename : string) (bs : list byte) (w : W) :
  exists rc,
    outcome_of (write_file sink filename bs w) = Ret rc
    /\ writes_of (events_of (write_file sink filename bs w)) = [(filename, bs)].
Proof.
  destruct (write_file_run sink filename bs w) as (r & rc & rest & E & Hrest).
  exists rc. rewrite E. unfold_run. cbn [writes_of]. now rewrite Hrest.
Qed.

Lemma performs_show_version {W} (hdr : PFS_SECTION_HEADER) :
  performs (@show_version W hdr) [] (version_of hdr).
Proof.
  intros w. rewrite show_version_run. unfold_run. split.
  - unfold version_of, decode_version.
    now destruct (decode_components (components hdr)).
  - rewrite writes_of_app, writes_of_warnings.
    now destruct (fst (decode_components (components hdr))).
Qed.

Lemma performs_advance {W} (mem : list byte) (ptr size : N) :
  ptr + size <= N.of_nat (List.length mem) ->
  performs (@advance W mem ptr size) [] (ptr + size).
Proof.
  intros H. unfold advance. apply N.leb_le in H. rewrite H. apply performs_ret.
Qed.

Lemma size_of_zero (bs : list byte) : Build.size_of bs = 0 <-> bs = [].
Proof.
  unfold Build.size_of. destruct bs; cbn [List.length]; split; intros H;
    try reflexivity; try discriminate; lia.
Qed.

Lemma performs_emit_block {W} (sink : W -> string -> list byte -> W * io_result)
    (mem : list byte) (sectionNum : N) (version suffix : string) (ptr : N) (bs : list byte) :
  stored mem ptr bs ->
  performs (emit_block sink mem false (section_filename sectionNum version suffix) ptr
              (Build.size_of bs))
    (block_file sectionNum version suffix bs) tt.
Proof.
  intros Hst. unfold emit_block.
  destruct (N.eqb_spec (Build.size_of bs) 0) as [Hz|Hnz].
  - apply size_of_zero in Hz. subst bs. apply performs_ret.
  - assert (Hfile : block_file sectionNum version suffix bs
                    = [(section_filename sectionNum version suffix, bs)] ++ [] ++ []).
    { destruct bs; [now contradiction Hnz | reflexivity]. }
    rewrite Hfile.
    replace [(section_filename sectionNum version suffix, bs)]
      with ([] ++ [(section_filename sectionNum version suffix, bs)]) by reflexivity.
    rewrite <- app_assoc.
    eapply performs_bind; [apply performs_lift_some, stored_whole, Hst|].
    apply performs_bind_any; [intros w; apply performs_write_file|].
    intros _. apply performs_ret.
Qed.

Lemma section_fits_inv (s : PFS_SECTION) :
  section_fits s = true ->
  header_fits (Header s) = true
  /\ DataSize (Header s) = Build.size_of (Data s)
  /\ DataSignatureSize (Header s) = Build.size_of (DataSignature s)
  /\ MetadataSize (Header s) = Build.size_of (Metadata s)
  /\ MetadataSignatureSize (Header s) = Build.size_of (MetadataSignature s).
Proof.
  unfold section_fits. intros H. do 4 (apply andb_prop in H as [H ?]).
  repeat match goal with
         | H : (_ =? _) = true |- _ => apply N.eqb_eq in H
         end.
  repeat split; assumption.
Qed.

Lemma size_of_app (a b : list byte) :
  Build.size_of (a ++ b) = Build.size_of a + Build.size_of b.
Proof. unfold Build.size_of. rewrite length_app. lia. Qed.

(** Where the parts of a section lie once the section is in the buffer. *)
Lemma stored_section (mem : list byte) (off : N) (s : PFS_SECTION) :
  section_fits s = true ->
  stored mem off (encode_section s) ->
  read_section_header mem off = Some (Header s)
  /\ stored mem (off + 72) (Data s)
  /\ stored mem (off + 72 + Build.size_of (Data s)) (DataSignature s)
  /\ stored mem (off + 72 + Build.size_of (Data s) + Build.size_of (DataSignature s))
       (Metadata s)
  /\ stored mem (off + 72 + Build.size_of (Data s) + Build.size_of (DataSignature s)
                 + Build.size_of (Metadata s)) (MetadataSignature s)
  /\ off + 72 + Build.size_of (Data s) + Build.size_of (DataSignature s)
     + Build.size_of (Metadata s) + Build.size_of (MetadataSignature s)
     = off + Build.size_of (encode_section s)
  /\ off + Build.size_of (encode_section s) <= N.of_nat (List.length mem).
Proof.
  intros Hfits Hst. apply section_fits_inv in Hfits as (Hh & _).
  pose proof (encode_section_header_length _ Hh) as Hlen.
  change sizeof_PFS_SECTION_HEADER with 72 in Hlen.
  pose proof (stored_bound _ _ _ Hst) as Hb.
  unfold encode_section in *.
  pose proof (stored_app_l _ _ _ _ Hst) as H0.
  pose proof (stored_app_r _ _ _ _ Hst) as H1. rewrite Hlen in H1.
  pose proof (stored_app_l _ _ _ _ H1) as H1'.
  pose proof (stored_app_r _ _ _ _ H1) as H2.
  pose proof (stored_app_l _ _ _ _ H2) as H2'.
  pose proof (stored_app_r _ _ _ _ H2) as H3.
  pose proof (stored_app_l _ _ _ _ H3) as H3'.
  pose proof (stored_app_r _ _ _ _ H3) as H4.
  split; [now apply read_encoded_header|].
  repeat (split; [assumption|]).
  rewrite !size_of_app, Hlen in *. split; [lia | exact Hb].
Qed.

Section WellFormed.

Context {W : Type} (sink : W -> string -> list byte -> W * io_result).
Variable std_sort : list PFS_CHUNK -> list PFS_CHUNK.
Variable mem : list byte.

(** A section of a nested container, seen by a subsection pass. *)
Lemma subsection_step rec (off sectionNum : N) (collected : list PFS_CHUNK)
    (s : PFS_SECTION) :
  chunk_fits s = true ->
  stored mem off (encode_section s) ->
  performs (section_step sink mem rec true off sectionNum collected) []
    (off + Build.size_of (encode_section s), collected ++ chunks_of [s]).
Proof.
  intros Hfits Hst. unfold chunk_fits in Hfits. apply andb_prop in Hfits as [Hfits Hdata].
  destruct (stored_section mem off s Hfits Hst) as (Hread & Hd & Hds & Hm & Hms & Hend & Hb).
  apply section_fits_inv in Hfits as (_ & Ed & Eds & Em & Ems).
  pose proof (stored_bound _ _ _ Hd). pose proof (stored_bound _ _ _ Hds).
  pose proof (stored_bound _ _ _ Hm). pose proof (stored_bound _ _ _ Hms).
  unfold section_step, sizeof_PFS_SECTION_HEADER.
  change (@nil (string * list byte)) with (@nil (string * list byte) ++ []).
  eapply performs_bind; [apply performs_lift_some, Hread|].
  cbv beta. rewrite Ed, Eds, Em, Ems.
  change (@nil (string * list byte)) with (@nil (string * list byte) ++ []) at 1.
  eapply performs_bind; [apply performs_print|].
  change (@nil (string * list byte)) with (@nil (string * list byte) ++ []) at 1.
  eapply performs_bind; [apply performs_show_version|].
  change (@nil (string * list byte)) with (@nil (string * list byte) ++ []) at 1.
  eapply performs_bind; [apply performs_advance; lia|].
  change (@nil (string * list byte)) with (@nil (string * list byte) ++ []) at 1.
  eapply performs_bind with (a := collected ++ chunks_of [s]).
  { intros w. unfold chunks_of. cbn [flat_map]. rewrite app_nil_r.
    unfold data_block. rewrite Ed.
    destruct (Data s) as [|b d] eqn:Edata.
    - cbn. now rewrite app_nil_r.
    - rewrite <- Edata in *. clear Edata b d.
      apply N.leb_le in Hdata.
      replace (Build.size_of (Data s) =? 0) with false
        by (symmetry; apply N.eqb_neq; lia).
      assert (Hnum : load mem (off + 72 + 0x3E) 2
                     = Some (orderNum (chunk_of (Data s)))).
      { unfold load. rewrite (stored_span mem (off + 72) (Data s) 0x3E 2 Hd) by lia.
        reflexivity. }
      assert (Hbytes : span mem (off + 72 + 0x248) (Build.size_of (Data s) - 0x248)
                       = Some (data (chunk_of (Data s)))).
      { rewrite (stored_span mem (off + 72) (Data s) 0x248 _ Hd) by lia.
        f_equal. cbn [chunk_of data]. apply firstn_all2.
        rewrite length_skipn. unfold Build.size_of. lia. }
      rewrite (bind_lift_some _ _ _ _ Hnum). unfold vector_range.
      replace (off + 72 + 0x248 <=? off + 72 + Build.size_of (Data s)) with true
        by (symmetry; apply N.leb_le; lia).
      replace (off + 72 + Build.size_of (Data s) - (off + 72 + 0x248))
        with (Build.size_of (Data s) - 0x248) by lia.
      rewrite (bind_lift_some _ _ _ _ Hbytes). split; reflexivity. }
  change (@nil (string * list byte)) with (@nil (string * list byte) ++ []) at 1.
  eapply performs_bind; [apply performs_advance; lia|].
  assert (Hskip : forall name ptr size,
             performs (emit_block sink mem true name ptr size) [] tt).
  { intros name ptr size. unfold emit_block. destruct (size =? 0); apply performs_ret. }
  change (@nil (string * list byte)) with (@nil (string * list byte) ++ []) at 1.
  eapply performs_bind; [apply Hskip|].
  change (@nil (string * list byte)) with (@nil (string * list byte) ++ []) at 1.
  eapply performs_bind; [apply performs_advance; lia|].
  change (@nil (string * list byte)) with (@nil (string * list byte) ++ []) at 1.
  eapply performs_bind; [apply Hskip|].
  change (@nil (string * list byte)) with (@nil (string * list byte) ++ []) at 1.
  eapply performs_bind; [apply performs_advance; lia|].
  change (@nil (string * list byte)) with (@nil (string * list byte) ++ []) at 1.
  eapply performs_bind; [apply Hskip|].
  change (@nil (string * list byte)) with (@nil (string * list byte) ++ []) at 1.
  eapply performs_bind; [apply performs_advance; lia|].
  rewrite Hend. apply performs_ret.
Qed.

Lemma encode_sections_cons (s : PFS_SECTION) (cs : list PFS_SECTION) :
  encode_sections (s :: cs) = encode_section s ++ encode_sections cs.
Proof. reflexivity. Qed.

Lemma chunks_of_cons (s : PFS_SECTION) (cs : list PFS_SECTION) :
  chunks_of (s :: cs) = chunks_of [s] ++ chunks_of cs.
Proof. unfold chunks_of. cbn [flat_map]. now rewrite app_nil_r. Qed.

(** The walk of a subsection pass over the sections of a nested
    container: nothing written, every chunk collected, in file order. *)
Lemma subsection_walk rec (cs : list PFS_SECTION) :
  forall (fuel : nat) (off sectionNum : N) (collected : list PFS_CHUNK),
    forallb chunk_fits cs = true ->
    stored mem off (encode_sections cs) ->
    (List.length cs <= fuel)%nat ->
    performs (walk sink mem rec true (off + Build.size_of (encode_sections cs)) fuel
                off sectionNum collected) []
      (collected ++ chunks_of cs).
Proof.
  induction cs as [|s cs IH]; intros fuel off sectionNum collected Hfits Hst Hfuel.
  - cbn [encode_sections flat_map]. change (Build.size_of []) with 0.
    rewrite N.add_0_r, app_nil_r.
    destruct fuel; cbn [walk]; rewrite N.ltb_irrefl; apply performs_ret.
  - cbn [forallb] in Hfits. apply andb_prop in Hfits as [Hs Hcs].
    rewrite encode_sections_cons in *.
    pose proof (stored_app_l _ _ _ _ Hst) as Hhere.
    pose proof (stored_app_r _ _ _ _ Hst) as Hrest.
    assert (Hsz : 72 <= Build.size_of (encode_section s)).
    { unfold chunk_fits in Hs. apply andb_prop in Hs as [Hs _].
      destruct (stored_section mem off s Hs Hhere) as (_ & _ & _ & _ & _ & Hend & _). lia. }
    destruct fuel as [|fuel]; [cbn [List.length] in Hfuel; lia|].
    cbn [walk]. rewrite size_of_app.
    replace (off <? off + (Build.size_of (encode_section s)
                           + Build.size_of (encode_sections cs)))
      with true by (symmetry; apply N.ltb_lt; lia).
    change (@nil (string * list byte)) with (@nil (string * list byte) ++ []).
    eapply performs_bind; [apply subsection_step; eassumption|].
    cbv beta iota. rewrite (chunks_of_cons s cs), app_assoc, N.add_assoc.
    apply IH; [exact Hcs | exact Hrest | cbn [List.length] in Hfuel; lia].
Qed.

(** What is where once a container is in the buffer. *)
Lemma stored_container (buffer : N) (body : list byte) :
  Build.size_of body < 2 ^ 32 ->
  stored mem buffer (Build.container body) ->
  load mem buffer 8 = Some PFS_HEADER_SIGNATURE
  /\ load mem (buffer + 8) 4 = Some 1
  /\ load mem (buffer + 12) 4 = Some (Build.size_of body)
  /\ stored mem (buffer + 16) body
  /\ load mem (buffer + 16 + Build.size_of body) 4 = Some (Build.size_of body)
  /\ load mem (buffer + 16 + Build.size_of body + 4) 4 = Some 0
  /\ load mem (buffer + 16 + Build.size_of body + 8) 8 = Some PFS_FOOTER_SIGNATURE
  /\ Build.size_of (Build.container body) = 32 + Build.size_of body
  /\ buffer + 32 + Build.size_of body <= N.of_nat (List.length mem).
Proof.
  intros Hsz Hst. pose proof (stored_bound _ _ _ Hst) as Hb.
  unfold Build.container, Build.container_with in *.
  pose proof (stored_app_l _ _ _ _ Hst) as H0.
  pose proof (stored_app_r _ _ _ _ Hst) as H1.
  change (Build.size_of (bytes_of_string "PFS.HDR.")) with 8 in H1.
  pose proof (stored_app_l _ _ _ _ H1) as H1'.
  pose proof (stored_app_r _ _ _ _ H1) as H2.
  change (Build.size_of (Build.le_encode 4 1)) with 4 in H2.
  pose proof (stored_app_l _ _ _ _ H2) as H2'.
  pose proof (stored_app_r _ _ _ _ H2) as H3.
  assert (L4 : forall n, Build.size_of (Build.le_encode 4 n) = 4)
    by (intros n; unfold Build.size_of; now rewrite le_encode_length).
  rewrite L4 in H3.
  pose proof (stored_app_l _ _ _ _ H3) as H3'.
  pose proof (stored_app_r _ _ _ _ H3) as H4.
  pose proof (stored_app_l _ _ _ _ H4) as H4'.
  pose proof (stored_app_r _ _ _ _ H4) as H5. rewrite L4 in H5.
  pose proof (stored_app_l _ _ _ _ H5) as H5'.
  pose proof (stored_app_r _ _ _ _ H5) as H6.
  change (Build.size_of (Build.le_encode 4 0)) with 4 in H6.
  replace (buffer + 8 + 4) with (buffer + 12) in * by lia.
  replace (buffer + 12 + 4) with (buffer + 16) in * by lia.
  replace (buffer + 16 + Build.size_of body + 4 + 4)
    with (buffer + 16 + Build.size_of body + 8) in * by lia.
  split.
  { unfold load. pose proof (stored_whole _ _ _ H0) as E.
    change (Build.size_of (bytes_of_string "PFS.HDR.")) with 8 in E. now rewrite E. }
  split; [apply (stored_load mem _ 4 1 H1'); reflexivity|].
  split; [apply (stored_load mem _ 4 _ H2'); exact Hsz|].
  split; [exact H3'|].
  split; [apply (stored_load mem _ 4 _ H4'); exact Hsz|].
  split; [apply (stored_load mem _ 4 0 H5'); reflexivity|].
  split.
  { unfold load. pose proof (stored_whole _ _ _ H6) as E.
    change (Build.size_of (bytes_of_string "PFS.FTR.")) with 8 in E. now rewrite E. }
  assert (Hsize : Build.size_of
                    (bytes_of_string "PFS.HDR." ++ Build.le_encode 4 1
                     ++ Build.le_encode 4 (Build.size_of body) ++ body
                     ++ Build.le_encode 4 (Build.size_of body) ++ Build.le_encode 4 0
                     ++ bytes_of_string "PFS.FTR.")
                  = 32 + Build.size_of body).
  { rewrite !size_of_app, !L4.
    change (Build.size_of (bytes_of_string "PFS.HDR.")) with 8.
    change (Build.size_of (bytes_of_string "PFS.FTR.")) with 8. lia. }
  split; [exact Hsize | lia].
Qed.

(** A call on a container in the buffer gets past the prologue: it
    writes and returns what its pass over the sections does. *)
Lemma performs_container rec (buffer bufferSize : N) (filename : option string)
    (body : list byte) files rc :
  Build.size_of body < 2 ^ 32 ->
  stored mem buffer (Build.container body) ->
  32 + Build.size_of body <= bufferSize ->
  performs (sections_pass sink std_sort mem rec buffer (Build.size_of body) filename)
    files rc ->
  performs (pfs_extract_body sink std_sort mem rec buffer bufferSize filename) files rc.
Proof.
  intros Hsz Hst Hsize Hpass w.
  destruct (stored_container buffer body Hsz Hst)
    as (H1 & H2 & H3 & _ & H5 & H6 & H7 & _).
  rewrite (prologue_pass sink std_sort mem rec buffer bufferSize filename
             _ _ _ _ w H1 H2 H3 Hsize H5 H6 H7).
  destruct (Hpass w) as [Ho Hw]. unfold_run. split; [exact Ho|].
  cbn [writes_of]. now rewrite writes_of_app, writes_of_prints.
Qed.

(** The recursive call on a nested container: one file, the payloads of
    its chunks in the order [std::sort] puts them. *)
Lemma nested_call (depth : nat) (ptr : N) (name : string) (cs : list PFS_SECTION) :
  forallb chunk_fits cs = true ->
  Build.size_of (Build.container (encode_sections cs)) < 2 ^ 32 ->
  stored mem ptr (Build.container (encode_sections cs)) ->
  performs (pfs_extract sink std_sort mem (S depth) ptr
              (Build.size_of (Build.container (encode_sections cs))) (Some name))
    [(name, List.concat (map data (std_sort (chunks_of cs))))] 0.
Proof.
  intros Hfits Hsz Hst.
  assert (Hbody : Build.size_of (encode_sections cs) < 2 ^ 32).
  { unfold Build.container, Build.container_with in Hsz.
    rewrite !size_of_app in Hsz. lia. }
  destruct (stored_container ptr _ Hbody Hst)
    as (_ & _ & _ & Hsecs & _ & _ & _ & Hsize & Hb).
  cbn [pfs_extract].
  apply (performs_container _ _ _ _ (encode_sections cs)); [assumption | assumption | lia |].
  intros w.
  assert (Hlen : (List.length cs <= S (List.length mem))%nat).
  { clear - Hfits Hsecs.
    assert (H : N.of_nat (List.length cs) <= Build.size_of (encode_sections cs)).
    { clear Hsecs. induction cs as [|s cs IH]; [cbn; lia|].
      cbn [forallb] in Hfits. apply andb_prop in Hfits as [Hs Hcs].
      rewrite encode_sections_cons, size_of_app. specialize (IH Hcs).
      unfold chunk_fits in Hs. apply andb_prop in Hs as [Hs _].
      apply section_fits_inv in Hs as (Hh & _).
      pose proof (encode_section_header_length _ Hh) as Hl.
      unfold encode_section. rewrite size_of_app, Hl.
      change sizeof_PFS_SECTION_HEADER with 72. cbn [List.length]. lia. }
    pose proof (stored_bound _ _ _ Hsecs). lia. }
  pose proof (subsection_walk (pfs_extract sink std_sort mem depth) cs
                (S (List.length mem)) (ptr + 16) 0 [] Hfits Hsecs Hlen w) as [Ho _].
  cbn [app] in Ho.
  apply (sections_pass_reassembles sink std_sort mem _ ptr _ name w _ Ho).
Qed.

Lemma bytes_eqb_eq (a : list byte) : forall b, bytes_eqb a b = true <-> a = b.
Proof.
  induction a as [|x a IH]; intros [|y b]; cbn [bytes_eqb]; split; intros H;
    try reflexivity; try discriminate.
  - apply andb_prop in H as [Hxy Hab]. apply Byte.byte_dec_bl in Hxy.
    apply IH in Hab. now subst.
  - injection H as -> ->. rewrite (Byte.byte_dec_lb eq_refl). now apply IH.
Qed.

(** Data that does not begin as a container fails the test for the magic. *)
Lemma plain_data_not_magic (ptr : N) (d : list byte) :
  stored mem ptr d -> d <> [] -> begins_container d = false ->
  ptr + 8 <= N.of_nat (List.length mem) ->
  exists sig, load mem ptr 8 = Some sig /\ (sig =? PFS_HEADER_SIGNATURE) = false.
Proof.
  intros Hst Hne Hplain Hb. unfold load. rewrite span_some by exact Hb.
  cbn [option_map]. eexists. split; [reflexivity|].
  apply N.eqb_neq. intros Heq.
  assert (Hx : firstn 8 (skipn (N.to_nat ptr) mem) = bytes_of_string "PFS.HDR.").
  { apply le_decode_inj; [|exact Heq].
    rewrite length_firstn, length_skipn.
    change (List.length (bytes_of_string "PFS.HDR.")) with 8%nat. lia. }
  pose proof (stored_whole _ _ _ Hst) as Hd.
  rewrite span_some in Hd by (apply stored_bound; exact Hst).
  injection Hd as Hd. unfold Build.size_of in Hd. rewrite Nat2N.id in Hd.
  assert (Htrue : begins_container d = true).
  { unfold begins_container. apply bytes_eqb_eq.
    rewrite <- Hd at 1. rewrite firstn_firstn.
    rewrite <- Hx. rewrite firstn_firstn.
    f_equal. lia. }
  congruence.
Qed.

(** One section of a file, seen by a normal pass: its files, in order. *)
Lemma entry_step (depth : nat) (off sectionNum : N) (collected : list PFS_CHUNK)
    (e : PFS_ENTRY) :
  entry_fits e = true ->
  stored mem off (encode_section (Raw e)) ->
  off + Build.size_of (encode_section (Raw e)) + 8 <= N.of_nat (List.length mem) ->
  performs (section_step sink mem (pfs_extract sink std_sort mem (S depth)) false
              off sectionNum collected)
    (files_of_entry std_sort sectionNum e)
    (off + Build.size_of (encode_section (Raw e)), collected).
Proof.
  intros Hfits Hst Hroom. unfold entry_fits in Hfits.
  apply andb_prop in Hfits as [Hfits Hkind].
  destruct (stored_section mem off _ Hfits Hst) as (Hread & Hd & Hds & Hm & Hms & Hend & Hb).
  apply section_fits_inv in Hfits as (Hh & Ed & Eds & Em & Ems).
  pose proof (stored_bound _ _ _ Hd). pose proof (stored_bound _ _ _ Hds).
  pose proof (stored_bound _ _ _ Hm). pose proof (stored_bound _ _ _ Hms).
  unfold section_step, sizeof_PFS_SECTION_HEADER, files_of_entry. cbv zeta.
  eapply performs_bind_quiet; [apply performs_lift_some, Hread|].
  cbv beta. rewrite Ed, Eds, Em, Ems.
  eapply performs_bind_quiet; [apply performs_print|].
  eapply performs_bind_quiet; [apply performs_show_version|].
  eapply performs_bind_quiet; [apply performs_advance; lia|].
  rewrite app_assoc.
  eapply performs_bind with (a := collected).
  { unfold data_block. rewrite Ed.
    destruct (Chunks e) as [cs|].
    - apply andb_prop in Hkind as [Hdata Hcs]. apply bytes_eqb_eq in Hdata.
      rewrite Hdata in *.
      assert (Hsz : Build.size_of (Build.container (encode_sections cs)) < 2 ^ 32).
      { apply header_fits_inv in Hh as (_ & _ & _ & _ & _ & _ & _ & D & _). now rewrite Ed in D. }
      assert (Hbody : Build.size_of (encode_sections cs) < 2 ^ 32).
      { unfold Build.container, Build.container_with in Hsz.
        rewrite !size_of_app in Hsz. lia. }
      destruct (stored_container (off + 72) _ Hbody Hd) as (Hsig & _ & _ & _ & _ & _ & _ & Hsize & _).
      replace (Build.size_of (Build.container (encode_sections cs)) =? 0) with false
        by (symmetry; apply N.eqb_neq; lia).
      eapply performs_bind_quiet; [apply performs_lift_some, stored_whole, Hd|].
      assert (Hfile : block_file sectionNum (version_of (Header (Raw e))) "data"
                        (Build.container (encode_sections cs))
                      = [(section_filename sectionNum (version_of (Header (Raw e))) "data",
                          Build.container (encode_sections cs))]).
      { unfold block_file.
        destruct (Build.container (encode_sections cs)) eqn:Ec; [|reflexivity].
        change (Build.size_of []) with 0 in Hsize. lia. }
      rewrite Hfile.
      apply performs_bind_any; [intros w; apply performs_write_file|]. intros _.
      eapply performs_bind_quiet; [apply performs_lift_some, Hsig|].
      rewrite N.eqb_refl.
      rewrite <- (app_nil_r [_]).
      eapply performs_bind; [|apply performs_ret].
      apply nested_call; assumption.
    - destruct (Data (Raw e)) as [|b d] eqn:Edata.
      + cbn. apply performs_ret.
      + rewrite <- Edata in *.
        assert (Hne : Data (Raw e) <> []) by (rewrite Edata; discriminate).
        clear Edata b d.
        assert (Hplain : begins_container (Data (Raw e)) = false).
        { destruct (begins_container (Data (Raw e))); [|reflexivity].
          destruct (Data (Raw e)); [now contradiction Hne | discriminate]. }
        destruct (plain_data_not_magic (off + 72) _ Hd Hne Hplain ltac:(lia))
          as (sig & Hsig & Hneq).
        replace (Build.size_of (Data (Raw e)) =? 0) with false
          by (symmetry; apply N.eqb_neq; intros Hz; apply size_of_zero in Hz; contradiction).
        eapply performs_bind_quiet; [apply performs_lift_some, stored_whole, Hd|].
        assert (Hfile : block_file sectionNum (version_of (Header (Raw e))) "data"
                          (Data (Raw e))
                        = [(section_filename sectionNum (version_of (Header (Raw e))) "data",
                            Data (Raw e))]).
        { unfold block_file. destruct (Data (Raw e)); [now contradiction Hne | reflexivity]. }
        rewrite Hfile, app_nil_r.
        rewrite <- (app_nil_r [_]).
        apply performs_bind_any; [intros w; apply performs_write_file|]. intros _.
        eapply performs_bind_quiet; [apply performs_lift_some, Hsig|].
        rewrite Hneq. apply performs_ret. }
  cbv beta.
  eapply performs_bind_quiet; [apply performs_advance; lia|].
  eapply performs_bind; [apply performs_emit_block, Hds|].
  eapply performs_bind_quiet; [apply performs_advance; lia|].
  eapply performs_bind; [apply performs_emit_block, Hm|].
  eapply performs_bind_quiet; [apply performs_advance; lia|].
  rewrite <- (app_nil_r (block_file _ _ "mtsg" _)).
  eapply performs_bind; [apply performs_emit_block, Hms|].
  eapply performs_bind_quiet; [apply performs_advance; lia|].
  rewrite Hend. apply performs_ret.
Qed.

Lemma sections_count (secs : list PFS_SECTION) :
  forallb section_fits secs = true ->
  N.of_nat (List.length secs) <= Build.size_of (encode_sections secs).
Proof.
  induction secs as [|s secs IH]; intros Hfits; [cbn; lia|].
  cbn [forallb] in Hfits. apply andb_prop in Hfits as [Hs Hsecs].
  rewrite encode_sections_cons, size_of_app. specialize (IH Hsecs).
  apply section_fits_inv in Hs as (Hh & _).
  pose proof (encode_section_header_length _ Hh) as Hl.
  unfold encode_section. rewrite size_of_app, Hl.
  change sizeof_PFS_SECTION_HEADER with 72. cbn [List.length]. lia.
Qed.

(** The walk of a normal pass over the sections of a file. *)
Lemma entries_walk (depth : nat) (es : list PFS_ENTRY) :
  forall (fuel : nat) (off sectionNum : N) (collected : list PFS_CHUNK),
    forallb entry_fits es = true ->
    stored mem off (encode_sections (map Raw es)) ->
    off + Build.size_of (encode_sections (map Raw es)) + 8 <= N.of_nat (List.length mem) ->
    (List.length es <= fuel)%nat ->
    performs (walk sink mem (pfs_extract sink std_sort mem (S depth)) false
                (off + Build.size_of (encode_sections (map Raw es))) fuel
                off sectionNum collected)
      (expected_files std_sort sectionNum es) collected.
Proof.
  induction es as [|e es IH]; intros fuel off sectionNum collected Hfits Hst Hroom Hfuel.
  - cbn [map encode_sections flat_map expected_files]. change (Build.size_of []) with 0.
    rewrite N.add_0_r.
    destruct fuel; cbn [walk]; rewrite N.ltb_irrefl; apply performs_ret.
  - cbn [forallb] in Hfits. apply andb_prop in Hfits as [He Hes].
    cbn [map expected_files] in *. rewrite encode_sections_cons in *.
    rewrite size_of_app in *.
    pose proof (stored_app_l _ _ _ _ Hst) as Hhere.
    pose proof (stored_app_r _ _ _ _ Hst) as Hrest.
    assert (Hsz : 72 <= Build.size_of (encode_section (Raw e))).
    { unfold entry_fits in He. apply andb_prop in He as [He _].
      destruct (stored_section mem off _ He Hhere) as (_ & _ & _ & _ & _ & Hend & _). lia. }
    destruct fuel as [|fuel]; [cbn [List.length] in Hfuel; lia|].
    cbn [walk].
    replace (off <? off + (Build.size_of (encode_section (Raw e))
                           + Build.size_of (encode_sections (map Raw es))))
      with true by (symmetry; apply N.ltb_lt; lia).
    eapply performs_bind; [apply entry_step; [exact He | exact Hhere | lia]|].
    cbv beta iota. rewrite N.add_assoc.
    apply IH; [exact Hes | exact Hrest | lia | cbn [List.length] in Hfuel; lia].
Qed.

End WellFormed.

Lemma forallb_entry_sections (es : list PFS_ENTRY) :
  forallb entry_fits es = true -> forallb section_fits (map Raw es) = true.
Proof.
  induction es as [|e es IH]; [reflexivity|]. cbn [forallb map]. intros H.
  apply andb_prop in H as [He Hes]. rewrite (IH Hes), Bool.andb_true_r.
  unfold entry_fits in He. now apply andb_prop in He as [He _].
Qed.

(** A call without a target name on a well-formed container, wherever
    the buffer holds it. *)
Lemma container_call {W} (sink : W -> string -> list byte -> W * io_result)
    (std_sort : list PFS_CHUNK -> list PFS_CHUNK) (mem : list byte) (depth : nat)
    (buffer bufferSize : N) (es : list PFS_ENTRY) :
  forallb entry_fits es = true ->
  Build.size_of (encode_sections (map Raw es)) < 2 ^ 32 ->
  stored mem buffer (Build.container (encode_sections (map Raw es))) ->
  32 + Build.size_of (encode_sections (map Raw es)) <= bufferSize ->
  performs (pfs_extract sink std_sort mem (S (S depth)) buffer bufferSize None)
    (expected_files std_sort 0 es) 0.
Proof.
  intros Hfits Hsz Hst Hsize. set (body := encode_sections (map Raw es)) in *.
  destruct (stored_container mem buffer body Hsz Hst)
    as (_ & _ & _ & Hsecs & _ & _ & _ & _ & Hb).
  change (pfs_extract sink std_sort mem (S (S depth)) buffer bufferSize None)
    with (pfs_extract_body sink std_sort mem (pfs_extract sink std_sort mem (S depth))
            buffer bufferSize None).
  apply (performs_container sink std_sort mem _ buffer _ None body); try assumption.
  unfold sections_pass. cbn [is_subsection reassemble].
  rewrite <- (app_nil_r (expected_files std_sort 0 es)).
  eapply performs_bind.
  - apply (entries_walk sink std_sort mem depth es (S (List.length mem))
             (buffer + sizeof_PFS_FILE_HEADER) 0 []).
    + exact Hfits.
    + exact Hsecs.
    + fold body. unfold sizeof_PFS_FILE_HEADER. lia.
    + pose proof (sections_count _ (forallb_entry_sections es Hfits)) as Hcount.
      rewrite length_map in Hcount. fold body in Hcount.
      pose proof (stored_bound _ _ _ Hsecs). lia.
  - eapply performs_bind_quiet; apply performs_ret.
Qed.

(** The call of [main] has all the depth it needs as soon as the file
    has two bytes. *)
Lemma main_extract_depth {W} (sink : W -> string -> list byte -> W * io_result)
    (std_sort : list PFS_CHUNK -> list PFS_CHUNK) (mem : list byte) :
  (2 <= List.length mem)%nat ->
  main_extract sink std_sort mem
  = pfs_extract sink std_sort mem (S (S (List.length mem - 1))) 0
      (N.of_nat (List.length mem)) None.
Proof.
  intros H. unfold main_extract.
  now replace (S (List.length mem)) with (S (S (List.length mem - 1))) by lia.
Qed.

(** A container has its header and its footer around its body. *)
Lemma container_size (body trailing : list byte) :
  Build.size_of (Build.container body ++ trailing)
  = 32 + Build.size_of body + Build.size_of trailing.
Proof.
  unfold Build.container, Build.container_with.
  assert (L4 : forall n, Build.size_of (Build.le_encode 4 n) = 4)
    by (intros n; unfold Build.size_of; now rewrite le_encode_length).
  rewrite !size_of_app, !L4.
  change (Build.size_of (bytes_of_string "PFS.HDR.")) with 8.
  change (Build.size_of (bytes_of_string "PFS.FTR.")) with 8. lia.
Qed.

(** X12. Extraction is correct on well-formed files.  Take any sections
    whose headers fit their fields and declare the sizes of their blocks,
    the data of each being either opaque bytes that do not begin with the
    container magic, or a nested container of chunks that each carry at
    least the 0x248 bytes in front of their payload.  Run on the file
    that lays these sections out between a header and a footer, with any
    bytes behind the footer, [main]'s call returns 0 and writes, section
    by section and in this order, the data, the payload of a nested
    container (the payloads of its chunks as [std::sort] orders them),
    the signature, the metadata and its signature, each under its name
    and with exactly its bytes, empty blocks left out, and nothing else,
    whatever the file system does. *)
Theorem well_formed_file_is_extracted {W}
    (sink : W -> string -> list byte -> W * io_result)
    (std_sort : list PFS_CHUNK -> list PFS_CHUNK) (es : list PFS_ENTRY)
    (trailing : list byte) (w : W) :
  forallb entry_fits es = true ->
  Build.size_of (encode_sections (map Raw es)) < 2 ^ 32 ->
  outcome_of (main_extract sink std_sort
                (Build.container (encode_sections (map Raw es)) ++ trailing) w) = Ret 0
  /\ writes_of (events_of (main_extract sink std_sort
                             (Build.container (encode_sections (map Raw es)) ++ trailing) w))
     = expected_files std_sort 0 es.
Proof.
  intros Hfits Hsz.
  assert (Hst : stored (Build.container (encode_sections (map Raw es)) ++ trailing) 0
                  (Build.container (encode_sections (map Raw es))))
    by (exists [], trailing; split; reflexivity).
  pose proof (container_size (encode_sections (map Raw es)) trailing) as Hlen.
  unfold Build.size_of at 1 in Hlen.
  rewrite main_extract_depth by lia.
  apply container_call; [exact Hfits | exact Hsz | exact Hst | lia].
Qed.

Lemma well_formed_file_is_extracted_witness :
  forallb entry_fits sample_entries = true
  /\ outcome_of (main_extract Build.ok_sink stable_sort
                   (Build.container (encode_sections (map Raw sample_entries))
                    ++ Samples.text "trailing") tt) = Ret 0
  /\ writes_of (events_of (main_extract Build.ok_sink stable_sort
                             (Build.container (encode_sections (map Raw sample_entries))
                              ++ Samples.text "trailing") tt))
     = [("section_0_FF.10.data"%string, Samples.text "hello");
        ("section_0_FF.10.sign"%string, Samples.text "sg");
        ("section_0_FF.10.mtsg"%string, Samples.text "ms");
        ("section_1_.data"%string, Build.container (encode_sections sample_chunks));
        ("section_1_.payload"%string, Samples.text "AABB");
        ("section_1_.meta"%string, Samples.text "meta")].
Proof.
  assert (H1 : forallb entry_fits sample_entries = true) by (vm_compute; reflexivity).
  assert (H2 : Build.size_of (encode_sections (map Raw sample_entries)) < 2 ^ 32)
    by (vm_compute; reflexivity).
  destruct (well_formed_file_is_extracted Build.ok_sink stable_sort sample_entries
              (Samples.text "trailing") tt H1 H2) as [Ho Hw].
  split; [exact H1|]. split; [exact Ho|]. rewrite Hw. vm_compute. reflexivity.
Defined.

(** X13. The recursive call on a nested container, wherever the buffer
    holds it: when the sections of the container are chunks, each with at
    least 0x248 bytes in front of its payload, the call returns 0 and
    writes one file, under the target name: the payloads of the chunks,
    each taken from offset 0x248 of the data of its section, put together
    in ascending order of the numbers found at offset 0x3E.  When these
    numbers are all different the file is determined: it is what a stable
    sort gives. *)
Theorem nested_container_is_reassembled {W}
    (sink : W -> string -> list byte -> W * io_result)
    (std_sort : list PFS_CHUNK -> list PFS_CHUNK) (mem : list byte) (depth : nat)
    (ptr : N) (name : string) (cs : list PFS_SECTION) (w : W) :
  std_sort_contract std_sort ->
  forallb chunk_fits cs = true ->
  Build.size_of (Build.container (encode_sections cs)) < 2 ^ 32 ->
  stored mem ptr (Build.container (encode_sections cs)) ->
  exists sorted,
    Permutation (chunks_of cs) sorted
    /\ Sorted chunk_le sorted
    /\ (NoDup (map orderNum (chunks_of cs)) -> sorted = stable_sort (chunks_of cs))
    /\ outcome_of (pfs_extract sink std_sort mem (S depth) ptr
                     (Build.size_of (Build.container (encode_sections cs)))
                     (Some name) w) = Ret 0
    /\ writes_of (events_of (pfs_extract sink std_sort mem (S depth) ptr
                               (Build.size_of (Build.container (encode_sections cs)))
                               (Some name) w))
       = [(name, List.concat (map data sorted))].
Proof.
  intros Hsort Hfits Hsz Hst. exists (std_sort (chunks_of cs)).
  destruct (Hsort (chunks_of cs)) as [Hperm Hsorted].
  split; [exact Hperm|]. split; [exact Hsorted|].
  split; [intros Hnd; now apply std_sort_distinct|].
  apply (nested_call sink std_sort mem depth ptr name cs Hfits Hsz Hst w).
Qed.

Lemma nested_container_is_reassembled_witness :
  stored (Samples.text "in front" ++ Build.container (encode_sections sample_chunks) ++ [])
    8 (Build.container (encode_sections sample_chunks))
  /\ exists sorted,
       map orderNum sorted = [1; 2]
       /\ writes_of
            (events_of
               (pfs_extract Build.ok_sink stable_sort
                  (Samples.text "in front"
                   ++ Build.container (encode_sections sample_chunks) ++ [])
                  1 8 (Build.size_of (Build.container (encode_sections sample_chunks)))
                  (Some "payload"%string) tt))
          = [("payload"%string, List.concat (map data sorted))].
Proof.
  assert (H1 : forallb chunk_fits sample_chunks = true) by (vm_compute; reflexivity).
  assert (H2 : Build.size_of (Build.container (encode_sections sample_chunks)) < 2 ^ 32)
    by (vm_compute; reflexivity).
  assert (H3 : stored (Samples.text "in front"
                       ++ Build.container (encode_sections sample_chunks) ++ [])
                 8 (Build.container (encode_sections sample_chunks)))
    by (exists (Samples.text "in front"), []; split; reflexivity).
  split; [exact H3|].
  destruct (nested_container_is_reassembled Build.ok_sink stable_sort _ 0 8 "payload"
              sample_chunks tt stable_sort_contract H1 H2 H3)
    as (sorted & _ & _ & Hdet & _ & Hw).
  exists sorted. split; [|exact Hw].
  rewrite Hdet; [vm_compute; reflexivity|].
  vm_compute. constructor; [intros [H|[]]; discriminate|].
  constructor; [intros []|]. constructor.
Defined.

(** ** [main], from the command line to the files *)

(** X14. [main] always comes to an end: the run never stops for want of
    fuel, whatever the command line, the platform and the file hold.
    The outcome of the model is undefined in exactly two cases, both
    after one argument was given and its file opened, allocated and read:
    the name of the output directory does not fit the 240 bytes of
    [directory]; or the directory was made and entered and the call of
    [pfs_extract] itself is undefined, which only happens on a file that
    has passed the four checks of a container.  (That the strings of
    [guid_to_string] come from [malloc] and are released by [delete] is
    taken to do what [free] does; the model has no outcome for it.) *)
Theorem main_comes_to_an_end {W} (pf : platform W)
    (sink : W -> string -> list byte -> W * io_result)
    (std_sort : list PFS_CHUNK -> list PFS_CHUNK) (argv : list string) (w : W) :
  exit_status (main pf sink std_sort argv w) <> OutOfFuel
  /\ (exit_status (main pf sink std_sort argv w) = Undefined
      <-> exists prog path contents,
            argv = [prog; path]
            /\ fopen_rb pf w path = Some contents
            /\ malloc pf (N.of_nat (List.length contents)) = true
            /\ fread pf contents = N.of_nat (List.length contents)
            /\ ((sizeof_directory <= String.length (path ++ ".extracted"))%nat
                \/ exists w1 w2,
                     (String.length (path ++ ".extracted") < sizeof_directory)%nat
                     /\ makeDirectory pf w (path ++ ".extracted")%string = (w1, true)
                     /\ changeDirectory pf w1 (path ++ ".extracted")%string = (w2, true)
                     /\ outcome_of (main_extract sink std_sort contents w2) = Undefined))
  /\ (forall contents w2,
         outcome_of (main_extract sink std_sort contents w2) = Undefined ->
         valid_container contents 0 (N.of_nat (List.length contents)) = true).
Proof.
  assert (Hvalid : forall contents w2,
             outcome_of (main_extract sink std_sort contents w2) = Undefined ->
             valid_container contents 0 (N.of_nat (List.length contents)) = true).
  { intros contents w2 Hu. unfold main_extract in Hu.
    pose proof (validation_verdict sink std_sort contents (List.length contents) 0
                  (N.of_nat (List.length contents)) None w2 ltac:(lia)) as [Hbad _].
    destruct (valid_container contents 0 (N.of_nat (List.length contents)));
      [reflexivity|].
    destruct (Hbad eq_refl) as [Habs _]. rewrite Hu in Habs. discriminate. }
  assert (Hfuel : forall contents w2,
             outcome_of (main_extract sink std_sort contents w2) <> OutOfFuel).
  { intros contents w2. unfold main_extract. destruct contents as [|b contents].
    - cbn [List.length pfs_extract]. now rewrite prologue_input_too_small.
    - cbn [List.length]. rewrite (any_depth sink std_sort).
      apply any_depth_terminates. }
  split; [|split; [|exact Hvalid]].
  - unfold main, exit_status.
    destruct argv as [|prog [|path [|x argv]]]; try (cbn [snd]; discriminate).
    destruct (fopen_rb pf w path) as [contents|]; [|cbn [snd]; discriminate].
    cbv zeta.
    destruct (malloc pf _); cbn [negb]; [|cbn [snd]; discriminate].
    destruct (fread pf contents =? _); cbn [negb]; [|cbn [snd]; discriminate].
    destruct (sizeof_directory <=? _)%nat; [cbn [snd]; discriminate|].
    destruct (makeDirectory pf w _) as [w1 [|]]; cbn [negb]; [|cbn [snd]; discriminate].
    destruct (changeDirectory pf w1 _) as [w2 [|]]; cbn [negb]; [|cbn [snd]; discriminate].
    specialize (Hfuel contents w2). unfold main_extract, outcome_of in Hfuel.
    destruct (pfs_extract sink std_sort contents _ 0 _ None w2) as [[evs w3] r].
    exact Hfuel.
  - unfold main, exit_status. split.
    + destruct argv as [|prog [|path [|x argv]]]; try (cbn [snd]; discriminate).
      destruct (fopen_rb pf w path) as [contents|] eqn:Eopen; [|cbn [snd]; discriminate].
      cbv zeta.
      destruct (malloc pf _) eqn:Emalloc; cbn [negb]; [|cbn [snd]; discriminate].
      destruct (fread pf contents =? _) eqn:Eread; cbn [negb]; [|cbn [snd]; discriminate].
      apply N.eqb_eq in Eread.
      destruct (Nat.leb_spec sizeof_directory (String.length (path ++ ".extracted")))
        as [Hlong|Hfits].
      { intros _. exists prog, path, contents. repeat split; try assumption. now left. }
      destruct (makeDirectory pf w _) as [w1 [|]] eqn:Emk; cbn [negb];
        [|cbn [snd]; discriminate].
      destruct (changeDirectory pf w1 _) as [w2 [|]] eqn:Ech; cbn [negb];
        [|cbn [snd]; discriminate].
      intros Hu. exists prog, path, contents. repeat split; try assumption.
      right. exists w1, w2. repeat split; try assumption.
      unfold main_extract, outcome_of.
      destruct (pfs_extract sink std_sort contents _ 0 _ None w2) as [[evs w3] r].
      exact Hu.
    + intros (prog & path & contents & -> & Hopen & Hmalloc & Hread & Hcase).
      rewrite Hopen. cbv zeta. rewrite Hmalloc, Hread, N.eqb_refl. cbn [negb].
      destruct Hcase as [Hlong|(w1 & w2 & Hfits & Hmk & Hch & Hu)].
      * apply Nat.leb_le in Hlong. rewrite Hlong. reflexivity.
      * apply Nat.leb_gt in Hfits. rewrite Hfits, Hmk. cbn [negb]. rewrite Hch.
        cbn [negb]. unfold main_extract, outcome_of in Hu.
        destruct (pfs_extract sink std_sort contents _ 0 _ None w2) as [[evs w3] r].
        exact Hu.
Qed.

Lemma main_comes_to_an_end_witness :
  exit_status
    (main {| fopen_rb := fun _ _ => Some short_chunk_file;
             malloc := fun _ => true;
             fread := fun bs => N.of_nat (List.length bs);
             makeDirectory := fun w _ => (w, true);
             changeDirectory := fun w _ => (w, true) |}
       Build.ok_sink stable_sort ["PFSExtractor"; "a.bin"]%string tt) = Undefined
  /\ outcome_of (main_extract Build.ok_sink stable_sort short_chunk_file tt) = Undefined
  /\ valid_container short_chunk_file 0 (N.of_nat (List.length short_chunk_file)) = true.
Proof.
  assert (H : outcome_of (main_extract Build.ok_sink stable_sort short_chunk_file tt)
              = Undefined) by (vm_compute; reflexivity).
  destruct (main_comes_to_an_end
              {| fopen_rb := fun _ _ => Some short_chunk_file;
                 malloc := fun _ => true;
                 fread := fun bs => N.of_nat (List.length bs);
                 makeDirectory := fun w _ => (w, true);
                 changeDirectory := fun w _ => (w, true) |}
              Build.ok_sink stable_sort ["PFSExtractor"; "a.bin"]%string tt)
    as (_ & [_ Hback] & Hvalid).
  split; [|split; [exact H | exact (Hvalid _ _ H)]].
  apply Hback. exists "PFSExtractor"%string, "a.bin"%string, short_chunk_file.
  split; [reflexivity|]. split; [reflexivity|]. split; [reflexivity|].
  split; [reflexivity|]. right. exists tt, tt.
  split; [vm_compute; lia|]. split; [reflexivity|]. split; [reflexivity | exact H].
Defined.

(** X15. From the command line to the files.  Given one argument that
    names a well-formed file, with a name short enough for [directory],
    on a platform that opens and reads the file and creates and enters
    the directory, [main] exits with status 0, and what it does is this:
    it creates the directory, enters it, and extracts; the files written
    are those of the sections, in order. *)
Theorem main_extracts_well_formed_file {W} (pf : platform W)
    (sink : W -> string -> list byte -> W * io_result)
    (std_sort : list PFS_CHUNK -> list PFS_CHUNK) (prog path : string)
    (es : list PFS_ENTRY) (trailing : list byte) (w w1 w2 : W) :
  forallb entry_fits es = true ->
  Build.size_of (encode_sections (map Raw es)) < 2 ^ 32 ->
  fopen_rb pf w path = Some (Build.container (encode_sections (map Raw es)) ++ trailing) ->
  malloc pf (Build.size_of (Build.container (encode_sections (map Raw es)) ++ trailing))
  = true ->
  fread pf (Build.container (encode_sections (map Raw es)) ++ trailing)
  = Build.size_of (Build.container (encode_sections (map Raw es)) ++ trailing) ->
  (String.length (path ++ ".extracted") < sizeof_directory)%nat ->
  makeDirectory pf w (path ++ ".extracted")%string = (w1, true) ->
  changeDirectory pf w1 (path ++ ".extracted")%string = (w2, true) ->
  exit_status (main pf sink std_sort [prog; path] w) = Ret 0
  /\ exists evs,
       main_events (main pf sink std_sort [prog; path] w)
       = EvMakeDirectory (path ++ ".extracted") true
         :: EvChangeDirectory (path ++ ".extracted") true :: map EvExtract evs
       /\ writes_of evs = expected_files std_sort 0 es.
Proof.
  intros Hfits Hsz Hopen Hmalloc Hread Hname Hmk Hch.
  unfold main, exit_status, main_events. rewrite Hopen. cbv zeta.
  unfold Build.size_of in Hmalloc, Hread. rewrite Hmalloc, Hread, N.eqb_refl.
  cbn [negb]. apply Nat.leb_gt in Hname. rewrite Hname, Hmk. cbn [negb]. rewrite Hch.
  cbn [negb].
  assert (Hst : stored (Build.container (encode_sections (map Raw es)) ++ trailing) 0
                  (Build.container (encode_sections (map Raw es))))
    by (exists [], trailing; split; reflexivity).
  pose proof (container_size (encode_sections (map Raw es)) trailing) as Hlen.
  unfold Build.size_of at 1 in Hlen.
  replace (S (List.length (Build.container (encode_sections (map Raw es)) ++ trailing)))
    with (S (S (List.length (Build.container (encode_sections (map Raw es)) ++ trailing) - 1)))
    by lia.
  destruct (container_call sink std_sort _
              (List.length (Build.container (encode_sections (map Raw es)) ++ trailing) - 1)
              0 (N.of_nat (List.length (Build.container (encode_sections (map Raw es))
                                        ++ trailing)))
              es Hfits Hsz Hst ltac:(lia) w2) as [Ho Hw].
  unfold outcome_of, events_of in Ho, Hw.
  destruct (pfs_extract sink std_sort _ _ 0 _ None w2) as [[evs w3] r].
  cbn [fst snd] in *. split; [exact Ho|]. exists evs. split; [reflexivity | exact Hw].
Qed.

Lemma main_extracts_well_formed_file_witness :
  exit_status
    (main {| fopen_rb := fun _ _ =>
                           Some (Build.container (encode_sections (map Raw sample_entries))
                                 ++ []);
             malloc := fun _ => true;
             fread := fun bs => N.of_nat (List.length bs);
             makeDirectory := fun w _ => (w, true);
             changeDirectory := fun w _ => (w, true) |}
       Build.ok_sink stable_sort ["PFSExtractor"; "a.bin"]%string tt) = Ret 0.
Proof.
  apply (main_extracts_well_formed_file
           {| fopen_rb := fun _ _ =>
                            Some (Build.container (encode_sections (map Raw sample_entries))
                                  ++ []);
              malloc := fun _ => true;
              fread := fun bs => N.of_nat (List.length bs);
              makeDirectory := fun w _ => (w, true);
              changeDirectory := fun w _ => (w, true) |}
           Build.ok_sink stable_sort "PFSExtractor" "a.bin" sample_entries [] tt tt tt).
  - vm_compute; reflexivity.
  - vm_compute; reflexivity.
  - reflexivity.
  - reflexivity.
  - reflexivity.
  - vm_compute; lia.
  - reflexivity.
  - reflexivity.
Defined.

(** * The claims that rest on the layout of a well-formed file *)

(** ** A section that is not a nested container, read from the buffer *)

Lemma span_size (mem : list byte) (off n : N) (bs : list byte) :
  span mem off n = Some bs -> Build.size_of bs = n.
Proof.
  intros H. apply span_inv in H as [_ Hl]. unfold Build.size_of. lia.
Qed.

Lemma performs_emit_span {W} (sink : W -> string -> list byte -> W * io_result)
    (mem : list byte) (sectionNum : N) (version suffix : string) (ptr size : N)
    (bs : list byte) :
  span mem ptr size = Some bs ->
  performs (emit_block sink mem false (section_filename sectionNum version suffix) ptr size)
    (block_file sectionNum version suffix bs) tt.
Proof.
  intros H. rewrite <- (span_size _ _ _ _ H).
  apply performs_emit_block. now apply stored_of_span in H.
Qed.

(** One turn of the loop of a normal pass on a section whose four blocks
    lie in the buffer and whose data does not carry the container magic:
    the blocks that are not empty are written, in order, and the pointer
    ends behind the last of them. *)
Lemma plain_section_step {W} (sink : W -> string -> list byte -> W * io_result)
    (mem : list byte) (rec : N -> N -> option string -> M W N)
    (off sectionNum : N) (chunks : list PFS_CHUNK) (hdr : PFS_SECTION_HEADER)
    (d ds m ms : list byte) :
  read_section_header mem off = Some hdr ->
  span mem (off + 72) (DataSize hdr) = Some d ->
  span mem (off + 72 + DataSize hdr) (DataSignatureSize hdr) = Some ds ->
  span mem (off + 72 + DataSize hdr + DataSignatureSize hdr) (MetadataSize hdr) = Some m ->
  span mem (off + 72 + DataSize hdr + DataSignatureSize hdr + MetadataSize hdr)
    (MetadataSignatureSize hdr) = Some ms ->
  (DataSize hdr <> 0 ->
   exists sig, load mem (off + 72) 8 = Some sig /\ sig <> PFS_HEADER_SIGNATURE) ->
  performs (section_step sink mem rec false off sectionNum chunks)
    (block_file sectionNum (version_of hdr) "data" d
     ++ block_file sectionNum (version_of hdr) "sign" ds
     ++ block_file sectionNum (version_of hdr) "meta" m
     ++ block_file sectionNum (version_of hdr) "mtsg" ms)
    (off + 72 + DataSize hdr + DataSignatureSize hdr + MetadataSize hdr
     + MetadataSignatureSize hdr, chunks).
Proof.
  intros Hread Hd Hds Hm Hms Hplain.
  pose proof (span_inv _ _ _ _ Hd) as [Bd _]. pose proof (span_inv _ _ _ _ Hds) as [Bds _].
  pose proof (span_inv _ _ _ _ Hm) as [Bm _]. pose proof (span_inv _ _ _ _ Hms) as [Bms _].
  unfold section_step, sizeof_PFS_SECTION_HEADER.
  eapply performs_bind_quiet; [apply performs_lift_some, Hread|]. cbv beta.
  eapply performs_bind_quiet; [apply performs_print|].
  eapply performs_bind_quiet; [apply performs_show_version|].
  eapply performs_bind_quiet; [apply performs_advance; lia|].
  eapply performs_bind with (a := chunks).
  { unfold data_block.
    destruct (N.eqb_spec (DataSize hdr) 0) as [Hz|Hnz].
    - pose proof (span_size _ _ _ _ Hd) as Hs. rewrite Hz in Hs.
      apply size_of_zero in Hs. subst d. apply performs_ret.
    - destruct (Hplain Hnz) as (sig & Hsig & Hne).
      assert (Hfile : block_file sectionNum (version_of hdr) "data" d
                      = [(section_filename sectionNum (version_of hdr) "data", d)] ++ []).
      { destruct d; [|reflexivity]. apply span_size in Hd. now contradiction Hnz. }
      rewrite Hfile.
      eapply performs_bind_quiet; [apply performs_lift_some, Hd|].
      apply performs_bind_any; [intros w; apply performs_write_file|]. intros _.
      eapply performs_bind_quiet; [apply performs_lift_some, Hsig|].
      apply N.eqb_neq in Hne. rewrite Hne. apply performs_ret. }
  cbv beta.
  eapply performs_bind_quiet; [apply performs_advance; lia|].
  eapply performs_bind; [apply performs_emit_span, Hds|].
  eapply performs_bind_quiet; [apply performs_advance; lia|].
  eapply performs_bind; [apply performs_emit_span, Hm|].
  eapply performs_bind_quiet; [apply performs_advance; lia|].
  rewrite <- (app_nil_r (block_file _ _ "mtsg" _)).
  eapply performs_bind; [apply performs_emit_span, Hms|].
  eapply performs_bind_quiet; [apply performs_advance; lia|].
  apply performs_ret.
Qed.

(** C1 (as amended). The walk makes no check against truncation and has
    no failure of that kind to signal.  A section whose header starts
    below [dataEnd] is handled like any other; when its declared blocks
    end at [dataEnd] or run past it, while still inside the buffer, its
    blocks are written out all the same (in a normal pass the data block
    is the first write), and the walk ends after that section because
    the pointer is no longer below [dataEnd].  The events of a walk start
    with those of its first section, so what earlier sections wrote is
    kept; and a pass that has got past the validation of header and size
    can only return 0.  When the four blocks lie in the buffer and the
    data is not a nested container, the walk of a normal pass does
    return: it has written exactly the blocks of that section that are
    not empty, with the bytes the buffer holds there, those behind
    [dataEnd] included; and a pass that begins with that section writes
    these files and returns 0. *)
Theorem overrunning_section_is_processed {W}
    (sink : W -> string -> list byte -> W * io_result) (mem : list byte)
    (rec : N -> N -> option string -> M W N) (isSubsection : bool) (dataEnd : N)
    (fuel : nat) (off sectionNum : N) (chunks : list PFS_CHUNK) (w : W)
    (hdr : PFS_SECTION_HEADER) :
  off < dataEnd ->
  read_section_header mem off = Some hdr ->
  dataEnd <= off + sizeof_PFS_SECTION_HEADER + DataSize hdr + DataSignatureSize hdr
             + MetadataSize hdr + MetadataSignatureSize hdr ->
  walk sink mem rec isSubsection dataEnd (S fuel) off sectionNum chunks w
  = bind (section_step sink mem rec isSubsection off sectionNum chunks)
      (fun r => ret (snd r)) w
  /\ events_of (walk sink mem rec isSubsection dataEnd (S fuel) off sectionNum chunks w)
     = events_of (section_step sink mem rec isSubsection off sectionNum chunks w)
  /\ (isSubsection = false -> DataSize hdr <> 0 ->
      forall bs,
        span mem (off + sizeof_PFS_SECTION_HEADER) (DataSize hdr) = Some bs ->
        exists io pre post,
          events_of (walk sink mem rec isSubsection dataEnd (S fuel) off sectionNum chunks w)
          = pre ++ EvWrite (section_filename sectionNum
                              (fst (decode_version (components hdr))) "data") bs io :: post
          /\ writes_of pre = [])
  /\ (forall fuel' off' sectionNum' chunks' w',
         off' < dataEnd ->
         exists rest,
           events_of (walk sink mem rec isSubsection dataEnd (S fuel') off' sectionNum'
                        chunks' w')
           = events_of (section_step sink mem rec isSubsection off' sectionNum' chunks' w')
             ++ rest)
  /\ (forall std_sort buffer dataSize filename w' rc,
         outcome_of (sections_pass sink std_sort mem rec buffer dataSize filename w') = Ret rc ->
         rc = 0)
  /\ (isSubsection = false ->
      forall d ds m ms,
        span mem (off + sizeof_PFS_SECTION_HEADER) (DataSize hdr) = Some d ->
        span mem (off + sizeof_PFS_SECTION_HEADER + DataSize hdr) (DataSignatureSize hdr)
        = Some ds ->
        span mem (off + sizeof_PFS_SECTION_HEADER + DataSize hdr + DataSignatureSize hdr)
          (MetadataSize hdr) = Some m ->
        span mem (off + sizeof_PFS_SECTION_HEADER + DataSize hdr + DataSignatureSize hdr
                  + MetadataSize hdr) (MetadataSignatureSize hdr) = Some ms ->
        (DataSize hdr <> 0 ->
         exists sig, load mem (off + sizeof_PFS_SECTION_HEADER) 8 = Some sig
                     /\ sig <> PFS_HEADER_SIGNATURE) ->
        (outcome_of (walk sink mem rec isSubsection dataEnd (S fuel) off sectionNum chunks w)
         = Ret chunks
         /\ writes_of (events_of (walk sink mem rec isSubsection dataEnd (S fuel) off
                                    sectionNum chunks w))
            = block_file sectionNum (version_of hdr) "data" d
              ++ block_file sectionNum (version_of hdr) "sign" ds
              ++ block_file sectionNum (version_of hdr) "meta" m
              ++ block_file sectionNum (version_of hdr) "mtsg" ms)
        /\ (forall std_sort buffer dataSize w',
               off = buffer + sizeof_PFS_FILE_HEADER ->
               dataEnd = buffer + sizeof_PFS_FILE_HEADER + dataSize ->
               outcome_of (sections_pass sink std_sort mem rec buffer dataSize None w') = Ret 0
               /\ writes_of (events_of (sections_pass sink std_sort mem rec buffer dataSize
                                          None w'))
                  = block_file 0 (version_of hdr) "data" d
                    ++ block_file 0 (version_of hdr) "sign" ds
                    ++ block_file 0 (version_of hdr) "meta" m
                    ++ block_file 0 (version_of hdr) "mtsg" ms)).
Proof.
  intros Hlt Hread Hend.
  pose proof (walk_last_section sink mem rec isSubsection dataEnd fuel off sectionNum
                chunks w hdr Hlt Hread Hend) as Hwalk.
  assert (Hev : events_of (walk sink mem rec isSubsection dataEnd (S fuel) off sectionNum
                             chunks w)
                = events_of (section_step sink mem rec isSubsection off sectionNum chunks w))
    by (rewrite Hwalk; apply events_bind_ret).
  split; [exact Hwalk|]. split; [exact Hev|].
  split.
  { intros -> Hd bs Hspan. rewrite Hev. now apply section_step_writes_data. }
  split.
  { intros fuel' off' sectionNum' chunks' w' Hlt'. cbn [walk].
    replace (off' <? dataEnd) with true by (symmetry; now apply N.ltb_lt).
    apply events_bind_prefix. }
  split.
  { intros std_sort buffer dataSize filename w' rc Hrc.
    destruct (sections_pass sink std_sort mem rec buffer dataSize filename w')
      as [[ev w''] o] eqn:E.
    unfold_run. subst o.
    exact (sections_pass_returns_zero sink std_sort mem rec buffer dataSize filename
             _ _ _ _ E). }
  intros -> d ds m ms Hd Hds Hm Hms Hplain.
  assert (Hlast : forall fuel' sectionNum' chunks',
             performs (walk sink mem rec false dataEnd (S fuel') off sectionNum' chunks')
               (block_file sectionNum' (version_of hdr) "data" d
                ++ block_file sectionNum' (version_of hdr) "sign" ds
                ++ block_file sectionNum' (version_of hdr) "meta" m
                ++ block_file sectionNum' (version_of hdr) "mtsg" ms) chunks').
  { intros fuel' sectionNum' chunks'.
    eapply performs_equiv.
    - intros w0. symmetry.
      apply (walk_last_section sink mem rec false dataEnd fuel' off sectionNum' chunks' w0
               hdr Hlt Hread Hend).
    - rewrite <- (app_nil_r (_ ++ _)).
      eapply performs_bind;
        [apply (plain_section_step sink mem rec off sectionNum' chunks' hdr d ds m ms);
         assumption|].
      cbn [snd]. apply performs_ret. }
  split; [apply (Hlast fuel sectionNum chunks w)|].
  intros std_sort buffer dataSize w' -> ->.
  unfold sections_pass. cbn [is_subsection reassemble].
  assert (Hpass : performs
            (bind (walk sink mem rec false (buffer + sizeof_PFS_FILE_HEADER + dataSize)
                     (S (List.length mem)) (buffer + sizeof_PFS_FILE_HEADER) 0 [])
               (fun _ => bind (ret tt) (fun _ => ret 0)))
            ((block_file 0 (version_of hdr) "data" d
              ++ block_file 0 (version_of hdr) "sign" ds
              ++ block_file 0 (version_of hdr) "meta" m
              ++ block_file 0 (version_of hdr) "mtsg" ms) ++ []) 0).
  { eapply performs_bind; [apply Hlast|].
    eapply performs_bind_quiet; apply performs_ret. }
  rewrite app_nil_r in Hpass. apply (Hpass w').
Qed.

Lemma overrunning_section_is_processed_witness :
  16 < 92
  /\ read_section_header Samples.overrun_file 16
     = Some (Samples.first_header Samples.overrun_file)
  /\ 92 <= 16 + sizeof_PFS_SECTION_HEADER
           + DataSize (Samples.first_header Samples.overrun_file)
           + DataSignatureSize (Samples.first_header Samples.overrun_file)
           + MetadataSize (Samples.first_header Samples.overrun_file)
           + MetadataSignatureSize (Samples.first_header Samples.overrun_file)
  /\ events_of (walk Build.ok_sink Samples.overrun_file
                  (pfs_extract Build.ok_sink stable_sort Samples.overrun_file 1)
                  false 92 1 16 0 [] tt)
     = events_of (section_step Build.ok_sink Samples.overrun_file
                    (pfs_extract Build.ok_sink stable_sort Samples.overrun_file 1)
                    false 16 0 [] tt)
  /\ outcome_of (walk Build.ok_sink Samples.overrun_file
                   (pfs_extract Build.ok_sink stable_sort Samples.overrun_file 1)
                   false 92 1 16 0 [] tt) = Ret []
  /\ writes_of (events_of (sections_pass Build.ok_sink stable_sort Samples.overrun_file
                             (pfs_extract Build.ok_sink stable_sort Samples.overrun_file 1)
                             0 76 None tt))
     = [("section_0_.data"%string, Samples.text "abcd" ++ Build.le_encode 4 76)]
  /\ outcome_of (sections_pass Build.ok_sink stable_sort Samples.overrun_file
                   (pfs_extract Build.ok_sink stable_sort Samples.overrun_file 1)
                   0 76 None tt) = Ret 0.
Proof.
  assert (H1 : 16 < 92) by reflexivity.
  assert (H2 : read_section_header Samples.overrun_file 16
               = Some (Samples.first_header Samples.overrun_file))
    by (vm_compute; reflexivity).
  assert (H3 : 92 <= 16 + sizeof_PFS_SECTION_HEADER
                    + DataSize (Samples.first_header Samples.overrun_file)
                    + DataSignatureSize (Samples.first_header Samples.overrun_file)
                    + MetadataSize (Samples.first_header Samples.overrun_file)
                    + MetadataSignatureSize (Samples.first_header Samples.overrun_file))
    by (vm_compute; discriminate).
  split; [exact H1|]. split; [exact H2|]. split; [exact H3|].
  destruct (overrunning_section_is_processed Build.ok_sink Samples.overrun_file
              (pfs_extract Build.ok_sink stable_sort Samples.overrun_file 1)
              false 92 0 16 0 [] tt
              (Samples.first_header Samples.overrun_file) H1 H2 H3)
    as (_ & Hev & _ & _ & _ & Hplain).
  split; [exact Hev|].
  destruct (Hplain eq_refl (Samples.text "abcd" ++ Build.le_encode 4 76) [] [] [])
    as [[Ho _] Hpass]; try (vm_compute; reflexivity).
  { intros _. eexists. split; [vm_compute; reflexivity | vm_compute; discriminate]. }
  split; [exact Ho|].
  destruct (Hpass stable_sort 0 76 tt eq_refl eq_refl) as [Hpo Hpw].
  split; [rewrite Hpw; vm_compute; reflexivity | exact Hpo].
Defined.

(** ** Containers nested in one another *)

Lemma section_as_encoded (d : list byte) :
  Build.section [] [] d [] [] []
  = encode_section (section_of [0; 0; 0; 0] [0; 0; 0; 0] d [] [] []).
Proof.
  unfold Build.section, encode_section, encode_section_header, section_of.
  cbn [Header Data DataSignature Metadata MetadataSignature Guid1 HeaderVersion VersionType
       Version Reserved DataSize DataSignatureSize MetadataSize MetadataSignatureSize Guid2].
  rewrite <- !app_assoc. reflexivity.
Qed.

Lemma nest_as_encoded (k : nat) :
  Samples.nest k
  = Build.container
      (encode_sections [section_of [0; 0; 0; 0] [0; 0; 0; 0] (nest_data k) [] [] []]).
Proof.
  unfold encode_sections. cbn [flat_map]. rewrite app_nil_r, <- section_as_encoded.
  destruct k; reflexivity.
Qed.

Lemma section_of_size (d : list byte) :
  Build.size_of (encode_section (section_of [0; 0; 0; 0] [0; 0; 0; 0] d [] [] []))
  = 72 + Build.size_of d.
Proof.
  unfold encode_section, encode_section_header, section_of, Build.size_of, Build.zeros.
  cbn [Header Data DataSignature Metadata MetadataSignature Guid1 HeaderVersion VersionType
       Version Reserved DataSize DataSignatureSize MetadataSize MetadataSignatureSize Guid2
       map List.concat].
  rewrite !length_app, !le_encode_length, !repeat_length. cbn [List.length]. lia.
Qed.

Lemma nest_size (k : nat) :
  Build.size_of (Samples.nest k) = 104 + Build.size_of (nest_data k).
Proof.
  rewrite nest_as_encoded.
  pose proof (container_size
                (encode_sections [section_of [0; 0; 0; 0] [0; 0; 0; 0] (nest_data k) [] [] []])
                []) as H.
  rewrite app_nil_r in H. rewrite H.
  unfold encode_sections. cbn [flat_map]. rewrite app_nil_r, section_of_size.
  change (Build.size_of []) with 0. lia.
Qed.

Lemma nest_data_size (k : nat) : 768 <= Build.size_of (nest_data k).
Proof.
  induction k as [|k IH].
  - vm_compute. discriminate.
  - cbn [nest_data]. rewrite nest_size. lia.
Qed.

Lemma section_of_fits (d : list byte) :
  Build.size_of d < 2 ^ 32 ->
  section_fits (section_of [0; 0; 0; 0] [0; 0; 0; 0] d [] [] []) = true.
Proof.
  intros H. unfold section_fits, header_fits, section_of.
  cbn [Header Data DataSignature Metadata MetadataSignature Guid1 HeaderVersion VersionType
       Version Reserved DataSize DataSignatureSize MetadataSize MetadataSignatureSize Guid2].
  rewrite (proj2 (N.ltb_lt _ _) H), N.eqb_refl. reflexivity.
Qed.

Lemma std_sort_one (std_sort : list PFS_CHUNK -> list PFS_CHUNK) (c : PFS_CHUNK) :
  std_sort_contract std_sort -> std_sort [c] = [c].
Proof.
  intros H. destruct (H [c]) as [Hp _]. now apply Permutation_length_1_inv in Hp.
Qed.

Lemma long_data_fits (d : list byte) :
  0x248 <= Build.size_of d ->
  match d with
  | [] => true
  | b :: l => 0x248 <=? Build.size_of (b :: l)
  end = true.
Proof. intros H. destruct d; [reflexivity | now apply N.leb_le]. Qed.

Lemma block_file_some (sectionNum : N) (version suffix : string) (bs : list byte) :
  0 < Build.size_of bs ->
  block_file sectionNum version suffix bs
  = [(section_filename sectionNum version suffix, bs)].
Proof. intros H. destruct bs; [now apply N.lt_irrefl in H | reflexivity]. Qed.

Lemma chunk_of_some (d : list byte) :
  0 < Build.size_of d ->
  match d with
  | [] => []
  | b :: l => [chunk_of (b :: l)]
  end = [chunk_of d].
Proof. intros H. destruct d; [now apply N.lt_irrefl in H | reflexivity]. Qed.

(** Containers nested to any depth: the outermost section gives its data
    and its payload, and the call returns 0. *)
Lemma nest_is_extracted {W} (sink : W -> string -> list byte -> W * io_result)
    (std_sort : list PFS_CHUNK -> list PFS_CHUNK) (k : nat) :
  std_sort_contract std_sort ->
  Build.size_of (Samples.nest (S k)) < 2 ^ 32 ->
  performs (main_extract sink std_sort (Samples.nest (S k)))
    [("section_0_.data"%string, Samples.nest k);
     ("section_0_.payload"%string, skipn 0x248 (nest_data k))] 0.
Proof.
  intros Hsort Hsz.
  pose proof (nest_size (S k)) as HS. cbn [nest_data] in HS.
  pose proof (nest_size k) as Hk. pose proof (nest_data_size k) as Hd.
  set (inner := section_of [0; 0; 0; 0] [0; 0; 0; 0] (nest_data k) [] [] []).
  set (e := {| Raw := section_of [0; 0; 0; 0] [0; 0; 0; 0] (Samples.nest k) [] [] [];
               Chunks := Some [inner] |}).
  assert (Hnest : Samples.nest (S k) = Build.container (encode_sections (map Raw [e]))).
  { apply (nest_as_encoded (S k)). }
  assert (Hfits : forallb entry_fits [e] = true).
  { cbn [forallb]. rewrite Bool.andb_true_r. unfold entry_fits. cbn [Raw Chunks e].
    rewrite section_of_fits by lia. cbn [andb Data section_of].
    apply andb_true_intro. split.
    - apply bytes_eqb_eq. apply nest_as_encoded.
    - cbn [forallb]. rewrite Bool.andb_true_r. unfold chunk_fits.
      unfold inner at 1. rewrite section_of_fits by lia. cbn [andb inner Data section_of].
      apply long_data_fits. lia. }
  assert (Hbody : Build.size_of (encode_sections (map Raw [e])) < 2 ^ 32).
  { cbn [map encode_sections flat_map Raw e]. rewrite app_nil_r, section_of_size. lia. }
  assert (Hst : stored (Samples.nest (S k)) 0
                  (Build.container (encode_sections (map Raw [e])))).
  { exists [], []. split; [|reflexivity]. cbn [app]. now rewrite app_nil_r. }
  assert (Hlen : (2 <= List.length (Samples.nest (S k)))%nat).
  { unfold Build.size_of in HS. lia. }
  rewrite (main_extract_depth sink std_sort _ Hlen).
  assert (Hfiles : expected_files std_sort 0 [e]
                   = [("section_0_.data"%string, Samples.nest k);
                      ("section_0_.payload"%string, skipn 0x248 (nest_data k))]).
  { cbn [expected_files]. rewrite app_nil_r. unfold files_of_entry.
    cbn [Raw Chunks e Data DataSignature Metadata MetadataSignature section_of block_file
         app].
    assert (Hne : block_file 0
                    (version_of (Header (section_of [0; 0; 0; 0] [0; 0; 0; 0]
                                           (Samples.nest k) [] [] []))) "data"
                    (Samples.nest k)
                  = [(section_filename 0
                        (version_of (Header (section_of [0; 0; 0; 0] [0; 0; 0; 0]
                                               (Samples.nest k) [] [] []))) "data",
                      Samples.nest k)]).
    { apply block_file_some. lia. }
    rewrite Hne. cbn [app]. do 2 f_equal.
    unfold chunks_of, inner. cbn [flat_map Data section_of].
    rewrite (chunk_of_some (nest_data k)) by lia.
    cbn [app]. rewrite (std_sort_one std_sort _ Hsort).
    cbn [map List.concat chunk_of data]. now rewrite app_nil_r. }
  rewrite <- Hfiles.
  apply container_call; try assumption.
  assert (Hc : Build.size_of (Samples.nest (S k))
               = 32 + Build.size_of (encode_sections (map Raw [e]))).
  { rewrite Hnest at 1.
    pose proof (container_size (encode_sections (map Raw [e])) []) as H.
    rewrite app_nil_r in H. rewrite H. change (Build.size_of []) with 0. lia. }
  unfold Build.size_of in Hc at 1. lia.
Qed.

(** C7 (as amended). The code has no depth counter and no failure for
    nesting that is too deep; the recursion is bounded all the same.  The
    recursive call always carries a target name, and a call with a target
    name never recurses: a depth of one is enough for it, a depth of two
    for any call, on every input, and with that depth the run never stops
    for want of fuel.  The run from [main] is one such call.  A call with
    a target name does the same whatever the recursive call would do, so
    it never makes it; the data block of a section that it meets is taken
    as a chunk, the bytes from offset 0x248 on, without a look at what
    the block begins with.  So containers nested in one another to any
    depth, as [Samples.nest] builds them, are extracted with result 0:
    the outermost section gives its data, the next container, and its
    payload, the data of that container's section from offset 0x248 on. *)
Theorem recursion_depth_at_most_two {W} (sink : W -> string -> list byte -> W * io_result)
    (std_sort : list PFS_CHUNK -> list PFS_CHUNK) (mem : list byte) (depth : nat)
    (buffer bufferSize : N) (filename : option string) (name : string) (w : W) :
  pfs_extract sink std_sort mem (S depth) buffer bufferSize (Some name) w
  = pfs_extract sink std_sort mem 1 buffer bufferSize (Some name) w
  /\ outcome_of (pfs_extract sink std_sort mem 1 buffer bufferSize (Some name) w) <> OutOfFuel
  /\ pfs_extract sink std_sort mem (S (S depth)) buffer bufferSize filename w
     = pfs_extract sink std_sort mem 2 buffer bufferSize filename w
  /\ outcome_of (pfs_extract sink std_sort mem 2 buffer bufferSize filename w) <> OutOfFuel
  /\ main_extract sink std_sort mem w
     = pfs_extract sink std_sort mem 2 0 (N.of_nat (List.length mem)) None w
  /\ outcome_of (main_extract sink std_sort mem w) <> OutOfFuel
  /\ (forall rec1 rec2 : N -> N -> option string -> M W N,
         pfs_extract_body sink std_sort mem rec1 buffer bufferSize (Some name) w
         = pfs_extract_body sink std_sort mem rec2 buffer bufferSize (Some name) w)
  /\ (forall (rec : N -> N -> option string -> M W N) hdr ptr sectionNum version collected
             w' num bytes,
         DataSize hdr <> 0 ->
         load mem (ptr + 0x3E) 2 = Some num ->
         0x248 <= DataSize hdr ->
         span mem (ptr + 0x248) (DataSize hdr - 0x248) = Some bytes ->
         data_block sink mem rec true hdr ptr sectionNum version collected w'
         = ([], w', Ret (collected ++ [ {| data := bytes; orderNum := num |} ])))
  /\ (std_sort_contract std_sort ->
      forall k,
        Build.size_of (Samples.nest (S k)) < 2 ^ 32 ->
        outcome_of (main_extract sink std_sort (Samples.nest (S k)) w) = Ret 0
        /\ writes_of (events_of (main_extract sink std_sort (Samples.nest (S k)) w))
           = [("section_0_.data"%string, Samples.nest k);
              ("section_0_.payload"%string, skipn 0x248 (nest_data k))]).
Proof.
  split; [apply subsection_depth|].
  split; [apply subsection_terminates|].
  split; [apply any_depth|].
  split; [apply any_depth_terminates|].
  assert (E : main_extract sink std_sort mem w
              = pfs_extract sink std_sort mem 2 0 (N.of_nat (List.length mem)) None w).
  { unfold main_extract. destruct (List.length mem) as [|n].
    - cbn [pfs_extract]. rewrite !prologue_input_too_small by (simpl; lia). reflexivity.
    - apply any_depth. }
  split; [exact E|].
  split; [rewrite E; apply any_depth_terminates|].
  split; [intros rec1 rec2; apply equiv_body; left; reflexivity|].
  split.
  { intros rec hdr ptr sectionNum version collected w' num bytes Hd Hnum Hsize Hbytes.
    now apply data_block_collects. }
  intros Hsort k Hsz. apply (nest_is_extracted sink std_sort k Hsort Hsz w).
Qed.

Lemma recursion_depth_at_most_two_witness :
  std_sort_contract stable_sort
  /\ Build.size_of (Samples.nest 3) < 2 ^ 32
  /\ outcome_of (main_extract Build.ok_sink stable_sort (Samples.nest 3) tt) = Ret 0
  /\ map fst (writes_of (events_of (main_extract Build.ok_sink stable_sort
                                      (Samples.nest 3) tt)))
     = ["section_0_.data"%string; "section_0_.payload"%string].
Proof.
  assert (H : Build.size_of (Samples.nest 3) < 2 ^ 32) by (vm_compute; reflexivity).
  split; [exact stable_sort_contract|]. split; [exact H|].
  destruct (recursion_depth_at_most_two Build.ok_sink stable_sort [] 0 0 0 None
              EmptyString tt) as (_ & _ & _ & _ & _ & _ & _ & _ & Hnest).
  destruct (Hnest stable_sort_contract 2%nat H) as [Ho Hw].
  split; [exact Ho|]. rewrite Hw. reflexivity.
Defined.



(** ** The section number in the names of the files *)

Lemma reads_back_value (base : N) (s : string) (n : N) :
  reads_back base s n = true -> value_of_digits base s 0 = Some n.
Proof.
  unfold reads_back. destruct s as [|c s]; [discriminate|].
  destruct (value_of_digits base (String c s) 0) as [v|]; [|discriminate].
  intros H. apply N.eqb_eq in H. now subst.
Qed.

(** Digits followed by an underscore: where the digits end is decided by
    the text. *)
Lemma digits_then_underscore (base : N) (a : string) :
  forall a' r r' acc acc' v v',
    value_of_digits base a acc = Some v ->
    value_of_digits base a' acc' = Some v' ->
    (a ++ String "_" r)%string = (a' ++ String "_" r')%string ->
    a = a' /\ r = r'.
Proof.
  induction a as [|c a IH]; intros [|c' a'] r r' acc acc' v v' Ha Ha' E;
    cbn [append] in E.
  - injection E as E. now split.
  - injection E as Ec _. subst c'. cbn in Ha'. discriminate.
  - injection E as Ec _. subst c. cbn in Ha. discriminate.
  - injection E as Ec E. subst c'.
    cbn [value_of_digits] in Ha, Ha'.
    destruct (digit_value c) as [d|]; [|discriminate].
    destruct (d <? base); [|discriminate].
    destruct (IH a' r r' _ _ _ _ Ha Ha' E) as [-> ->]. now split.
Qed.

(** Names built from different section numbers are different names. *)
Lemma section_filename_number (n n' : N) (version version' suffix suffix' : string) :
  section_filename n version suffix = section_filename n' version' suffix' -> n = n'.
Proof.
  unfold section_filename. intros E.
  cbn [append] in E. injection E as E.
  pose proof (reads_back_value _ _ _ (proj2 (fmt_reads_back n))) as Hn.
  pose proof (reads_back_value _ _ _ (proj2 (fmt_reads_back n'))) as Hn'.
  destruct (digits_then_underscore 10 _ _ _ _ _ _ _ _ Hn Hn' E) as [Ed _].
  rewrite Ed in Hn. rewrite Hn in Hn'. now injection Hn'.
Qed.

(** The files of a well-formed file, section by section: the section at
    position [k] of the pass is named after [k] modulo 256. *)
Lemma expected_files_indexed (std_sort : list PFS_CHUNK -> list PFS_CHUNK)
    (es : list PFS_ENTRY) :
  forall i : nat,
    expected_files std_sort (N.of_nat i mod 256) es
    = List.concat
        (map (fun p => files_of_entry std_sort (N.of_nat (fst p) mod 256) (snd p))
           (combine (seq i (List.length es)) es)).
Proof.
  induction es as [|e es IH]; intros i; [reflexivity|].
  cbn [expected_files List.length seq combine map List.concat fst snd]. f_equal.
  rewrite <- IH. f_equal. unfold next_sectionNum.
  rewrite N.Div0.add_mod_idemp_l. f_equal. lia.
Qed.

(** C10. The section number is an 8-bit counter.  In the pass started by
    [main], the section headers printed, in order, carry the numbers 0, 1,
    2, ... reduced modulo 256; incrementing 255 gives 0; and every file a
    section writes is named after the number and the version of that
    section.  The number stands in the name in decimal, between
    [section_] and an underscore, so two names of one version and ending
    are the same name exactly when the numbers agree modulo 256, and in
    a well-formed file the files of the section at position [k] carry
    the number [k] modulo 256.  So the 257th section is numbered 0 again
    and its file names are those of a first section with the same
    version: in the sample file of 257 sections of one data byte each,
    the writes go to "section_0_.data", "section_1_.data" and so on up to
    "section_255_.data", and then to "section_0_.data" once more, with
    different contents. *)
Theorem section_index_wraps {W} (sink : W -> string -> list byte -> W * io_result)
    (std_sort : list PFS_CHUNK -> list PFS_CHUNK) (mem : list byte) (w : W) :
  (exists k, section_numbers false (events_of (main_extract sink std_sort mem w))
             = numbering 0 k)
  /\ (forall k i, nth_error (numbering 0 k) i
                  = if Nat.ltb i k then Some (N.of_nat i mod 256) else None)
  /\ nth_error (numbering 0 257) 256 = Some 0
  /\ next_sectionNum 255 = 0
  /\ (forall n, next_sectionNum n < 256)
  /\ (forall depth off sectionNum chunks w',
         match read_section_header mem off with
         | Some hdr =>
             Forall (named_after sectionNum (fst (decode_version (components hdr))))
               (writes_of
                  (events_of
                     (section_step sink mem (pfs_extract sink std_sort mem depth) false
                        off sectionNum chunks w')))
         | None => True
         end)
  /\ (forall version suffix,
         section_filename (N.of_nat 256 mod 256) version suffix
         = section_filename (N.of_nat 0 mod 256) version suffix)
  /\ section_numbers false
       (events_of (main_extract Build.ok_sink stable_sort Samples.long_file tt))
     = numbering 0 257
  /\ List.length (writes_of (events_of (main_extract Build.ok_sink stable_sort
                                          Samples.long_file tt))) = 257%nat
  /\ nth_error (writes_of (events_of (main_extract Build.ok_sink stable_sort
                                        Samples.long_file tt))) 0
     = Some ("section_0_.data"%string, [x00])
  /\ nth_error (writes_of (events_of (main_extract Build.ok_sink stable_sort
                                        Samples.long_file tt))) 256
     = Some ("section_0_.data"%string, [x01])
  /\ outcome_of (main_extract Build.ok_sink stable_sort Samples.long_file tt) = Ret 0
  /\ (forall i j version suffix,
         section_filename (i mod 256) version suffix
         = section_filename (j mod 256) version suffix
         <-> i mod 256 = j mod 256)
  /\ (section_filename 0 "." "data" = "section_0_.data"
      /\ section_filename 1 "." "data" = "section_1_.data"
      /\ section_filename 10 "." "data" = "section_10_.data"
      /\ section_filename 255 "." "data" = "section_255_.data"
      /\ section_filename (256 mod 256) "." "data" = "section_0_.data")%string
  /\ nth_error (writes_of (events_of (main_extract Build.ok_sink stable_sort
                                        Samples.long_file tt))) 1
     = Some ("section_1_.data"%string, [x01])
  /\ nth_error (writes_of (events_of (main_extract Build.ok_sink stable_sort
                                        Samples.long_file tt))) 255
     = Some ("section_255_.data"%string, [xff])
  /\ map fst (writes_of (events_of (main_extract Build.ok_sink stable_sort
                                      Samples.long_file tt)))
     = map (fun i : nat => section_filename (N.of_nat i mod 256) "." "data") (seq 0 257)
  /\ (forall (es : list PFS_ENTRY) (trailing : list byte),
         forallb entry_fits es = true ->
         Build.size_of (encode_sections (map Raw es)) < 2 ^ 32 ->
         mem = Build.container (encode_sections (map Raw es)) ++ trailing ->
         writes_of (events_of (main_extract sink std_sort mem w))
         = List.concat
             (map (fun p => files_of_entry std_sort (N.of_nat (fst p) mod 256) (snd p))
                (combine (seq 0 (List.length es)) es))).
Proof.
  split.
  { unfold main_extract. cbn [pfs_extract].
    apply numbered_body. intros p s name. apply not_normal_call. }
  split; [apply numbering_nth|].
  split; [reflexivity|]. split; [reflexivity|].
  split; [apply next_sectionNum_lt|].
  split.
  { intros depth off sectionNum chunks w'.
    destruct (read_section_header mem off) as [hdr|] eqn:E; [|exact I].
    now apply section_step_names. }
  split; [reflexivity|].
  assert (E : exists r, main_extract Build.ok_sink stable_sort Samples.long_file tt = r
                        /\ section_numbers false (events_of r) = numbering 0 257
                        /\ List.length (writes_of (events_of r)) = 257%nat
                        /\ nth_error (writes_of (events_of r)) 0
                           = Some ("section_0_.data"%string, [x00])
                        /\ nth_error (writes_of (events_of r)) 256
                           = Some ("section_0_.data"%string, [x01])
                        /\ outcome_of r = Ret 0
                        /\ nth_error (writes_of (events_of r)) 1
                           = Some ("section_1_.data"%string, [x01])
                        /\ nth_error (writes_of (events_of r)) 255
                           = Some ("section_255_.data"%string, [xff])
                        /\ map fst (writes_of (events_of r))
                           = map (fun i : nat =>
                                    section_filename (N.of_nat i mod 256) "." "data")
                               (seq 0 257)).
  { eexists. split; [vm_compute; reflexivity|]. repeat split; vm_compute; reflexivity. }
  destruct E as (r & -> & H1 & H2 & H3 & H4 & H5 & H6 & H7 & H8).
  split; [exact H1|]. split; [exact H2|]. split; [exact H3|]. split; [exact H4|].
  split; [exact H5|].
  split.
  { intros i j version suffix. split.
    - apply section_filename_number.
    - intros ->. reflexivity. }
  split; [repeat split; vm_compute; reflexivity|].
  split; [exact H6|]. split; [exact H7|]. split; [exact H8|].
  intros es trailing Hfits Hsz ->.
  pose proof (container_size (encode_sections (map Raw es)) trailing) as Hlen.
  unfold Build.size_of at 1 in Hlen.
  rewrite main_extract_depth by lia.
  destruct (container_call sink std_sort
              (Build.container (encode_sections (map Raw es)) ++ trailing)
              (List.length (Build.container (encode_sections (map Raw es)) ++ trailing) - 1)
              0 (N.of_nat (List.length (Build.container (encode_sections (map Raw es))
                                        ++ trailing)))
              es Hfits Hsz) with (w := w) as [_ Hw];
    [exists [], trailing; split; reflexivity | lia |].
  rewrite Hw. apply (expected_files_indexed std_sort es 0).
Qed.

Lemma section_index_wraps_witness :
  forallb entry_fits sample_entries = true
  /\ map fst (writes_of (events_of
                (main_extract Build.ok_sink stable_sort
                   (Build.container (encode_sections (map Raw sample_entries)) ++ []) tt)))
     = ["section_0_FF.10.data"; "section_0_FF.10.sign"; "section_0_FF.10.mtsg";
        "section_1_.data"; "section_1_.payload"; "section_1_.meta"]%string.
Proof.
  assert (H1 : forallb entry_fits sample_entries = true) by (vm_compute; reflexivity).
  assert (H2 : Build.size_of (encode_sections (map Raw sample_entries)) < 2 ^ 32)
    by (vm_compute; reflexivity).
  split; [exact H1|].
  destruct (section_index_wraps Build.ok_sink stable_sort
              (Build.container (encode_sections (map Raw sample_entries)) ++ []) tt)
    as (_ & _ & _ & _ & _ & _ & _ & _ & _ & _ & _ & _ & _ & _ & _ & _ & _ & Hall).
  rewrite (Hall sample_entries [] H1 H2 eq_refl). vm_compute. reflexivity.
Defined.
